(** * Expense tracker: wallets, period filter and aggregates

    A shallow embedding of the logic of [src/app/page.tsx] (the multi-wallet
    component [ExpenseTracker]) together with the parts of the JavaScript
    platform that logic rests on.  The definitions come first:

    - [JSDate]: the ECMAScript [Date] arithmetic the component uses (time
      values, local time at a fixed offset from UTC, [getFullYear],
      [getMonth], [getDate], [getDay], [setMonth], [setFullYear], the
      [Date(y, m, d)] constructor and the parsing of [YYYY-MM-DD] strings);
    - the record model ([Transaction], [WalletData]); amounts are
      JavaScript numbers, that is IEEE 754 binary64 values, which is what
      Rocq's primitive [float] is; a string stands for a JavaScript
      string in its UTF-8 encoding;
    - [trim], [parseFloat] and the value an [<input type="number">]
      holds, read off the text;
    - the load effect on the parsed stored value ([json]);
    - the component's state, one field per [useState] variable, and the
      handlers as functions on it, the results of the platform calls a
      handler makes ([crypto.randomUUID()], [confirm()], [parseFloat],
      today's date) being passed in as arguments;
    - the transaction form, whose fields the browser validates before it
      calls [handleSubmit] ([submitForm]);
    - the derived values ([filteredTransactions], [displayList], [stats],
      [monthlyChartData], [calendarData]);
    - the application as a transition system ([Action], [perform],
      [reachable]).

    The facts follow: the calendar, local time, the period filter, the
    aggregates, navigation, loading, the wallet invariant and the
    transaction handlers. *)

From Stdlib Require Import ZArith List String Ascii Bool Lia PrimFloat.
From Stdlib Require Import Permutation Sorted.
From Stdlib Require FloatOps SpecFloat FloatAxioms.
Import ListNotations.

Local Open Scope Z_scope.
Local Open Scope bool_scope.

(* ================================================================== *)
(** ** ECMAScript dates *)
(* ================================================================== *)

Module JSDate.

(** A time value is a number of milliseconds since 1970-01-01T00:00:00Z.
    Valid time values are integers, modelled as [Z]; an Invalid Date (time
    value NaN) is [None] where one can arise.  [TimeClip]'s bound of
    8.64e15 ms is not modelled.  Months are 0-based (0 = January), as
    [MonthFromTime] and [getMonth] have them. *)

Definition msPerDay : Z := 86400000.

Definition Day (t : Z) : Z := t / msPerDay.
Definition TimeWithinDay (t : Z) : Z := t mod msPerDay.
Definition MakeDate (day time : Z) : Z := day * msPerDay + time.

Definition isLeapYear (y : Z) : bool :=
  ((y mod 4 =? 0) && negb (y mod 100 =? 0)) || (y mod 400 =? 0).

(** Number of days of month [m] (0-based) of year [y]. *)
Definition daysInMonth (y m : Z) : Z :=
  if m =? 1 then (if isLeapYear y then 29 else 28)
  else if (m =? 3) || (m =? 5) || (m =? 8) || (m =? 10) then 30
  else 31.

(** The day number (days since the epoch) of the civil date [y]-[m+1]-[d] in
    the proleptic Gregorian calendar, computed on years that start in
    March, so that the leap day is the last day of the year. *)
Definition daysFromCivil (y m d : Z) : Z :=
  let y' := if m <? 2 then y - 1 else y in
  let era := y' / 400 in
  let yoe := y' mod 400 in
  let mp := if m <? 2 then m + 10 else m - 2 in
  let doy := (153 * mp + 2) / 5 + d - 1 in
  let doe := yoe * 365 + yoe / 4 - yoe / 100 + doy in
  era * 146097 + doe - 719468.

(** The civil date (year, 0-based month, day of month) of a day number. *)
Definition civilFromDays (z : Z) : Z * Z * Z :=
  let z' := z + 719468 in
  let era := z' / 146097 in
  let doe := z' mod 146097 in
  let yoe := (doe - doe / 1460 + doe / 36524 - doe / 146096) / 365 in
  let doy := doe - (365 * yoe + yoe / 4 - yoe / 100) in
  let mp := (5 * doy + 2) / 153 in
  let d := doy - (153 * mp + 2) / 5 + 1 in
  let m := if mp <? 10 then mp + 2 else mp - 10 in
  (yoe + era * 400 + (if m <? 2 then 1 else 0), m, d).

(** A civil date that exists: month 0..11 and day within the month. *)
Definition validCivil (y m d : Z) : bool :=
  (0 <=? m) && (m <? 12) && (1 <=? d) && (d <=? daysInMonth y m).

(** ECMAScript's [DayFromYear]: the day number of January 1st of year [y]. *)
Definition DayFromYear (y : Z) : Z :=
  365 * (y - 1970) + (y - 1969) / 4 - (y - 1901) / 100 + (y - 1601) / 400.

(** ECMAScript's table of the day within the year on which each month
    starts (the bounds of [MonthFromTime]). *)
Definition monthStart (y m : Z) : Z :=
  let leap := if isLeapYear y then 1 else 0 in
  if m =? 0 then 0
  else if m =? 1 then 31
  else if m =? 2 then 59 + leap
  else if m =? 3 then 90 + leap
  else if m =? 4 then 120 + leap
  else if m =? 5 then 151 + leap
  else if m =? 6 then 181 + leap
  else if m =? 7 then 212 + leap
  else if m =? 8 then 243 + leap
  else if m =? 9 then 273 + leap
  else if m =? 10 then 304 + leap
  else 334 + leap.

Definition YearFromTime (t : Z) : Z := fst (fst (civilFromDays (Day t))).
Definition MonthFromTime (t : Z) : Z := snd (fst (civilFromDays (Day t))).
Definition DateFromTime (t : Z) : Z := snd (civilFromDays (Day t)).
Definition WeekDay (t : Z) : Z := (Day t + 4) mod 7.

(** [MakeDay(year, month, date)]: months outside 0..11 carry into the year,
    and a day of month outside the month carries into the neighbouring
    months, since it is added to the day number of the first of the
    month. *)
Definition MakeDay (year month date : Z) : Z :=
  daysFromCivil (year + month / 12) (month mod 12) 1 + date - 1.

Section LocalTime.

(** The offset of local time from UTC in milliseconds (ECMAScript's
    [LocalTZA]), taken as constant: the time zone is one with a fixed
    offset.  Daylight-saving changes, where the offset depends on the
    date and a local time can be skipped or repeated, are not modelled. *)
Variable LocalTZA : Z.

Definition LocalTime (t : Z) : Z := t + LocalTZA.
Definition UTC (t : Z) : Z := t - LocalTZA.

Definition getFullYear (d : Z) : Z := YearFromTime (LocalTime d).
Definition getMonth (d : Z) : Z := MonthFromTime (LocalTime d).
Definition getDate (d : Z) : Z := DateFromTime (LocalTime d).
Definition getDay (d : Z) : Z := WeekDay (LocalTime d).

(** The local year, month and day of month of a date. *)
Definition localFields (d : Z) : Z * Z * Z :=
  (getFullYear d, getMonth d, getDate d).

(** [d.setMonth(month)] and [d.setFullYear(year)]: the other local fields
    and the time of day are kept, and [MakeDay] normalises the result. *)
Definition setMonth (d month : Z) : Z :=
  let t := LocalTime d in
  UTC (MakeDate (MakeDay (YearFromTime t) month (DateFromTime t))
                (TimeWithinDay t)).

Definition setFullYear (d year : Z) : Z :=
  let t := LocalTime d in
  UTC (MakeDate (MakeDay year (MonthFromTime t) (DateFromTime t))
                (TimeWithinDay t)).

(** [new Date(year, month, date)]: local midnight of that day.  A year from
    0 to 99 stands for 1900 + year. *)
Definition newDate_ymd (year month date : Z) : Z :=
  let yr := if (0 <=? year) && (year <=? 99) then 1900 + year else year in
  UTC (MakeDate (MakeDay yr month date) 0).

End LocalTime.

(** *** Parsing [YYYY-MM-DD] *)

Definition digit (c : ascii) : option Z :=
  let n := Z.of_nat (nat_of_ascii c) in
  if (48 <=? n) && (n <=? 57) then Some (n - 48) else None.

Definition digits2 (a b : ascii) : option Z :=
  match digit a, digit b with
  | Some x, Some y => Some (10 * x + y)
  | _, _ => None
  end.

Definition digits4 (a b c d : ascii) : option Z :=
  match digits2 a b, digits2 c d with
  | Some x, Some y => Some (100 * x + y)
  | _, _ => None
  end.

(** The fields of a date-only string of the Date Time String Format, when
    they name a day that exists; the month returned is 0-based. *)
Definition parseISODate (s : string) : option (Z * Z * Z) :=
  match list_ascii_of_string s with
  | [y1; y2; y3; y4; s1; m1; m2; s2; d1; d2] =>
      if (Ascii.eqb s1 "-") && (Ascii.eqb s2 "-") then
        match digits4 y1 y2 y3 y4, digits2 m1 m2, digits2 d1 d2 with
        | Some y, Some m, Some d =>
            if (1 <=? m) && (m <=? 12) && (1 <=? d)
               && (d <=? daysInMonth y (m - 1))
            then Some (y, m - 1, d) else None
        | _, _, _ => None
        end
      else None
  | _ => None
  end.

(** [new Date(s)] for a string [s]: a date-only form is read as UTC
    midnight of that day.  The component writes [date] from an
    [<input type="date">], whose value is of this form or empty.  What
    [Date] makes of a string of another form (a day that does not exist,
    a time after the date, a format of the implementation's own) is in
    part left to the implementation and is not modelled: such a string is
    taken here to be an Invalid Date, and the facts that read the dates of
    arbitrary transactions ask for dates of the date-only form. *)
Definition newDate_string (s : string) : option Z :=
  match parseISODate s with
  | Some (y, m, d) => Some (MakeDate (MakeDay y m d) 0)
  | None => None
  end.

End JSDate.

(* ================================================================== *)
(** ** Record model *)
(* ================================================================== *)

(** [type TransactionType = "income" | "expense"] and
    [type ViewMode = "daily" | "monthly"]. *)
Inductive TransactionType : Type := Income | Expense.
Inductive ViewMode : Type := Daily | Monthly.
Inductive Direction : Type := Prev | Next.

Definition TransactionType_eqb (a b : TransactionType) : bool :=
  match a, b with
  | Income, Income | Expense, Expense => true
  | _, _ => false
  end.

Module Transaction.
Record t : Type := mk {
  id : string;
  description : string;
  amount : float;
  type : TransactionType;
  date : string;            (* YYYY-MM-DD *)
  category : string
}.
End Transaction.

Module WalletData.
Record t : Type := mk {
  id : string;
  name : string;
  transactions : list Transaction.t
}.
End WalletData.

(** JavaScript's [!s] on a string: only the empty string is falsy. *)
Definition truthy (s : string) : bool := negb (String.eqb s "").

(** ECMAScript's white space and line terminators, which
    [String.prototype.trim] strips and [parseFloat] skips: U+0009 to
    U+000D, U+0020, U+00A0, U+1680, U+2000 to U+200A, U+2028, U+2029,
    U+202F, U+205F, U+3000 and U+FEFF.  In UTF-8 they take one byte
    (9 to 13, 32), two (194 160) or three. *)
Definition isWhiteSpace1 (a : ascii) : bool :=
  let x := nat_of_ascii a in
  (((9 <=? x) && (x <=? 13)) || (x =? 32))%nat.

Definition isWhiteSpace2 (a b : ascii) : bool :=
  ((nat_of_ascii a =? 194) && (nat_of_ascii b =? 160))%nat.

Definition isWhiteSpace3 (a b c : ascii) : bool :=
  let x := nat_of_ascii a in
  let y := nat_of_ascii b in
  let z := nat_of_ascii c in
  (((x =? 225) && (y =? 154) && (z =? 128))
   || ((x =? 226) && (y =? 128)
       && (((128 <=? z) && (z <=? 138)) || (z =? 168) || (z =? 169)
           || (z =? 175)))
   || ((x =? 226) && (y =? 129) && (z =? 159))
   || ((x =? 227) && (y =? 128) && (z =? 128))
   || ((x =? 239) && (y =? 187) && (z =? 191)))%nat.

Fixpoint trimStart (s : string) : string :=
  match s with
  | String a (String b (String c r3 as r2) as r1) =>
      if isWhiteSpace1 a then trimStart r1
      else if isWhiteSpace2 a b then trimStart r2
      else if isWhiteSpace3 a b c then trimStart r3
      else s
  | String a (String b EmptyString as r1) =>
      if isWhiteSpace1 a then trimStart r1
      else if isWhiteSpace2 a b then EmptyString
      else s
  | String a EmptyString => if isWhiteSpace1 a then EmptyString else s
  | EmptyString => EmptyString
  end.

(** A string made of white space only (or empty). *)
Fixpoint isBlank (s : string) : bool :=
  match s with
  | String a (String b (String c r3 as r2) as r1) =>
      if isWhiteSpace1 a then isBlank r1
      else if isWhiteSpace2 a b then isBlank r2
      else if isWhiteSpace3 a b c then isBlank r3
      else false
  | String a (String b EmptyString as r1) =>
      if isWhiteSpace1 a then isBlank r1 else isWhiteSpace2 a b
  | String a EmptyString => isWhiteSpace1 a
  | EmptyString => true
  end.

(** The white space at the end goes: the string is cut where what follows
    is white space only. *)
Fixpoint trimEnd (s : string) : string :=
  match s with
  | String a r => if isBlank s then EmptyString else String a (trimEnd r)
  | EmptyString => EmptyString
  end.

Definition trim (s : string) : string := trimEnd (trimStart s).

(* ================================================================== *)
(** ** Numbers in text *)
(* ================================================================== *)

(** The run of decimal digits at the head of [s]: the number [acc]
    extended by these digits, how many they are, and the rest of [s]. *)
Fixpoint readDigits (s : string) (acc count : Z) : Z * Z * string :=
  match s with
  | String c r =>
      match JSDate.digit c with
      | Some d => readDigits r (10 * acc + d) (count + 1)
      | None => (acc, count, s)
      end
  | EmptyString => (acc, count, s)
  end.

Definition readSign (s : string) : bool * string :=
  match s with
  | String c r =>
      if Ascii.eqb c "-" then (true, r)
      else if Ascii.eqb c "+" then (false, r)
      else (false, s)
  | EmptyString => (false, s)
  end.

(** An exponent part: [e] or [E], an optional sign, at least one digit. *)
Definition readExponent (s : string) : option (Z * string) :=
  match s with
  | String c r =>
      if Ascii.eqb c "e" || Ascii.eqb c "E" then
        let '(negative, r1) := readSign r in
        let '(e, count, r2) := readDigits r1 0 0 in
        if 0 <? count then Some (if negative then - e else e, r2) else None
      else None
  | EmptyString => None
  end.

(** The longest [StrUnsignedDecimalLiteral] (other than [Infinity]) at the
    head of [s], as [(m, e, rest)] for the value [m * 10 ^ e]: digits,
    then a point and digits, then an exponent part, with at least one
    digit before the exponent; a point is read after digits even when no
    digit follows it, an exponent part only when it is complete. *)
Definition readUnsigned (s : string) : option (Z * Z * string) :=
  let '(i, ni, s1) := readDigits s 0 0 in
  let '(m, nf, s2) :=
    match s1 with
    | String c r =>
        if Ascii.eqb c "." then
          let '(m, nf, r') := readDigits r i 0 in
          if (0 <? ni) || (0 <? nf) then (m, nf, r') else (i, 0, s1)
        else (i, 0, s1)
    | EmptyString => (i, 0, s1)
    end in
  if (ni =? 0) && (nf =? 0) then None
  else
    match readExponent s2 with
    | Some (e, rest) => Some (m, e - nf, rest)
    | None => Some (m, - nf, s2)
    end.

(** The Number value for [m * 10 ^ e], [m >= 0]: the binary64 value
    nearest to it, ties to even, an infinity beyond the range, with the
    sign asked for (so that a negative zero is read as -0).  A negative
    exponent makes a quotient: it is computed with 65 bits or more and one
    more bit that tells whether the division left a remainder, which is
    enough for the rounding to 53 bits to be that of the exact value. *)
Definition decimalToNumber (negative : bool) (m e : Z) : float :=
  let rounded :=
    if 0 <=? e then
      SpecFloat.binary_normalize FloatOps.prec FloatOps.emax
        (m * 10 ^ e) 0 false
    else
      let q := 10 ^ (- e) in
      let k := Z.log2 q + 66 in
      let n := m * 2 ^ k in
      let sticky := if n mod q =? 0 then 0 else 1 in
      SpecFloat.binary_normalize FloatOps.prec FloatOps.emax
        (2 * (n / q) + sticky) (- k - 1) false in
  let v := FloatOps.SF2Prim rounded in
  if negative then PrimFloat.opp v else v.

(** [parseFloat(text)]: leading white space is skipped, then the longest
    prefix that is a [StrDecimalLiteral] is read, whatever follows it;
    NaN when there is none. *)
Definition parseFloat (text : string) : float :=
  let '(negative, s) := readSign (trimStart text) in
  if String.prefix "Infinity" s then
    if negative then PrimFloat.neg_infinity else PrimFloat.infinity
  else
    match readUnsigned s with
    | Some (m, e, _) => decimalToNumber negative m e
    | None => PrimFloat.nan
    end.

(** HTML's valid floating-point numbers: an optional [-], then digits, or
    a point and digits, or both in this order, then optionally [e] or [E]
    with an optional sign and digits, and nothing more. *)
Definition validExponentOrEnd (s : string) : bool :=
  match s with
  | EmptyString => true
  | _ =>
      match readExponent s with
      | Some (_, EmptyString) => true
      | _ => false
      end
  end.

Definition validFloatingPointNumber (text : string) : bool :=
  let s :=
    match text with
    | String c r => if Ascii.eqb c "-" then r else text
    | EmptyString => text
    end in
  let '(_, ni, s1) := readDigits s 0 0 in
  match s1 with
  | String c r =>
      if Ascii.eqb c "." then
        let '(_, nf, s2) := readDigits r 0 0 in
        (0 <? nf) && validExponentOrEnd s2
      else (0 <? ni) && validExponentOrEnd s1
  | EmptyString => 0 <? ni
  end.

(** The value an [<input type="number">] holds for the text given to it
    (typed, or set from [value={amount}]): the text itself when it is a
    valid floating-point number, the empty string otherwise (the field's
    value sanitization). *)
Definition numberFieldValue (text : string) : string :=
  if validFloatingPointNumber text then text else "".

(** [a === b] for a number [a] that may be NaN ([None]) and an integer
    [b]: NaN equals nothing. *)
Definition num_eq (a : option Z) (b : Z) : bool :=
  match a with
  | Some x => x =? b
  | None => false
  end.

(** [a === b] for [a : string | null] and a string [b]. *)
Definition id_eq (a : option string) (b : string) : bool :=
  match a with
  | Some x => String.eqb x b
  | None => false
  end.

(* ================================================================== *)
(** ** Stored data and the load effect *)
(* ================================================================== *)

#[local] Set Warnings "-register-all".

(** What [JSON.parse] returns. *)
Inductive json : Type :=
  | JNull
  | JBool (b : bool)
  | JNum (x : float)
  | JStr (s : string)
  | JArr (items : list json)
  | JObj (props : list (string * json)).

(** The JSON image of the typed records, as [JSON.stringify(wallets)]
    followed by [JSON.parse] yields it. *)
Definition type_to_json (ty : TransactionType) : json :=
  JStr (match ty with Income => "income" | Expense => "expense" end).

Definition transaction_to_json (t : Transaction.t) : json :=
  JObj [ ("id", JStr (Transaction.id t));
         ("description", JStr (Transaction.description t));
         ("amount", JNum (Transaction.amount t));
         ("type", type_to_json (Transaction.type t));
         ("date", JStr (Transaction.date t));
         ("category", JStr (Transaction.category t)) ]%string.

Definition wallet_json (id name : string) (transactions : json) : json :=
  JObj [ ("id", JStr id); ("name", JStr name);
         ("transactions", transactions) ]%string.

Definition wallet_to_json (w : WalletData.t) : json :=
  wallet_json (WalletData.id w) (WalletData.name w)
    (JArr (map transaction_to_json (WalletData.transactions w))).

(** ['transactions' in v]: a property test on objects, false on arrays
    (which own only indices and [length]), and a [TypeError] ([None]) on
    every value that is not an object. *)
Definition in_transactions (v : json) : option bool :=
  match v with
  | JObj props =>
      Some (existsb (fun kv => String.eqb (fst kv) "transactions") props)
  | JArr _ => Some false
  | JNull | JBool _ | JNum _ | JStr _ => None
  end.

(** The body of the [try] block of the load effect, given the outcome
    [parsed] of [JSON.parse(savedData)] ([None] when it throws) and the
    identifier [uuid] that [crypto.randomUUID()] would return.  The
    result is the value assigned to [initialWallets], [None] when the
    block throws before assigning. *)
Definition tryParse (uuid : string) (parsed : option json)
  : option (list json) :=
  match parsed with
  | None => None
  | Some (JArr items) =>
      match items with
      | first :: _ =>
          match in_transactions first with
          | None => None
          | Some true => Some items
          | Some false => Some [wallet_json uuid "Main Wallet" (JArr items)]
          end
      | [] => Some [wallet_json uuid "Main Wallet" (JArr items)]
      end
  | Some _ => Some []
  end.

(** The wallet collection the load effect passes to [setWallets], from
    [savedData = localStorage.getItem("expense-tracker-data")]. *)
Definition loadWallets (uuid : string) (savedData : option string)
    (parsed : option json) : list json :=
  let initialWallets :=
    match savedData with
    | Some s =>
        if truthy s then
          match tryParse uuid parsed with
          | Some ws => ws
          | None => []          (* caught: "Failed to parse data" *)
          end
        else []
    | None => []
    end in
  match initialWallets with
  | [] => [wallet_json uuid "Main Wallet" (JArr [])]
  | _ :: _ => initialWallets
  end.

(* ================================================================== *)
(** ** Component state *)
(* ================================================================== *)

(** One field per [useState] variable, once the load effect has run
    ([isMounted] is true from then on; before, the component renders
    nothing and no handler can fire). *)
Record State : Type := mkState {
  wallets : list WalletData.t;
  activeWalletId : option string;
  isCreatingWallet : bool;
  newWalletName : string;
  darkMode : bool;
  viewMode : ViewMode;
  currentDate : Z;
  selectedDay : option Z;
  description : string;
  amount : string;
  type : TransactionType;
  date : string;
  category : string;
  editingId : option string
}.

Definition setWallets (v : list WalletData.t) (s : State) : State :=
  mkState v (activeWalletId s) (isCreatingWallet s) (newWalletName s)
    (darkMode s) (viewMode s) (currentDate s) (selectedDay s)
    (description s) (amount s) (type s) (date s) (category s) (editingId s).

Definition setActiveWalletId (v : option string) (s : State) : State :=
  mkState (wallets s) v (isCreatingWallet s) (newWalletName s)
    (darkMode s) (viewMode s) (currentDate s) (selectedDay s)
    (description s) (amount s) (type s) (date s) (category s) (editingId s).

Definition setIsCreatingWallet (v : bool) (s : State) : State :=
  mkState (wallets s) (activeWalletId s) v (newWalletName s)
    (darkMode s) (viewMode s) (currentDate s) (selectedDay s)
    (description s) (amount s) (type s) (date s) (category s) (editingId s).

Definition setNewWalletName (v : string) (s : State) : State :=
  mkState (wallets s) (activeWalletId s) (isCreatingWallet s) v
    (darkMode s) (viewMode s) (currentDate s) (selectedDay s)
    (description s) (amount s) (type s) (date s) (category s) (editingId s).

Definition setDarkMode (v : bool) (s : State) : State :=
  mkState (wallets s) (activeWalletId s) (isCreatingWallet s)
    (newWalletName s) v (viewMode s) (currentDate s) (selectedDay s)
    (description s) (amount s) (type s) (date s) (category s) (editingId s).

Definition setViewMode (v : ViewMode) (s : State) : State :=
  mkState (wallets s) (activeWalletId s) (isCreatingWallet s)
    (newWalletName s) (darkMode s) v (currentDate s) (selectedDay s)
    (description s) (amount s) (type s) (date s) (category s) (editingId s).

Definition setCurrentDate (v : Z) (s : State) : State :=
  mkState (wallets s) (activeWalletId s) (isCreatingWallet s)
    (newWalletName s) (darkMode s) (viewMode s) v (selectedDay s)
    (description s) (amount s) (type s) (date s) (category s) (editingId s).

Definition setSelectedDay (v : option Z) (s : State) : State :=
  mkState (wallets s) (activeWalletId s) (isCreatingWallet s)
    (newWalletName s) (darkMode s) (viewMode s) (currentDate s) v
    (description s) (amount s) (type s) (date s) (category s) (editingId s).

Definition setDescription (v : string) (s : State) : State :=
  mkState (wallets s) (activeWalletId s) (isCreatingWallet s)
    (newWalletName s) (darkMode s) (viewMode s) (currentDate s)
    (selectedDay s) v (amount s) (type s) (date s) (category s)
    (editingId s).

Definition setAmount (v : string) (s : State) : State :=
  mkState (wallets s) (activeWalletId s) (isCreatingWallet s)
    (newWalletName s) (darkMode s) (viewMode s) (currentDate s)
    (selectedDay s) (description s) v (type s) (date s) (category s)
    (editingId s).

Definition setType (v : TransactionType) (s : State) : State :=
  mkState (wallets s) (activeWalletId s) (isCreatingWallet s)
    (newWalletName s) (darkMode s) (viewMode s) (currentDate s)
    (selectedDay s) (description s) (amount s) v (date s) (category s)
    (editingId s).

Definition setDate (v : string) (s : State) : State :=
  mkState (wallets s) (activeWalletId s) (isCreatingWallet s)
    (newWalletName s) (darkMode s) (viewMode s) (currentDate s)
    (selectedDay s) (description s) (amount s) (type s) v (category s)
    (editingId s).

Definition setCategory (v : string) (s : State) : State :=
  mkState (wallets s) (activeWalletId s) (isCreatingWallet s)
    (newWalletName s) (darkMode s) (viewMode s) (currentDate s)
    (selectedDay s) (description s) (amount s) (type s) (date s) v
    (editingId s).

Definition setEditingId (v : option string) (s : State) : State :=
  mkState (wallets s) (activeWalletId s) (isCreatingWallet s)
    (newWalletName s) (darkMode s) (viewMode s) (currentDate s)
    (selectedDay s) (description s) (amount s) (type s) (date s)
    (category s) v.

(** The state the load effect leaves, for a loaded collection [ws] (never
    empty, see [loadWallets]) whose first wallet is [w0]: the first wallet
    is active ([setActiveWalletId(initialWallets[0].id)]); every other
    variable has its [useState] initial value, [now] being [new Date()]
    and [today] its ISO date. *)
Definition mountedState (w0 : WalletData.t) (rest : list WalletData.t)
    (savedTheme : option string) (now : Z) (today : string) : State :=
  {| wallets := w0 :: rest;
     activeWalletId := Some (WalletData.id w0);
     isCreatingWallet := false;
     newWalletName := "";
     darkMode := id_eq savedTheme "dark";
     viewMode := Daily;
     currentDate := now;
     selectedDay := None;
     description := "";
     amount := "";
     type := Expense;
     date := today;
     category := "General";
     editingId := None |}.

(** [activeWallet] and [transactions], the derived state of lines 89-90. *)
Definition activeWallet (s : State) : option WalletData.t :=
  find (fun w => id_eq (activeWalletId s) (WalletData.id w)) (wallets s).

Definition transactions (s : State) : list Transaction.t :=
  match activeWallet s with
  | Some w => WalletData.transactions w
  | None => []
  end.

(* ================================================================== *)
(** ** Handlers *)
(* ================================================================== *)

(** What running a handler leaves behind: the next state, the next state
    after an [alert] was shown, or an uncaught [TypeError]. *)
Inductive Outcome : Type :=
  | Done (s : State)
  | Alerted (message : string) (s : State)
  | Thrown.

(** Truthiness of a [string | null]: null and the empty string are falsy. *)
Definition truthy_opt (o : option string) : bool :=
  match o with
  | Some x => truthy x
  | None => false
  end.

Definition toggleTheme (s : State) : State :=
  setDarkMode (negb (darkMode s)) s.

(** [uuid] is the value of [crypto.randomUUID()]. *)
Definition handleCreateWallet (uuid : string) (s : State) : State :=
  if negb (truthy (trim (newWalletName s))) then s
  else
    let newWallet := WalletData.mk uuid (newWalletName s) [] in
    setIsCreatingWallet false
      (setNewWalletName ""
         (setActiveWalletId (Some (WalletData.id newWallet))
            (setWallets (wallets s ++ [newWallet]) s))).

(** [confirmed] is the answer [confirm(...)] returns if it is asked. *)
Definition handleDeleteWallet (walletId : string) (confirmed : bool)
    (s : State) : Outcome :=
  if (List.length (wallets s) <=? 1)%nat then
    Alerted "You must have at least one wallet." s
  else if confirmed then
    let updatedWallets :=
      filter (fun w => negb (String.eqb (WalletData.id w) walletId))
             (wallets s) in
    if id_eq (activeWalletId s) walletId then
      match updatedWallets with
      | w0 :: _ =>
          Done (setActiveWalletId (Some (WalletData.id w0))
                  (setWallets updatedWallets s))
      | [] => Thrown               (* updatedWallets[0] is undefined *)
      end
    else Done (setWallets updatedWallets s)
  else Done s.

(** The transaction [handleSubmit] builds: [amountValue] is the value of
    [parseFloat(amount)]. *)
Definition payload (uuid : string) (amountValue : float) (s : State)
  : Transaction.t :=
  Transaction.mk
    (match editingId s with
     | Some e => if truthy e then e else uuid
     | None => uuid
     end)
    (description s) amountValue (type s) (date s) (category s).

(** The function [handleSubmit] maps over the wallets. *)
Definition submitToWallet (s : State) (p : Transaction.t)
    (w : WalletData.t) : WalletData.t :=
  if id_eq (activeWalletId s) (WalletData.id w) then
    let updatedTransactions :=
      if truthy_opt (editingId s) then
        map (fun t => if id_eq (editingId s) (Transaction.id t)
                      then p else t)
            (WalletData.transactions w)
      else WalletData.transactions w ++ [p] in
    WalletData.mk (WalletData.id w) (WalletData.name w) updatedTransactions
  else w.

(** [today] is [new Date().toISOString().split("T")[0]]. *)
Definition handleSubmit (uuid : string) (amountValue : float)
    (today : string) (s : State) : State :=
  if negb (truthy (description s)) || negb (truthy (amount s))
     || negb (truthy (date s)) || negb (truthy_opt (activeWalletId s))
  then s
  else
    let p := payload uuid amountValue s in
    let s1 := setWallets (map (submitToWallet s p) (wallets s)) s in
    let s2 := if truthy_opt (editingId s) then setEditingId None s1 else s1 in
    setType Expense
      (setCategory "General"
         (setDate today (setAmount "" (setDescription "" s2)))).

(** [amountText] is [t.amount.toString()]. *)
Definition handleEdit (t : Transaction.t) (amountText : string)
    (s : State) : State :=
  setCategory (Transaction.category t)
    (setDate (Transaction.date t)
       (setType (Transaction.type t)
          (setAmount amountText
             (setDescription (Transaction.description t)
                (setEditingId (Some (Transaction.id t)) s))))).

Definition deleteFromWallet (s : State) (id : string)
    (w : WalletData.t) : WalletData.t :=
  if id_eq (activeWalletId s) (WalletData.id w) then
    WalletData.mk (WalletData.id w) (WalletData.name w)
      (filter (fun t => negb (String.eqb (Transaction.id t) id))
              (WalletData.transactions w))
  else w.

Definition handleDelete (id : string) (confirmed : bool) (s : State)
  : State :=
  if confirmed then setWallets (map (deleteFromWallet s id) (wallets s)) s
  else s.

Definition cancelEdit (s : State) : State :=
  setCategory "General"
    (setAmount "" (setDescription "" (setEditingId None s))).

Section Navigation.

Variable LocalTZA : Z.

Definition navigateTime (direction : Direction) (s : State) : State :=
  let step := match direction with Next => 1 | Prev => -1 end in
  match viewMode s with
  | Daily =>
      let newDate :=
        JSDate.setMonth LocalTZA (currentDate s)
          (JSDate.getMonth LocalTZA (currentDate s) + step) in
      setCurrentDate newDate (setSelectedDay None s)
  | Monthly =>
      let newDate :=
        JSDate.setFullYear LocalTZA (currentDate s)
          (JSDate.getFullYear LocalTZA (currentDate s) + step) in
      setCurrentDate newDate s
  end.

End Navigation.

Definition handleDayClick (day : Z) (s : State) : State :=
  if num_eq (selectedDay s) day then setSelectedDay None s
  else setSelectedDay (Some day) s.

(** The view toggle buttons: [setViewMode(m); setSelectedDay(null)]. *)
Definition toggleView (m : ViewMode) (s : State) : State :=
  setSelectedDay None (setViewMode m s).

(* ================================================================== *)
(** ** The transaction form *)
(* ================================================================== *)

(** [<form onSubmit={handleSubmit}>] has no [noValidate], and its fields
    are declared as
    [<input type="text" required value={description}>],
    [<input type="number" required min="0" step="0.01" value={amount}>]
    and [<input type="date" required value={date}>]: on submission the
    browser validates the fields and fires [onSubmit] only when none
    suffers from a constraint.  The constraints read off the state are the
    three [required] ones and [min="0"] (the number the amount field holds
    is below 0); [otherInvalid] stands for the browser's verdict on what
    is left to it: the [step] of the amount, for which browsers have a
    tolerance of their own, an amount beyond the range of the field, and a
    date text the date field does not take as its value. *)
Definition suffersFromConstraint (otherInvalid : bool) (s : State) : bool :=
  negb (truthy (description s))
  || negb (truthy (numberFieldValue (amount s)))
  || PrimFloat.ltb (parseFloat (numberFieldValue (amount s))) 0
  || negb (truthy (date s))
  || otherInvalid.

(** A submission of the form: [handleSubmit] runs when the browser lets
    the submission through, with [parseFloat(amount)] for the amount. *)
Definition submitForm (otherInvalid : bool) (uuid today : string)
    (s : State) : State :=
  if suffersFromConstraint otherInvalid s then s
  else handleSubmit uuid (parseFloat (amount s)) today s.

(* ================================================================== *)
(** ** Derived values *)
(* ================================================================== *)

(** What [stats] returns, an entry of [monthlyChartData] and a cell of
    [calendarData] ([day] is null in the leading blank cells). *)
Module Stats.
Record t : Type := mk { income : float; expense : float; balance : float }.
End Stats.

Module MonthBucket.
Record t : Type := mk { name : string; income : float; expense : float }.
End MonthBucket.

Module DayCell.
Record t : Type := mk { day : option Z; income : float; expense : float }.
End DayCell.

Definition isIncome (t : Transaction.t) : bool :=
  TransactionType_eqb (Transaction.type t) Income.

Definition isExpense (t : Transaction.t) : bool :=
  TransactionType_eqb (Transaction.type t) Expense.

(** [l.reduce((acc, c) => acc + c.amount, init)]. *)
Definition sumFrom (init : float) (l : list Transaction.t) : float :=
  fold_left (fun acc c => PrimFloat.add acc (Transaction.amount c)) l init.

Definition sumAmounts (l : list Transaction.t) : float := sumFrom 0%float l.

(** The integers [lo], [lo + 1], ..., [lo + n - 1]: the values a counting
    [for] loop runs through. *)
Fixpoint countFrom (lo : Z) (n : nat) : list Z :=
  match n with
  | O => []
  | S k => lo :: countFrom (lo + 1) k
  end.

(** [l[k]] for a number [k] on an object or array with keys 0..n-1. *)
Definition lookupZ {A : Type} (l : list A) (k : Z) : option A :=
  if k <? 0 then None else nth_error l (Z.to_nat k).

(** [l[i] = f(l[i])] when [l[i]] exists. *)
Fixpoint updateAt {A : Type} (f : A -> A) (i : nat) (l : list A) : list A :=
  match l, i with
  | [], _ => []
  | x :: r, O => f x :: r
  | x :: r, S j => x :: updateAt f j r
  end.

Definition months : list string :=
  ["Jan"; "Feb"; "Mar"; "Apr"; "May"; "Jun";
   "Jul"; "Aug"; "Sep"; "Oct"; "Nov"; "Dec"]%string.

Section Derived.

Variable LocalTZA : Z.

(** [new Date(t.date).getFullYear()] and the like: NaN ([None]) on an
    Invalid Date. *)
Definition yearOf (t : Transaction.t) : option Z :=
  option_map (JSDate.getFullYear LocalTZA)
             (JSDate.newDate_string (Transaction.date t)).

Definition monthOf (t : Transaction.t) : option Z :=
  option_map (JSDate.getMonth LocalTZA)
             (JSDate.newDate_string (Transaction.date t)).

Definition dayOf (t : Transaction.t) : option Z :=
  option_map (JSDate.getDate LocalTZA)
             (JSDate.newDate_string (Transaction.date t)).

Definition filteredTransactions (transactions : list Transaction.t)
    (currentDate : Z) (viewMode : ViewMode) : list Transaction.t :=
  filter
    (fun t =>
       let isSameYear :=
         num_eq (yearOf t) (JSDate.getFullYear LocalTZA currentDate) in
       let isSameMonth :=
         num_eq (monthOf t) (JSDate.getMonth LocalTZA currentDate) in
       match viewMode with
       | Daily => isSameYear && isSameMonth
       | Monthly => isSameYear
       end)
    transactions.

Definition displayList (filteredTransactions : list Transaction.t)
    (selectedDay : option Z) (viewMode : ViewMode) : list Transaction.t :=
  match viewMode, selectedDay with
  | Daily, Some d => filter (fun t => num_eq (dayOf t) d) filteredTransactions
  | _, _ => filteredTransactions
  end.

(** The [forEach] of [stats] updates the pair of running totals. *)
Definition stats (filteredTransactions : list Transaction.t) : Stats.t :=
  let '(income, expense) :=
    fold_left
      (fun '(income, expense) t =>
         match Transaction.type t with
         | Income => (PrimFloat.add income (Transaction.amount t), expense)
         | Expense => (income, PrimFloat.add expense (Transaction.amount t))
         end)
      filteredTransactions (0%float, 0%float) in
  Stats.mk income expense (PrimFloat.sub income expense).

(** [dataMap] is an object keyed by the month indices 0..11; since integer
    keys are enumerated in ascending order, [Object.values(dataMap)] is
    the list of its buckets by position. *)
Definition addToBucket (t : Transaction.t) (b : MonthBucket.t)
  : MonthBucket.t :=
  match Transaction.type t with
  | Income =>
      MonthBucket.mk (MonthBucket.name b)
        (PrimFloat.add (MonthBucket.income b) (Transaction.amount t))
        (MonthBucket.expense b)
  | Expense =>
      MonthBucket.mk (MonthBucket.name b) (MonthBucket.income b)
        (PrimFloat.add (MonthBucket.expense b) (Transaction.amount t))
  end.

(** Whether the [forEach] of [monthlyChartData] adds transaction [t] to
    the bucket at position [k]. *)
Definition feeds (k : nat) (t : Transaction.t) : bool :=
  num_eq (monthOf t) (Z.of_nat k).

Definition addToDataMap (dataMap : list MonthBucket.t) (t : Transaction.t)
  : list MonthBucket.t :=
  match monthOf t with
  | Some monthIndex =>
      match lookupZ dataMap monthIndex with
      | Some _ => updateAt (addToBucket t) (Z.to_nat monthIndex) dataMap
      | None => dataMap
      end
  | None => dataMap
  end.

Definition monthlyChartData (filteredTransactions : list Transaction.t)
    (viewMode : ViewMode) : list MonthBucket.t :=
  match viewMode with
  | Daily => []
  | Monthly =>
      let dataMap :=
        map (fun m => MonthBucket.mk m 0%float 0%float) months in
      fold_left addToDataMap filteredTransactions dataMap
  end.

Definition dayCell (filteredTransactions : list Transaction.t) (i : Z)
  : DayCell.t :=
  let dayTransactions :=
    filter (fun t => num_eq (dayOf t) i) filteredTransactions in
  let dayIncome := sumAmounts (filter isIncome dayTransactions) in
  let dayExpense := sumAmounts (filter isExpense dayTransactions) in
  DayCell.mk (Some i) dayIncome dayExpense.

Definition calendarData (filteredTransactions : list Transaction.t)
    (currentDate : Z) (viewMode : ViewMode) : option (list DayCell.t) :=
  match viewMode with
  | Monthly => None
  | Daily =>
      let year := JSDate.getFullYear LocalTZA currentDate in
      let month := JSDate.getMonth LocalTZA currentDate in
      let daysInMonth :=
        JSDate.getDate LocalTZA
          (JSDate.newDate_ymd LocalTZA year (month + 1) 0) in
      let firstDayOfMonth :=
        JSDate.getDay LocalTZA (JSDate.newDate_ymd LocalTZA year month 1) in
      Some (map (fun _ => DayCell.mk None 0%float 0%float)
                (countFrom 0 (Z.to_nat firstDayOfMonth))
            ++ map (dayCell filteredTransactions)
                   (countFrom 1 (Z.to_nat daysInMonth)))
  end.

End Derived.

(* ================================================================== *)
(** ** The application as a transition system *)
(* ================================================================== *)

(** The user's actions, each with the values the platform supplies while
    its handler runs. *)
Inductive Action : Type :=
  | ToggleTheme
  | ShowCreateWallet (open : bool)
  | TypeWalletName (text : string)
  | CreateWallet (uuid : string)
  | SelectWallet (id : string)
  | DeleteWallet (walletId : string) (confirmed : bool)
  | TypeDescription (text : string)
  | TypeAmount (text : string)
  | PickType (ty : TransactionType)
  | PickDate (text : string)
  | PickCategory (text : string)
  | Submit (uuid : string) (amountValue : float) (today : string)
  | Edit (t : Transaction.t) (amountText : string)
  | DeleteRecord (id : string) (confirmed : bool)
  | CancelEdit
  | Navigate (direction : Direction)
  | ClickDay (day : Z)
  | ToggleView (m : ViewMode)
  | ClearDayFilter.

Definition perform (LocalTZA : Z) (a : Action) (s : State) : Outcome :=
  match a with
  | ToggleTheme => Done (toggleTheme s)
  | ShowCreateWallet b => Done (setIsCreatingWallet b s)
  | TypeWalletName v => Done (setNewWalletName v s)
  | CreateWallet uuid => Done (handleCreateWallet uuid s)
  | SelectWallet id => Done (setActiveWalletId (Some id) s)
  | DeleteWallet walletId confirmed => handleDeleteWallet walletId confirmed s
  | TypeDescription v => Done (setDescription v s)
  | TypeAmount v => Done (setAmount v s)
  | PickType v => Done (setType v s)
  | PickDate v => Done (setDate v s)
  | PickCategory v => Done (setCategory v s)
  | Submit uuid amountValue today =>
      Done (handleSubmit uuid amountValue today s)
  | Edit t amountText => Done (handleEdit t amountText s)
  | DeleteRecord id confirmed => Done (handleDelete id confirmed s)
  | CancelEdit => Done (cancelEdit s)
  | Navigate direction => Done (navigateTime LocalTZA direction s)
  | ClickDay day => Done (handleDayClick day s)
  | ToggleView m => Done (toggleView m s)
  | ClearDayFilter => Done (setSelectedDay None s)
  end.

Definition walletIds (s : State) : list string :=
  map WalletData.id (wallets s).

(** What the page and the platform allow: the wallet [<select>] offers the
    identifiers of the wallets, and [crypto.randomUUID()] returns an
    identifier that is not in use. *)
Definition allowed (a : Action) (s : State) : Prop :=
  match a with
  | SelectWallet id => In id (walletIds s)
  | CreateWallet uuid => ~ In uuid (walletIds s)
  | _ => True
  end.

(** The state an outcome leaves, when the handler returned. *)
Definition stateOf (o : Outcome) : option State :=
  match o with
  | Done s | Alerted _ s => Some s
  | Thrown => None
  end.

(** The states of the application: the one the load effect leaves, for
    stored data whose wallets (if it holds wallets) carry distinct
    identifiers, as every collection the application saved does, and the
    states the handlers lead to from there. *)
Inductive reachable (LocalTZA : Z) : State -> Prop :=
  | reach_mount uuid savedData parsed w0 rest savedTheme now today :
      loadWallets uuid savedData parsed = map wallet_to_json (w0 :: rest) ->
      NoDup (map WalletData.id (w0 :: rest)) ->
      reachable LocalTZA (mountedState w0 rest savedTheme now today)
  | reach_step s a s' :
      reachable LocalTZA s ->
      allowed a s ->
      stateOf (perform LocalTZA a s) = Some s' ->
      reachable LocalTZA s'.

(* ================================================================== *)
(** ** The calendar date a transaction carries *)
(* ================================================================== *)

(** The period filter and the aggregates are specified on the calendar
    date written in a transaction's [date] field.  These definitions read
    that date off the string itself, without going through [Date]; the
    month is 0-based, like [getMonth]. *)
Module Calendar.

Definition dateOf (t : Transaction.t) : option (Z * Z * Z) :=
  JSDate.parseISODate (Transaction.date t).

Definition inYear (year : Z) (t : Transaction.t) : bool :=
  match dateOf t with
  | Some (y, _, _) => y =? year
  | None => false
  end.

Definition inMonth (month : Z) (t : Transaction.t) : bool :=
  match dateOf t with
  | Some (_, m, _) => m =? month
  | None => false
  end.

Definition onDay (day : Z) (t : Transaction.t) : bool :=
  match dateOf t with
  | Some (_, _, d) => d =? day
  | None => false
  end.

(** The [date] field is of the date-only form [YYYY-MM-DD] and names a day
    that exists, as the value of the form's date field is. *)
Definition wellFormed (t : Transaction.t) : Prop := dateOf t <> None.

End Calendar.

(** Sample data for the evaluations below: five hours west of Greenwich
    (UTC-05:00), eight hours east (UTC+08:00), and a transaction with a
    given amount, type and date. *)
Definition utcMinus5 : Z := -18000000.
Definition utcPlus8 : Z := 28800000.

Definition sampleTx (id : string) (amount : float) (ty : TransactionType)
    (date : string) : Transaction.t :=
  Transaction.mk id "Lunch" amount ty date "Food".

(** A state with given wallets, active wallet, view and anchor date, the
    form being blank. *)
Definition sampleState (ws : list WalletData.t) (active : option string)
    (mode : ViewMode) (anchor : Z) (selected : option Z) : State :=
  {| wallets := ws;
     activeWalletId := active;
     isCreatingWallet := false;
     newWalletName := "";
     darkMode := false;
     viewMode := mode;
     currentDate := anchor;
     selectedDay := selected;
     description := "";
     amount := "";
     type := Expense;
     date := "2024-03-10";
     category := "General";
     editingId := None |}.

(** The wallet invariant: the wallets carry distinct identifiers, and the
    active identifier is that of one of them (so there is at least one). *)
Definition walletInvariant (s : State) : Prop :=
  NoDup (walletIds s) /\
  exists w, In w (wallets s) /\ activeWalletId s = Some (WalletData.id w).

(** Two sample wallets and the filled-in form of a new expense. *)
Definition mainWallet : WalletData.t := WalletData.mk "w1" "Main Wallet" [].

Definition tripWallet : WalletData.t :=
  WalletData.mk "w2" "Trip"
    [sampleTx "t1" 40 Expense "2024-03-10";
     sampleTx "t2" 100 Income "2024-03-11"].

Definition fillForm (description amount date : string) (s : State) : State :=
  setDate date (setAmount amount (setDescription description s)).

(** The stored text of a collection holding [mainWallet], and of a legacy
    array holding one transaction; [q] puts a word between double
    quotes. *)
Definition q (s : string) : string :=
  String (ascii_of_nat 34) (s ++ String (ascii_of_nat 34) EmptyString).

Definition storedWalletText : string :=
  "[{" ++ q "id" ++ ":" ++ q "w1" ++ "," ++ q "name" ++ ":"
  ++ q "Main Wallet" ++ "," ++ q "transactions" ++ ":[]}]".

Definition storedLegacyText : string :=
  "[{" ++ q "id" ++ ":" ++ q "t1" ++ "," ++ q "description" ++ ":"
  ++ q "Lunch" ++ "," ++ q "amount" ++ ":40," ++ q "type" ++ ":"
  ++ q "expense" ++ "," ++ q "date" ++ ":" ++ q "2024-03-10" ++ ","
  ++ q "category" ++ ":" ++ q "Food" ++ "}]".

(** Sample states: the first run of the application (nothing stored), the
    same after a second wallet named "Trip" was created, a state with two
    wallets of which "w2" is active, and that state while transaction
    "t1" is being edited. *)
Definition firstRun : State :=
  mountedState mainWallet [] None 0 "2024-03-10".

(** A name made of one ideographic space, U+3000: in UTF-8 the bytes 227,
    128, 128. *)
Definition ideographicSpace : string :=
  String (ascii_of_nat 227)
    (String (ascii_of_nat 128) (String (ascii_of_nat 128) EmptyString)).

Definition twoWallets : State :=
  handleCreateWallet "w2" (setNewWalletName "Trip" firstRun).

Definition tripActive : State :=
  sampleState [mainWallet; tripWallet] (Some "w2"%string) Daily 0 None.

Definition editingT1 : State :=
  handleEdit (sampleTx "t1" 40 Expense "2024-03-10") "40" tripActive.

(** The guard of [handleSubmit]: what makes it return at once, and what
    lets it go on. *)
Definition rejected (s : State) : Prop :=
  description s = ""%string \/ amount s = ""%string \/ date s = ""%string
  \/ truthy_opt (activeWalletId s) = false.

Definition accepted (s : State) : Prop :=
  description s <> ""%string /\ amount s <> ""%string
  /\ date s <> ""%string /\ truthy_opt (activeWalletId s) = true.

(** An anchor date in year 0: 15 February of year 0, local time. *)
Definition anchorYearZero : Z :=
  JSDate.setFullYear utcPlus8 (JSDate.newDate_ymd utcPlus8 2024 1 15) 0.

(* ================================================================== *)
(** ** The history list and the highlighted day *)
(* ================================================================== *)

(** [new Date(t.date).getTime()]: NaN ([None]) on an Invalid Date. *)
Definition timeOf (t : Transaction.t) : option Z :=
  JSDate.newDate_string (Transaction.date t).

(** The comparator of the history list,
    [(a, b) => new Date(b.date).getTime() - new Date(a.date).getTime()].
    A NaN result counts as +0, as [Array.prototype.sort] takes it. *)
Definition newestFirst (a b : Transaction.t) : Z :=
  match timeOf b, timeOf a with
  | Some tb, Some ta => tb - ta
  | _, _ => 0
  end.

(** [[...displayList].sort(newestFirst)].  [Array.prototype.sort] is
    stable, so on dates that all parse, where the comparator is a
    consistent ordering, its result is determined; it is computed here by
    insertion, each element going before the first one the comparator
    does not put ahead of it. *)
Fixpoint insertByDate (x : Transaction.t) (l : list Transaction.t)
  : list Transaction.t :=
  match l with
  | [] => [x]
  | y :: r => if newestFirst x y <=? 0 then x :: y :: r
              else y :: insertByDate x r
  end.

Definition sortedForDisplay (displayList : list Transaction.t)
  : list Transaction.t :=
  fold_right insertByDate [] displayList.

(** [isToday], computed for each day cell of the calendar; [now] is
    [new Date()]. *)
Definition isToday (LocalTZA now currentDate day : Z) : bool :=
  (JSDate.getDate LocalTZA now =? day)
  && (JSDate.getMonth LocalTZA now =? JSDate.getMonth LocalTZA currentDate)
  && (JSDate.getFullYear LocalTZA now
      =? JSDate.getFullYear LocalTZA currentDate).

(** Whether a cell of the grid is drawn as today: a cell whose [day] is
    null (or 0) is drawn as an empty box. *)
Definition cellIsToday (LocalTZA now currentDate : Z) (cell : DayCell.t)
  : bool :=
  match DayCell.day cell with
  | Some d => if d =? 0 then false else isToday LocalTZA now currentDate d
  | None => false
  end.

(** "Is not older than", for two transactions whose dates parse. *)
Definition notOlder (a b : Transaction.t) : Prop :=
  exists ta tb, timeOf a = Some ta /\ timeOf b = Some tb /\ tb <= ta.

(** 15 March 2024, local midnight, eight hours east of Greenwich. *)
Definition march15 : Z := JSDate.newDate_ymd utcPlus8 2024 2 15.

(** The identifiers of all transactions of all wallets. *)
Definition idsOf (w : WalletData.t) : list string :=
  map Transaction.id (WalletData.transactions w).

Definition transactionIds (s : State) : list string :=
  flat_map idsOf (wallets s).

(* ================================================================== *)
(** ** What is stored *)
(* ================================================================== *)

(** The value [JSON.parse] returns for the text [JSON.stringify] writes
    of a number: NaN and the infinities are written as [null], negative
    zero as [0], every other number with digits that read back as the
    same number. *)
Definition storedNumber (x : float) : json :=
  match PrimFloat.classify x with
  | FloatClass.NaN | FloatClass.PInf | FloatClass.NInf => JNull
  | FloatClass.NZero => JNum 0%float
  | _ => JNum x
  end.

(** The numbers that come back as they were. *)
Definition storable (x : float) : bool :=
  match PrimFloat.classify x with
  | FloatClass.NaN | FloatClass.PInf | FloatClass.NInf
  | FloatClass.NZero => false
  | _ => true
  end.

Definition stored_transaction (t : Transaction.t) : json :=
  JObj [ ("id", JStr (Transaction.id t));
         ("description", JStr (Transaction.description t));
         ("amount", storedNumber (Transaction.amount t));
         ("type", type_to_json (Transaction.type t));
         ("date", JStr (Transaction.date t));
         ("category", JStr (Transaction.category t)) ]%string.

Definition stored_wallet (w : WalletData.t) : json :=
  wallet_json (WalletData.id w) (WalletData.name w)
    (JArr (map stored_transaction (WalletData.transactions w))).

(** The save effect: what [JSON.parse] returns for the text
    [JSON.stringify(wallets)] it puts under "expense-tracker-data". *)
Definition savedWallets (s : State) : json :=
  JArr (map stored_wallet (wallets s)).

(** The text [toggleTheme] puts under "theme" when run in state [s]. *)
Definition themeWritten (s : State) : string :=
  if negb (darkMode s) then "dark" else "light".

(* ================================================================== *)
(** ** The day cells in view *)
(* ================================================================== *)

(** The days of the calendar cells that can be clicked (the calendar is
    rendered in the daily view only, and a click on a blank cell calls
    no handler). *)
Definition daysShown (LocalTZA : Z) (s : State) : list Z :=
  match
    calendarData LocalTZA
      (filteredTransactions LocalTZA (transactions s) (currentDate s)
         (viewMode s))
      (currentDate s) (viewMode s)
  with
  | Some cells =>
      flat_map (fun cell => match DayCell.day cell with
                            | Some d => [d]
                            | None => []
                            end) cells
  | None => []
  end.

(** A selected day is the day of a cell in view. *)
Definition selectionInView (LocalTZA : Z) (s : State) : Prop :=
  forall d, selectedDay s = Some d -> In d (daysShown LocalTZA s).

(* ================================================================== *)
(** ** The single-wallet version (src/unnamed/part_000) *)
(* ================================================================== *)

(** The earlier version of the component keeps one list of transactions
    in its state; its derived values ([filteredTransactions],
    [displayList], [stats], [monthlyChartData], [calendarData]) are, line
    for line, those of the wallet version, applied to that list. *)
Module Legacy.

Record State : Type := mkState {
  transactions : list Transaction.t;
  darkMode : bool;
  viewMode : ViewMode;
  currentDate : Z;
  selectedDay : option Z;
  description : string;
  amount : string;
  type : TransactionType;
  date : string;
  category : string;
  editingId : option string
}.

Definition setTransactions (v : list Transaction.t) (s : State) : State :=
  mkState v (darkMode s) (viewMode s) (currentDate s) (selectedDay s)
    (description s) (amount s) (type s) (date s) (category s) (editingId s).

Definition setDarkMode (v : bool) (s : State) : State :=
  mkState (transactions s) v (viewMode s) (currentDate s) (selectedDay s)
    (description s) (amount s) (type s) (date s) (category s) (editingId s).

Definition setCurrentDate (v : Z) (s : State) : State :=
  mkState (transactions s) (darkMode s) (viewMode s) v (selectedDay s)
    (description s) (amount s) (type s) (date s) (category s) (editingId s).

Definition setSelectedDay (v : option Z) (s : State) : State :=
  mkState (transactions s) (darkMode s) (viewMode s) (currentDate s) v
    (description s) (amount s) (type s) (date s) (category s) (editingId s).

Definition setDescription (v : string) (s : State) : State :=
  mkState (transactions s) (darkMode s) (viewMode s) (currentDate s)
    (selectedDay s) v (amount s) (type s) (date s) (category s)
    (editingId s).

Definition setAmount (v : string) (s : State) : State :=
  mkState (transactions s) (darkMode s) (viewMode s) (currentDate s)
    (selectedDay s) (description s) v (type s) (date s) (category s)
    (editingId s).

Definition setType (v : TransactionType) (s : State) : State :=
  mkState (transactions s) (darkMode s) (viewMode s) (currentDate s)
    (selectedDay s) (description s) (amount s) v (date s) (category s)
    (editingId s).

Definition setDate (v : string) (s : State) : State :=
  mkState (transactions s) (darkMode s) (viewMode s) (currentDate s)
    (selectedDay s) (description s) (amount s) (type s) v (category s)
    (editingId s).

Definition setCategory (v : string) (s : State) : State :=
  mkState (transactions s) (darkMode s) (viewMode s) (currentDate s)
    (selectedDay s) (description s) (amount s) (type s) (date s) v
    (editingId s).

Definition setEditingId (v : option string) (s : State) : State :=
  mkState (transactions s) (darkMode s) (viewMode s) (currentDate s)
    (selectedDay s) (description s) (amount s) (type s) (date s)
    (category s) v.

Definition toggleTheme (s : State) : State :=
  setDarkMode (negb (darkMode s)) s.

(** [uuid] is the value of [crypto.randomUUID()], [amountValue] that of
    [parseFloat(amount)]. *)
Definition payload (uuid : string) (amountValue : float) (s : State)
  : Transaction.t :=
  Transaction.mk
    (match editingId s with
     | Some e => if truthy e then e else uuid
     | None => uuid
     end)
    (description s) amountValue (type s) (date s) (category s).

Definition handleSubmit (uuid : string) (amountValue : float)
    (today : string) (s : State) : State :=
  if negb (truthy (description s)) || negb (truthy (amount s))
     || negb (truthy (date s))
  then s
  else
    let p := payload uuid amountValue s in
    let s1 :=
      if truthy_opt (editingId s) then
        setEditingId None
          (setTransactions
             (map (fun t => if id_eq (editingId s) (Transaction.id t)
                            then p else t) (transactions s)) s)
      else setTransactions (transactions s ++ [p]) s in
    setType Expense
      (setCategory "General"
         (setDate today (setAmount "" (setDescription "" s1)))).

Definition handleEdit (t : Transaction.t) (amountText : string)
    (s : State) : State :=
  setCategory (Transaction.category t)
    (setDate (Transaction.date t)
       (setType (Transaction.type t)
          (setAmount amountText
             (setDescription (Transaction.description t)
                (setEditingId (Some (Transaction.id t)) s))))).

Definition handleDelete (id : string) (confirmed : bool) (s : State)
  : State :=
  if confirmed then
    setTransactions
      (filter (fun t => negb (String.eqb (Transaction.id t) id))
              (transactions s)) s
  else s.

Definition cancelEdit (s : State) : State :=
  setCategory "General"
    (setAmount "" (setDescription "" (setEditingId None s))).

Definition navigateTime (LocalTZA : Z) (direction : Direction) (s : State)
  : State :=
  let step := match direction with Next => 1 | Prev => -1 end in
  match viewMode s with
  | Daily =>
      let newDate :=
        JSDate.setMonth LocalTZA (currentDate s)
          (JSDate.getMonth LocalTZA (currentDate s) + step) in
      setCurrentDate newDate (setSelectedDay None s)
  | Monthly =>
      let newDate :=
        JSDate.setFullYear LocalTZA (currentDate s)
          (JSDate.getFullYear LocalTZA (currentDate s) + step) in
      setCurrentDate newDate s
  end.

Definition handleDayClick (day : Z) (s : State) : State :=
  if num_eq (selectedDay s) day then setSelectedDay None s
  else setSelectedDay (Some day) s.

(** The save effect: what [JSON.parse] returns for the text
    [JSON.stringify(transactions)] it puts under
    "expense-tracker-data". *)
Definition savedTransactions (s : State) : json :=
  JArr (map stored_transaction (transactions s)).

(** The load effect, [if (savedData) setTransactions(JSON.parse(savedData))],
    given the outcome [parsed] of [JSON.parse] ([None] when it throws):
    the list is left as it is (empty), set to the parsed value, or the
    effect throws, there being no [try] around the call. *)
Inductive Loaded : Type :=
  | LoadKept
  | LoadSet (v : json)
  | LoadThrown.

Definition load (savedData : option string) (parsed : option json)
  : Loaded :=
  match savedData with
  | Some text =>
      if truthy text then
        match parsed with
        | Some v => LoadSet v
        | None => LoadThrown
        end
      else LoadKept
  | None => LoadKept
  end.

End Legacy.

(** The wallet version seen as the single-wallet version: the
    transactions are those of the wallet in view. *)
Definition legacyView (s : State) : Legacy.State :=
  Legacy.mkState (transactions s) (darkMode s) (viewMode s) (currentDate s)
    (selectedDay s) (description s) (amount s) (type s) (date s)
    (category s) (editingId s).

(* ================================================================== *)
(** * Facts *)
(* ================================================================== *)

(* ================================================================== *)
(** ** The calendar *)
(* ================================================================== *)

Module JSDateFacts.
Import JSDate.

(** Leap years, as a proposition on remainders. *)
Lemma isLeapYear_true y :
  isLeapYear y = true <->
  (y mod 4 = 0 /\ y mod 100 <> 0) \/ y mod 400 = 0.
Proof.
  unfold isLeapYear.
  rewrite orb_true_iff, andb_true_iff, negb_true_iff, !Z.eqb_eq, Z.eqb_neq.
  reflexivity.
Qed.

(** The length of the months, month by month. *)
Lemma daysInMonth_cases y m :
  0 <= m < 12 ->
  (m = 1 /\ isLeapYear y = true /\ daysInMonth y m = 29) \/
  (m = 1 /\ isLeapYear y = false /\ daysInMonth y m = 28) \/
  ((m = 3 \/ m = 5 \/ m = 8 \/ m = 10) /\ daysInMonth y m = 30) \/
  ((m = 0 \/ m = 2 \/ m = 4 \/ m = 6 \/ m = 7 \/ m = 9 \/ m = 11)
   /\ daysInMonth y m = 31).
Proof.
  intros Hm. unfold daysInMonth.
  assert (C : m = 0 \/ m = 1 \/ m = 2 \/ m = 3 \/ m = 4 \/ m = 5 \/ m = 6
              \/ m = 7 \/ m = 8 \/ m = 9 \/ m = 10 \/ m = 11) by lia.
  destruct C as [->|[->|[->|[->|[->|[->|[->|[->|[->|[->|[->| ->]]]]]]]]]]];
    cbn; try (destruct (isLeapYear y)); intuition lia.
Qed.

(** Every day number has a civil date that exists, and the day number of
    that date is the one started from.  The proof follows the algorithm:
    the day of the 400-year era, the year of the era, the day of the year
    counted from 1 March, the month and the day. *)
Lemma civilFromDays_spec z y m d :
  civilFromDays z = (y, m, d) ->
  validCivil y m d = true /\ daysFromCivil y m d = z.
Proof.
  unfold civilFromDays. cbv zeta.
  remember ((z + 719468) mod 146097) as doe eqn:Edoe.
  remember ((z + 719468) / 146097) as era eqn:Eera.
  remember ((doe - doe / 1460 + doe / 36524 - doe / 146096) / 365)
    as yoe eqn:Eyoe.
  remember (doe - (365 * yoe + yoe / 4 - yoe / 100)) as doy eqn:Edoy.
  remember ((5 * doy + 2) / 153) as mp eqn:Emp.
  intros E.
  assert (Ey : y = yoe + era * 400
                   + (if (if mp <? 10 then mp + 2 else mp - 10) <? 2
                      then 1 else 0)) by congruence.
  assert (Em : m = if mp <? 10 then mp + 2 else mp - 10) by congruence.
  assert (Ed : d = doy - (153 * mp + 2) / 5 + 1) by congruence.
  clear E.
  assert (Hdoe : 0 <= doe < 146097)
    by (subst doe; apply Z.mod_pos_bound; lia).
  assert (Hz : z + 719468 = 146097 * era + doe)
    by (subst; apply Z.div_mod; lia).
  clear Edoe Eera.
  assert (Hyoe : 0 <= yoe <= 399 /\ 0 <= doy <= 365 /\
                 (doy = 365 ->
                  ((yoe + 1) mod 4 = 0 /\ (yoe + 1) mod 100 <> 0)
                  \/ (yoe + 1) mod 400 = 0)).
  { subst yoe doy. Z.div_mod_to_equations. lia. }
  destruct Hyoe as (Hyoe & Hdoy & Hleap).
  clear Eyoe.
  assert (Hmp : 0 <= mp <= 11 /\ 1 <= d <= 31 /\
                (mp = 1 \/ mp = 3 \/ mp = 6 \/ mp = 8 -> d <= 30) /\
                (mp = 11 -> d = doy - 336)).
  { subst mp d. Z.div_mod_to_equations. lia. }
  destruct Hmp as (Hmp & Hd & H30 & Hfeb).
  assert (Hm : 0 <= m < 12 /\ (m < 2 -> mp = m + 10) /\ (2 <= m -> mp = m - 2)).
  { subst m. destruct (Z.ltb_spec mp 10); lia. }
  destruct Hm as (Hm & Hjf & Hmd).
  assert (Hy : y = yoe + era * 400 + (if m <? 2 then 1 else 0))
    by (now rewrite Em).
  clear Ey Em.
  split.
  - unfold validCivil.
    repeat (apply andb_true_iff; split); try lia.
    apply Z.leb_le.
    destruct (daysInMonth_cases y m Hm)
      as [(-> & Hl & ->)|[(-> & Hl & ->)|[(Hc & ->)|(Hc & ->)]]]; try lia.
    destruct (Z.eq_dec doy 365) as [E365|]; [|lia].
    exfalso. specialize (Hleap E365).
    assert (isLeapYear y = true); [|congruence].
    apply isLeapYear_true. cbn in Hy. subst y.
    clear - Hleap. Z.div_mod_to_equations. lia.
  - unfold daysFromCivil. cbv zeta.
    destruct (Z.ltb_spec m 2).
    + rewrite (Hjf ltac:(lia)) in *. subst y d.
      clear - Hz Hyoe Edoy. Z.div_mod_to_equations. lia.
    + rewrite (Hmd ltac:(lia)) in *. subst y d.
      clear - Hz Hyoe Edoy. Z.div_mod_to_equations. lia.
Qed.

Lemma validCivil_bounds y m d :
  validCivil y m d = true ->
  0 <= m < 12 /\ 1 <= d <= daysInMonth y m /\ daysInMonth y m <= 31.
Proof.
  unfold validCivil. intros H.
  repeat (apply andb_true_iff in H as [H ?]).
  assert (Hm : 0 <= m < 12) by lia.
  destruct (daysInMonth_cases y m Hm)
    as [(_ & _ & E)|[(_ & _ & E)|[(_ & E)|(_ & E)]]]; lia.
Qed.

(** The civil date of the day number of a date that exists is that
    date. *)
Lemma civilFromDays_daysFromCivil y m d :
  validCivil y m d = true ->
  civilFromDays (daysFromCivil y m d) = (y, m, d).
Proof.
  intros Hv. apply validCivil_bounds in Hv as (Hm & Hd & _).
  unfold daysFromCivil. cbv zeta.
  remember (if m <? 2 then y - 1 else y) as y' eqn:Ey'.
  remember (if m <? 2 then m + 10 else m - 2) as mp eqn:Emp.
  remember (y' / 400) as era eqn:Eera.
  remember (y' mod 400) as yoe eqn:Eyoe.
  remember ((153 * mp + 2) / 5 + d - 1) as doy eqn:Edoy.
  assert (Hyoe : 0 <= yoe < 400) by (subst yoe; apply Z.mod_pos_bound; lia).
  assert (Hy' : y' = 400 * era + yoe) by (subst; apply Z.div_mod; lia).
  clear Eera Eyoe.
  assert (Hmp : 0 <= mp <= 11 /\ m = (if mp <? 10 then mp + 2 else mp - 10)
                /\ y = y' + (if m <? 2 then 1 else 0)).
  { subst mp y'. destruct (Z.ltb_spec m 2).
    - destruct (Z.ltb_spec (m + 10) 10); lia.
    - destruct (Z.ltb_spec (m - 2) 10); lia. }
  destruct Hmp as (Hmp & Em & Ey).
  (* the day of the year, counted from 1 March, stays within the year *)
  assert (Hdoy : 0 <= doy <= 365 /\ (5 * doy + 2) / 153 = mp /\
                 (doy = 365 -> isLeapYear y = true)).
  { destruct (daysInMonth_cases y m Hm)
      as [(-> & Hl & E)|[(-> & Hl & E)|[(Hc & E)|(Hc & E)]]];
      rewrite E in Hd; clear E.
    - cbn in Emp. subst mp doy.
      repeat split; intros; try assumption; try lia;
        Z.div_mod_to_equations; lia.
    - cbn in Emp. subst mp doy.
      repeat split; intros; try lia; Z.div_mod_to_equations; lia.
    - assert (Hmp' : mp = 1 \/ mp = 3 \/ mp = 6 \/ mp = 8).
      { subst mp. destruct (Z.ltb_spec m 2); lia. }
      clear Emp. subst doy.
      repeat split; intros; Z.div_mod_to_equations; lia.
    - assert (Hmp' : mp = 10 \/ mp = 0 \/ mp = 2 \/ mp = 4 \/ mp = 5
                     \/ mp = 7 \/ mp = 9).
      { subst mp. destruct (Z.ltb_spec m 2); lia. }
      clear Emp. subst doy.
      repeat split; intros; Z.div_mod_to_equations; lia. }
  destruct Hdoy as (Hdoy & Emp' & Hleap).
  assert (Hleap' : doy = 365 ->
            ((yoe + 1) mod 4 = 0 /\ (yoe + 1) mod 100 <> 0)
            \/ (yoe + 1) mod 400 = 0).
  { intros E365. specialize (Hleap E365). apply isLeapYear_true in Hleap.
    assert (mp = 11).
    { rewrite <- Emp', E365. reflexivity. }
    assert (m = 1) by (rewrite Em; destruct (Z.ltb_spec mp 10); lia).
    assert (Ey1 : y = y' + 1).
    { rewrite Ey. destruct (Z.ltb_spec m 2); lia. }
    clear - Hleap Hyoe Hy' Ey1. Z.div_mod_to_equations. lia. }
  clear Hleap.
  remember (yoe * 365 + yoe / 4 - yoe / 100 + doy) as doe eqn:Edoe.
  assert (Hdoe : 0 <= doe < 146097 /\
                 (doe - doe / 1460 + doe / 36524 - doe / 146096) / 365 = yoe).
  { subst doe. clear - Hyoe Hdoy Hleap'. Z.div_mod_to_equations. lia. }
  destruct Hdoe as (Hdoe & Eyoe).
  unfold civilFromDays. cbv zeta.
  replace (era * 146097 + doe - 719468 + 719468) with (doe + era * 146097)
    by lia.
  rewrite Z.div_add, Z.mod_add by lia.
  rewrite (Z.div_small doe 146097), (Z.mod_small doe 146097) by lia.
  rewrite Eyoe.
  replace (doe - (365 * yoe + yoe / 4 - yoe / 100)) with doy by lia.
  rewrite Emp'. rewrite <- Em.
  f_equal; [f_equal|]; lia.
Qed.

(** The first day of the following month comes right after the last day
    of a month. *)
Lemma daysFromCivil_next_month y m :
  0 <= m < 12 ->
  daysFromCivil (y + (m + 1) / 12) ((m + 1) mod 12) 1
  = daysFromCivil y m (daysInMonth y m) + 1.
Proof.
  intros Hm.
  assert (C : m = 0 \/ m = 1 \/ m = 2 \/ m = 3 \/ m = 4 \/ m = 5 \/ m = 6
              \/ m = 7 \/ m = 8 \/ m = 9 \/ m = 10 \/ m = 11) by lia.
  destruct C as [->|[->|[->|[->|[->|[->|[->|[->|[->|[->|[->| ->]]]]]]]]]]].
  2: { (* February: the year counted from March changes *)
    unfold daysInMonth. cbn [Z.eqb Pos.eqb].
    destruct (isLeapYear y) eqn:El.
    - apply isLeapYear_true in El. unfold daysFromCivil. cbn.
      Z.div_mod_to_equations. lia.
    - assert (Hn : ~ ((y mod 4 = 0 /\ y mod 100 <> 0) \/ y mod 400 = 0)).
      { intros H. apply isLeapYear_true in H. congruence. }
      unfold daysFromCivil. cbn.
      Z.div_mod_to_equations. lia. }
  all: unfold daysFromCivil, daysInMonth; cbn; Z.div_mod_to_equations; lia.
Qed.

Lemma daysFromCivil_day y m d :
  daysFromCivil y m d = daysFromCivil y m 1 + d - 1.
Proof. unfold daysFromCivil. cbv zeta. destruct (m <? 2); lia. Qed.

Lemma validCivil_intro y m d :
  0 <= m < 12 -> 1 <= d <= daysInMonth y m -> validCivil y m d = true.
Proof.
  intros Hm Hd. unfold validCivil.
  repeat (apply andb_true_iff; split); lia.
Qed.

Lemma daysInMonth_min y m : 28 <= daysInMonth y m <= 31.
Proof.
  unfold daysInMonth.
  destruct (m =? 1); [destruct (isLeapYear y)|destruct (_ || _)]; lia.
Qed.

(** [DayFromYear], as ECMAScript defines it, is the day number of
    January 1st. *)
Lemma DayFromYear_civil y : DayFromYear y = daysFromCivil y 0 1.
Proof.
  unfold DayFromYear, daysFromCivil. cbn [Z.ltb Z.compare].
  change (153 * (0 + 10) + 2) with 1532. change (1532 / 5) with 306.
  pose proof (Z.div_mod (y - 1) 400 ltac:(lia)) as H400.
  pose proof (Z.mod_pos_bound (y - 1) 400 ltac:(lia)) as B400.
  remember ((y - 1) / 400) as q. remember ((y - 1) mod 400) as r.
  assert (Ey : y = 400 * q + r + 1) by lia.
  replace (y - 1969) with (r - 1968 + (100 * q) * 4) by lia.
  replace (y - 1901) with (r - 1900 + (4 * q) * 100) by lia.
  replace (y - 1601) with (r - 1600 + q * 400) by lia.
  rewrite !Z.div_add by lia.
  replace (r - 1968) with (r + (-492) * 4) by lia.
  replace (r - 1900) with (r + (-19) * 100) by lia.
  replace (r - 1600) with (r + (-4) * 400) by lia.
  rewrite !Z.div_add by lia.
  rewrite (Z.div_small r 400) by lia.
  lia.
Qed.

Lemma daysFromCivil_jan1 y :
  daysFromCivil y 0 1
  = (y - 1) / 400 * 146097
    + ((y - 1) mod 400 * 365 + (y - 1) mod 400 / 4 - (y - 1) mod 400 / 100
       + 306) - 719468.
Proof. reflexivity. Qed.

(** [YearFromTime] is the year ECMAScript defines: the one whose first day
    is the latest not after the day of [t]. *)
Lemma YearFromTime_spec t :
  DayFromYear (YearFromTime t) <= Day t < DayFromYear (YearFromTime t + 1).
Proof.
  unfold YearFromTime.
  destruct (civilFromDays (Day t)) as [[y m] d] eqn:E. cbn [fst].
  apply civilFromDays_spec in E as [Hv E].
  apply validCivil_bounds in Hv as (Hm & Hd & H31).
  rewrite !DayFromYear_civil, <- E, !daysFromCivil_jan1.
  replace (y + 1 - 1) with y by lia.
  pose proof (daysInMonth_cases y m Hm) as C.
  assert (L : isLeapYear y = true ->
              (y mod 4 = 0 /\ y mod 100 <> 0) \/ y mod 400 = 0)
    by apply isLeapYear_true.
  unfold daysFromCivil. cbv zeta.
  destruct (Z.ltb_spec m 2); Z.div_mod_to_equations; lia.
Qed.

(** The day number of a civil date is ECMAScript's: the first day of the
    year, plus the start of the month within the year, plus the day of the
    month.  With [civilFromDays_spec] this makes [YearFromTime],
    [MonthFromTime] and [DateFromTime] the functions ECMAScript
    specifies. *)
Lemma daysFromCivil_ecma y m d :
  0 <= m < 12 ->
  daysFromCivil y m d = DayFromYear y + monthStart y m + d - 1.
Proof.
  intros Hm. rewrite DayFromYear_civil, daysFromCivil_jan1.
  assert (L : if isLeapYear y
              then (y mod 4 = 0 /\ y mod 100 <> 0) \/ y mod 400 = 0
              else ~ ((y mod 4 = 0 /\ y mod 100 <> 0) \/ y mod 400 = 0)).
  { destruct (isLeapYear y) eqn:E; [now apply isLeapYear_true|].
    intros H. apply isLeapYear_true in H. congruence. }
  assert (M : m = 0 \/ m = 1 \/ m = 2 \/ m = 3 \/ m = 4 \/ m = 5 \/ m = 6
              \/ m = 7 \/ m = 8 \/ m = 9 \/ m = 10 \/ m = 11) by lia.
  unfold daysFromCivil, monthStart.
  destruct M as [->|[->|[->|[->|[->|[->|[->|[->|[->|[->|[->| ->]]]]]]]]]]];
    cbv [Z.ltb Z.eqb Z.compare Pos.compare Pos.compare_cont Pos.eqb];
    cbv zeta; destruct (isLeapYear y);
    Z.div_mod_to_equations; lia.
Qed.
Lemma MakeDay_in_range y m d :
  0 <= m < 12 -> MakeDay y m d = daysFromCivil y m d.
Proof.
  intros Hm. unfold MakeDay.
  rewrite Z.div_small, Z.mod_small by lia.
  rewrite Z.add_0_r. symmetry. apply daysFromCivil_day.
Qed.

Lemma Day_MakeDate day time :
  0 <= time < msPerDay -> Day (MakeDate day time) = day.
Proof.
  intros H. unfold Day, MakeDate, msPerDay in *.
  rewrite Z.add_comm, Z.div_add by lia.
  rewrite Z.div_small by lia. lia.
Qed.

Lemma TimeWithinDay_bounds t : 0 <= TimeWithinDay t < msPerDay.
Proof. unfold TimeWithinDay, msPerDay. apply Z.mod_pos_bound. lia. Qed.

End JSDateFacts.

(* ================================================================== *)
(** ** Local time *)
(* ================================================================== *)

Module LocalTimeFacts.
Import JSDate JSDateFacts.

Lemma LocalTime_UTC tz t : LocalTime tz (UTC tz t) = t.
Proof. unfold LocalTime, UTC. lia. Qed.

(** The local fields of a date made by [new Date(year, month, date)] are
    those of the day [MakeDay] computes, whatever the time zone. *)
Lemma Day_newDate_ymd tz year month date :
  Day (LocalTime tz (newDate_ymd tz year month date))
  = MakeDay (if (0 <=? year) && (year <=? 99) then 1900 + year else year)
            month date.
Proof.
  unfold newDate_ymd. rewrite LocalTime_UTC.
  apply Day_MakeDate. unfold msPerDay. lia.
Qed.

(** A string the parser accepts names a date that exists. *)
Lemma parseISODate_valid s y m d :
  parseISODate s = Some (y, m, d) -> validCivil y m d = true.
Proof.
  unfold parseISODate.
  destruct (list_ascii_of_string s)
    as [|y1 [|y2 [|y3 [|y4 [|s1 [|m1 [|m2 [|s2 [|d1 [|d2 [|? ?]]]]]]]]]]];
    try discriminate.
  destruct (_ && _); try discriminate.
  destruct (digits4 _ _ _ _) as [y'|]; try discriminate.
  destruct (digits2 m1 m2) as [m'|]; try discriminate.
  destruct (digits2 d1 d2) as [d'|]; try discriminate.
  destruct ((1 <=? m') && (m' <=? 12) && (1 <=? d')
            && (d' <=? daysInMonth y' (m' - 1))) eqn:E; try discriminate.
  intros H. injection H as <- <- <-.
  repeat (apply andb_true_iff in E as [E ?]).
  apply validCivil_intro; lia.
Qed.

Lemma newDate_string_parsed s y m d :
  parseISODate s = Some (y, m, d) ->
  newDate_string s = Some (MakeDate (daysFromCivil y m d) 0).
Proof.
  intros H. unfold newDate_string. rewrite H.
  pose proof (validCivil_bounds _ _ _ (parseISODate_valid _ _ _ _ H))
    as (Hm & _).
  now rewrite MakeDay_in_range.
Qed.

Lemma newDate_string_unparsed s :
  parseISODate s = None -> newDate_string s = None.
Proof. intros H. unfold newDate_string. now rewrite H. Qed.

(** East of Greenwich (and at it), UTC midnight of a day is a time of
    that same day; west of it, a time of the day before. *)
Lemma Day_local_east tz day :
  0 <= tz < msPerDay -> Day (LocalTime tz (MakeDate day 0)) = day.
Proof.
  intros H. unfold LocalTime, MakeDate.
  rewrite Z.add_0_r. apply (Day_MakeDate day tz H).
Qed.

Lemma Day_local_west tz day :
  - msPerDay <= tz < 0 -> Day (LocalTime tz (MakeDate day 0)) = day - 1.
Proof.
  intros H. unfold LocalTime, MakeDate. rewrite Z.add_0_r.
  replace (day * msPerDay + tz) with ((day - 1) * msPerDay + (tz + msPerDay))
    by lia.
  apply (Day_MakeDate (day - 1) (tz + msPerDay)). lia.
Qed.

End LocalTimeFacts.

(* ================================================================== *)
(** ** Period filter *)
(* ================================================================== *)

Section PeriodFilter.

Import JSDate JSDateFacts LocalTimeFacts.

Variable tz : Z.

(** In a time zone at or east of Greenwich, [new Date(t.date)] read
    through the local getters gives back the fields of the string. *)
Lemma fields_east t :
  0 <= tz < msPerDay ->
  yearOf tz t = option_map (fun c => fst (fst c)) (Calendar.dateOf t) /\
  monthOf tz t = option_map (fun c => snd (fst c)) (Calendar.dateOf t) /\
  dayOf tz t = option_map snd (Calendar.dateOf t).
Proof.
  intros Htz. unfold yearOf, monthOf, dayOf, Calendar.dateOf.
  destruct (parseISODate (Transaction.date t)) as [[[y m] d]|] eqn:E.
  - rewrite (newDate_string_parsed _ _ _ _ E). cbn [option_map fst snd].
    unfold getFullYear, getMonth, getDate,
      YearFromTime, MonthFromTime, DateFromTime.
    rewrite (Day_local_east tz _ Htz).
    rewrite (civilFromDays_daysFromCivil _ _ _ (parseISODate_valid _ _ _ _ E)).
    repeat split.
  - rewrite (newDate_string_unparsed _ E). repeat split.
Qed.

(** West of Greenwich the same reading gives the fields of the day
    before. *)
Lemma fields_west t y m d :
  - msPerDay <= tz < 0 ->
  Calendar.dateOf t = Some (y, m, d) ->
  let c := civilFromDays (daysFromCivil y m d - 1) in
  yearOf tz t = Some (fst (fst c)) /\
  monthOf tz t = Some (snd (fst c)) /\
  dayOf tz t = Some (snd c).
Proof.
  intros Htz E. unfold yearOf, monthOf, dayOf. unfold Calendar.dateOf in E.
  rewrite (newDate_string_parsed _ _ _ _ E). cbn [option_map].
  unfold getFullYear, getMonth, getDate,
    YearFromTime, MonthFromTime, DateFromTime.
  rewrite (Day_local_west tz _ Htz). repeat split.
Qed.

(** The filter, as the code computes it: by the local reading of
    [new Date(t.date)]. *)
Lemma filteredTransactions_In l cur mode t :
  In t (filteredTransactions tz l cur mode) <->
  In t l /\
  yearOf tz t = Some (getFullYear tz cur) /\
  (mode = Daily -> monthOf tz t = Some (getMonth tz cur)).
Proof.
  unfold filteredTransactions. rewrite filter_In.
  assert (N : forall a b, num_eq a b = true <-> a = Some b).
  { intros [x|] b; cbn; [rewrite Z.eqb_eq|]; split; congruence. }
  split; intros [Hin H]; (split; [exact Hin|]).
  - destruct mode.
    + apply andb_true_iff in H as [H1 H2].
      apply N in H1. apply N in H2. now split.
    + apply N in H. split; [exact H | discriminate].
  - destruct H as [H1 H2]. destruct mode.
    + apply andb_true_iff. split; apply N; auto.
    + now apply N.
Qed.

(** At or east of Greenwich the filter and the display list select by
    the calendar date of the transactions. *)
Lemma filteredTransactions_east l cur :
  0 <= tz < msPerDay ->
  filteredTransactions tz l cur Daily
  = filter (fun t => Calendar.inYear (getFullYear tz cur) t
                     && Calendar.inMonth (getMonth tz cur) t) l
  /\ filteredTransactions tz l cur Monthly
     = filter (Calendar.inYear (getFullYear tz cur)) l.
Proof.
  intros Htz. unfold filteredTransactions.
  split; apply filter_ext; intros t;
    destruct (fields_east t Htz) as (Hy & Hm & _); rewrite Hy, ?Hm;
    unfold Calendar.inYear, Calendar.inMonth;
    destruct (Calendar.dateOf t) as [[[y m] d]|]; reflexivity.
Qed.

Lemma displayList_east f selectedDay mode :
  0 <= tz < msPerDay ->
  displayList tz f selectedDay mode
  = match mode, selectedDay with
    | Daily, Some d => filter (Calendar.onDay d) f
    | _, _ => f
    end.
Proof.
  intros Htz. unfold displayList.
  destruct mode; [|reflexivity]. destruct selectedDay as [d|]; [|reflexivity].
  apply filter_ext. intros t.
  destruct (fields_east t Htz) as (_ & _ & Hd). rewrite Hd.
  unfold Calendar.onDay.
  destruct (Calendar.dateOf t) as [[[y m] d']|]; reflexivity.
Qed.

End PeriodFilter.

(** C3 (evaluation at the failing input).  In a browser five hours west of
    Greenwich, with the anchor date in March 2024 and the calendar view:
    a transaction dated 2024-03-01 is read as 29 February, so it is left
    out of the March period and shown in the February period, and a
    transaction dated 2024-03-02 is listed under day 1 and not under
    day 2.  By the specification the first belongs to March and the second
    to day 2: the filter selects by the calendar date written in the
    transaction. *)
Theorem C3_filter_west_of_greenwich :
  let t1 := sampleTx "t1" 40 Expense "2024-03-01" in
  let t2 := sampleTx "t2" 25 Expense "2024-03-02" in
  let march := JSDate.newDate_ymd utcMinus5 2024 2 15 in
  let february := JSDate.newDate_ymd utcMinus5 2024 1 15 in
  JSDate.getFullYear utcMinus5 march = 2024 /\
  JSDate.getMonth utcMinus5 march = 2 /\
  Calendar.dateOf t1 = Some (2024, 2, 1) /\
  monthOf utcMinus5 t1 = Some 1 /\
  dayOf utcMinus5 t1 = Some 29 /\
  filteredTransactions utcMinus5 [t1; t2] march Daily = [t2] /\
  filteredTransactions utcMinus5 [t1; t2] february Daily = [t1] /\
  displayList utcMinus5 [t2] (Some 2) Daily = [] /\
  displayList utcMinus5 [t2] (Some 1) Daily = [t2].
Proof. vm_compute. repeat split. Qed.

(* ================================================================== *)
(** ** Aggregates *)
(* ================================================================== *)

Section Aggregates.

Import JSDate JSDateFacts LocalTimeFacts.

(** The two running totals of [stats] are the left-to-right sums of the
    income amounts and of the expense amounts. *)
Lemma stats_totals l : forall i e,
  fold_left
    (fun '(income, expense) t =>
       match Transaction.type t with
       | Income => (PrimFloat.add income (Transaction.amount t), expense)
       | Expense => (income, PrimFloat.add expense (Transaction.amount t))
       end) l (i, e)
  = (sumFrom i (filter isIncome l), sumFrom e (filter isExpense l)).
Proof.
  induction l as [|t l IH]; intros i e; [reflexivity|].
  cbn [fold_left filter]. unfold isIncome, isExpense.
  destruct (Transaction.type t); cbn [TransactionType_eqb];
    rewrite IH; reflexivity.
Qed.

(** C4.  For every filtered set, [stats] returns as [income] the sum of the
    amounts of the income entries, as [expense] the sum of the amounts of
    the expense entries (each summed from 0 in list order, as JavaScript
    adds numbers), and as [balance] their difference; and two income
    entries of 100 and 50 with one expense entry of 30 give income 150,
    expense 30 and balance 120. *)
Theorem C4_stats_sums :
  (forall l,
     let income := sumAmounts (filter isIncome l) in
     let expense := sumAmounts (filter isExpense l) in
     stats l = Stats.mk income expense (PrimFloat.sub income expense))
  /\ (forall id1 id2 id3 d1 d2 d3 dt1 dt2 dt3 c1 c2 c3,
        stats [ Transaction.mk id1 d1 100 Income dt1 c1;
                Transaction.mk id2 d2 50 Income dt2 c2;
                Transaction.mk id3 d3 30 Expense dt3 c3 ]
        = Stats.mk 150 30 120).
Proof.
  split.
  - intros l. cbv zeta. unfold stats. rewrite stats_totals. reflexivity.
  - intros. reflexivity.
Qed.

Variable tz : Z.

(** *** The twelve-month series *)

Lemma updateAt_length {A} (f : A -> A) i : forall l,
  List.length (updateAt f i l) = List.length l.
Proof.
  induction i as [|i IH]; intros [|x l]; cbn; auto.
Qed.

Lemma nth_error_updateAt {A} (f : A -> A) i : forall l j,
  nth_error (updateAt f i l) j
  = if Nat.eqb i j then option_map f (nth_error l j) else nth_error l j.
Proof.
  induction i as [|i IH]; intros [|x l] [|j]; cbn; auto;
    try (now destruct (Nat.eqb i j)); now destruct j.
Qed.

Lemma lookupZ_Some {A} (l : list A) k x :
  lookupZ l k = Some x -> 0 <= k /\ nth_error l (Z.to_nat k) = Some x.
Proof.
  unfold lookupZ. destruct (Z.ltb_spec k 0); [discriminate|]. auto.
Qed.

Lemma lookupZ_None {A} (l : list A) k :
  lookupZ l k = None -> k < 0 \/ (List.length l <= Z.to_nat k)%nat.
Proof.
  unfold lookupZ. destruct (Z.ltb_spec k 0); [auto|].
  intros Hn. right. now apply nth_error_None.
Qed.

(** One step of the [forEach]: only the bucket of the transaction's month
    changes, by [addToBucket]. *)
Lemma addToDataMap_nth dataMap t k :
  nth_error (addToDataMap tz dataMap t) k
  = if feeds tz k t then option_map (addToBucket t) (nth_error dataMap k)
    else nth_error dataMap k.
Proof.
  unfold addToDataMap, feeds.
  destruct (monthOf tz t) as [mi|]; cbn [num_eq]; [|reflexivity].
  destruct (lookupZ dataMap mi) as [b|] eqn:E.
  - apply lookupZ_Some in E as [Hpos E].
    rewrite nth_error_updateAt.
    destruct (Z.eqb_spec mi (Z.of_nat k)) as [->|Hne].
    + now rewrite Nat2Z.id, Nat.eqb_refl.
    + destruct (Nat.eqb_spec (Z.to_nat mi) k) as [<-|]; [|reflexivity].
      rewrite Z2Nat.id in Hne by lia. congruence.
  - destruct (Z.eqb_spec mi (Z.of_nat k)) as [->|Hne]; [|reflexivity].
    apply lookupZ_None in E as [E|E]; [lia|].
    rewrite Nat2Z.id in E.
    apply nth_error_None in E. now rewrite E.
Qed.

Lemma addToDataMap_length dataMap t :
  List.length (addToDataMap tz dataMap t) = List.length dataMap.
Proof.
  unfold addToDataMap. destruct (monthOf tz t); [|reflexivity].
  destruct (lookupZ dataMap z); [apply updateAt_length|reflexivity].
Qed.

Lemma fold_addToDataMap_length l : forall dataMap,
  List.length (fold_left (addToDataMap tz) l dataMap) = List.length dataMap.
Proof.
  induction l as [|t l IH]; intros d; [reflexivity|].
  cbn [fold_left]. now rewrite IH, addToDataMap_length.
Qed.

(** After the whole [forEach], a bucket has its name unchanged and has
    accumulated, in list order, the amounts of the transactions that feed
    it. *)
Lemma fold_addToDataMap_nth l : forall dataMap k b,
  nth_error dataMap k = Some b ->
  nth_error (fold_left (addToDataMap tz) l dataMap) k
  = Some (MonthBucket.mk (MonthBucket.name b)
            (sumFrom (MonthBucket.income b)
               (filter (fun t => isIncome t && feeds tz k t) l))
            (sumFrom (MonthBucket.expense b)
               (filter (fun t => isExpense t && feeds tz k t) l))).
Proof.
  induction l as [|t l IH]; intros d k b Hb.
  - cbn. rewrite Hb. now destruct b.
  - cbn [fold_left filter].
    pose proof (addToDataMap_nth d t k) as Hstep. rewrite Hb in Hstep.
    unfold isIncome, isExpense in *.
    destruct (feeds tz k t); cbn [option_map] in Hstep;
      rewrite (IH _ _ _ Hstep); unfold addToBucket;
      destruct (Transaction.type t); cbn; reflexivity.
Qed.

(** The series in the yearly view: twelve buckets named Jan..Dec in that
    order, each with the sums of the transactions whose local reading
    falls in its month, hence 0 and 0 where there is none; and the empty
    sequence in the calendar view. *)
Lemma monthlyChartData_spec l :
  monthlyChartData tz l Daily = [] /\
  List.length (monthlyChartData tz l Monthly) = 12%nat /\
  map MonthBucket.name (monthlyChartData tz l Monthly) = months /\
  (forall k, (k < 12)%nat ->
     nth_error (monthlyChartData tz l Monthly) k
     = Some (MonthBucket.mk (nth k months ""%string)
               (sumAmounts (filter (fun t => isIncome t && feeds tz k t) l))
               (sumAmounts (filter (fun t => isExpense t && feeds tz k t) l)))).
Proof.
  assert (Hk : forall k, (k < 12)%nat ->
     nth_error (monthlyChartData tz l Monthly) k
     = Some (MonthBucket.mk (nth k months ""%string)
               (sumAmounts (filter (fun t => isIncome t && feeds tz k t) l))
               (sumAmounts (filter (fun t => isExpense t && feeds tz k t) l)))).
  { intros k Hlt. unfold monthlyChartData.
    rewrite (fold_addToDataMap_nth l _ k
               (MonthBucket.mk (nth k months ""%string) 0 0)).
    - reflexivity.
    - do 12 (destruct k as [|k]; [reflexivity|]). lia. }
  assert (Hlen : List.length (monthlyChartData tz l Monthly) = 12%nat).
  { unfold monthlyChartData. now rewrite fold_addToDataMap_length. }
  repeat split; auto.
  apply nth_error_ext. intros k.
  destruct (Nat.lt_ge_cases k 12) as [Hlt|Hge].
  - rewrite nth_error_map, (Hk k Hlt). cbn [option_map MonthBucket.name].
    symmetry. apply nth_error_nth'. exact Hlt.
  - rewrite (proj2 (nth_error_None _ _)) by (rewrite length_map; lia).
    symmetry. apply nth_error_None. exact Hge.
Qed.

End Aggregates.

Section AggregatesByDate.

Import JSDate JSDateFacts LocalTimeFacts.

Variable tz : Z.

(** At or east of Greenwich, bucket [k] of the series holds the sums of
    the transactions dated in month [k] (0 = January). *)
Lemma monthlyChartData_east l k :
  0 <= tz < msPerDay ->
  (k < 12)%nat ->
  nth_error (monthlyChartData tz l Monthly) k
  = Some (MonthBucket.mk (nth k months ""%string)
            (sumAmounts
               (filter (fun t => isIncome t
                                 && Calendar.inMonth (Z.of_nat k) t) l))
            (sumAmounts
               (filter (fun t => isExpense t
                                 && Calendar.inMonth (Z.of_nat k) t) l))).
Proof.
  intros Htz Hk.
  destruct (monthlyChartData_spec tz l) as (_ & _ & _ & H).
  rewrite (H k Hk).
  assert (E : forall t, feeds tz k t = Calendar.inMonth (Z.of_nat k) t).
  { intros t. unfold feeds, Calendar.inMonth.
    destruct (fields_east tz t Htz) as (_ & Hm & _). rewrite Hm.
    destruct (Calendar.dateOf t) as [[[y m] d]|]; reflexivity. }
  do 2 f_equal; f_equal; apply filter_ext; intros t; now rewrite E.
Qed.

(** *** The calendar grid *)

Lemma countFrom_length n : forall lo, List.length (countFrom lo n) = n.
Proof. induction n as [|n IH]; intros lo; cbn; auto. Qed.

Lemma nth_error_countFrom n : forall lo i,
  (i < n)%nat -> nth_error (countFrom lo n) i = Some (lo + Z.of_nat i).
Proof.
  induction n as [|n IH]; intros lo i Hi; [lia|].
  destruct i as [|i]; cbn [countFrom nth_error].
  - f_equal. lia.
  - rewrite IH by lia. f_equal. lia.
Qed.

(** The weekday index (0 = Sunday) of the first day of month [m] of year
    [y]. *)
Lemma getDay_first_of_month y m :
  0 <= m < 12 ->
  getDay tz (newDate_ymd tz y m 1)
  = (daysFromCivil (if (0 <=? y) && (y <=? 99) then 1900 + y else y) m 1 + 4)
    mod 7.
Proof.
  intros Hm. unfold getDay, WeekDay.
  now rewrite Day_newDate_ymd, MakeDay_in_range.
Qed.

(** Day 0 of the following month is the last day of the month. *)
Lemma getDate_day_zero_of_next_month y m :
  0 <= m < 12 ->
  getDate tz (newDate_ymd tz y (m + 1) 0)
  = daysInMonth (if (0 <=? y) && (y <=? 99) then 1900 + y else y) m.
Proof.
  intros Hm. unfold getDate, DateFromTime.
  rewrite Day_newDate_ymd.
  set (yr := if (0 <=? y) && (y <=? 99) then 1900 + y else y).
  unfold MakeDay. rewrite (daysFromCivil_next_month yr m Hm).
  replace (daysFromCivil yr m (daysInMonth yr m) + 1 + 0 - 1)
    with (daysFromCivil yr m (daysInMonth yr m)) by lia.
  rewrite civilFromDays_daysFromCivil; [reflexivity|].
  pose proof (daysInMonth_min yr m). apply validCivil_intro; lia.
Qed.

Lemma getMonth_range d : 0 <= getMonth tz d < 12.
Proof.
  unfold getMonth, MonthFromTime.
  destruct (civilFromDays (Day (LocalTime tz d))) as [[y m] dd] eqn:E.
  apply civilFromDays_spec in E as [Hv _].
  apply validCivil_bounds in Hv. cbn. lia.
Qed.

(** The grid, as the code computes it.  For an anchor date in a year
    outside 0..99: [w] blank cells, [w] being the weekday index of the
    first day of the anchor month, then one cell for each of the days
    1..N of that month, cell [i] with the sums of the transactions whose
    local reading falls on day [i].  In the yearly view there is no
    grid. *)
Lemma calendarData_spec l cur :
  let y := getFullYear tz cur in
  let m := getMonth tz cur in
  let w := (daysFromCivil y m 1 + 4) mod 7 in
  let N := daysInMonth y m in
  ~ (0 <= y <= 99) ->
  calendarData tz l cur Monthly = None /\
  calendarData tz l cur Daily
  = Some (repeat (DayCell.mk None 0 0) (Z.to_nat w)
          ++ map (fun i =>
                    DayCell.mk (Some i)
                      (sumAmounts
                         (filter isIncome
                            (filter (fun t => num_eq (dayOf tz t) i) l)))
                      (sumAmounts
                         (filter isExpense
                            (filter (fun t => num_eq (dayOf tz t) i) l))))
                 (countFrom 1 (Z.to_nat N))).
Proof.
  intros y m w N Hy. split; [reflexivity|].
  unfold calendarData. fold y m.
  pose proof (getMonth_range cur) as Hm. fold m in Hm.
  rewrite (getDay_first_of_month y m Hm).
  rewrite (getDate_day_zero_of_next_month y m Hm).
  assert (Eyr : (if (0 <=? y) && (y <=? 99) then 1900 + y else y) = y).
  { destruct (Z.leb_spec 0 y), (Z.leb_spec y 99); cbn; try reflexivity. lia. }
  rewrite Eyr. fold w N. f_equal. f_equal.
  generalize (Z.to_nat w) as n. generalize 0 as lo.
  intros lo n. revert lo.
  induction n as [|n IH]; intros lo; cbn; [reflexivity|]. now rewrite IH.
Qed.

Lemma calendarData_shape l cur :
  let y := getFullYear tz cur in
  let m := getMonth tz cur in
  let w := Z.to_nat ((daysFromCivil y m 1 + 4) mod 7) in
  let N := Z.to_nat (daysInMonth y m) in
  ~ (0 <= y <= 99) ->
  exists cells,
    calendarData tz l cur Daily = Some cells /\
    List.length cells = (w + N)%nat /\
    (forall i, (i < w)%nat ->
       nth_error cells i = Some (DayCell.mk None 0 0)) /\
    (forall i, (i < N)%nat ->
       option_map DayCell.day (nth_error cells (w + i))
       = Some (Some (Z.of_nat i + 1))).
Proof.
  intros y m w N Hy.
  destruct (calendarData_spec l cur Hy) as [_ E]. fold y m in E.
  eexists. split; [exact E|]. fold w N.
  split; [|split].
  - now rewrite length_app, repeat_length, length_map, countFrom_length.
  - intros i Hi. rewrite nth_error_app1 by (now rewrite repeat_length).
    apply nth_error_repeat. exact Hi.
  - intros i Hi. rewrite nth_error_app2 by (rewrite repeat_length; lia).
    rewrite repeat_length.
    replace (w + i - w)%nat with i by lia.
    rewrite nth_error_map, nth_error_countFrom by exact Hi.
    cbn [option_map DayCell.day]. apply f_equal, f_equal. lia.
Qed.

(** At or east of Greenwich, the cell of day [i] sums the transactions
    dated on day [i]. *)
Lemma dayCell_east l i :
  0 <= tz < msPerDay ->
  dayCell tz l i
  = DayCell.mk (Some i)
      (sumAmounts (filter isIncome (filter (Calendar.onDay i) l)))
      (sumAmounts (filter isExpense (filter (Calendar.onDay i) l))).
Proof.
  intros Htz. unfold dayCell.
  assert (E : filter (fun t => num_eq (dayOf tz t) i) l
              = filter (Calendar.onDay i) l).
  { apply filter_ext. intros t.
    destruct (fields_east tz t Htz) as (_ & _ & Hd). rewrite Hd.
    unfold Calendar.onDay.
    destruct (Calendar.dateOf t) as [[[y m] d]|]; reflexivity. }
  now rewrite E.
Qed.

End AggregatesByDate.

(** C5 (evaluation at the failing input).  In a browser five hours west of
    Greenwich, in the yearly view of 2024, an income of 100 dated
    2024-03-01 is in the filtered set and is added to the February bucket;
    the March bucket stays at 0.  By the specification it belongs to the
    bucket of the month its date falls in, March. *)
Theorem C5_series_west_of_greenwich :
  let t := sampleTx "t1" 100 Income "2024-03-01" in
  let anchor := JSDate.newDate_ymd utcMinus5 2024 5 15 in
  let filtered := filteredTransactions utcMinus5 [t] anchor Monthly in
  filtered = [t] /\
  Calendar.inMonth 2 t = true /\
  monthlyChartData utcMinus5 filtered Monthly
  = [ MonthBucket.mk "Jan" 0 0; MonthBucket.mk "Feb" 100 0;
      MonthBucket.mk "Mar" 0 0; MonthBucket.mk "Apr" 0 0;
      MonthBucket.mk "May" 0 0; MonthBucket.mk "Jun" 0 0;
      MonthBucket.mk "Jul" 0 0; MonthBucket.mk "Aug" 0 0;
      MonthBucket.mk "Sep" 0 0; MonthBucket.mk "Oct" 0 0;
      MonthBucket.mk "Nov" 0 0; MonthBucket.mk "Dec" 0 0 ].
Proof. vm_compute. repeat split. Qed.

(** C6 (evaluation at the failing input).  In a browser five hours west of
    Greenwich, in the calendar view of March 2024 (which starts on a
    Friday, weekday index 5), an expense of 40 dated 2024-03-02 is in the
    filtered set and is summed into the cell of day 1; the cell of day 2
    stays at 0.  By the specification it belongs to the cell of its day of
    month, day 2. *)
Theorem C6_grid_west_of_greenwich :
  let t := sampleTx "t1" 40 Expense "2024-03-02" in
  let anchor := JSDate.newDate_ymd utcMinus5 2024 2 15 in
  let filtered := filteredTransactions utcMinus5 [t] anchor Daily in
  filtered = [t] /\
  Calendar.onDay 2 t = true /\
  exists cells,
    calendarData utcMinus5 filtered anchor Daily = Some cells /\
    List.length cells = (5 + 31)%nat /\
    nth_error cells 5 = Some (DayCell.mk (Some 1) 0 40) /\
    nth_error cells 6 = Some (DayCell.mk (Some 2) 0 0).
Proof.
  vm_compute. repeat split. eexists. repeat split.
Qed.

(** The [Date(year, month, date)] constructor reads a year from 0 to 99 as
    1900 + year, so for an anchor date in those years the grid is that of
    the same month of 19xx: February of year 0 has 29 days and starts on
    weekday 2, and the grid has the 4 blank cells and 28 days of
    February 1900. *)
Lemma calendarData_two_digit_year :
  JSDate.localFields utcPlus8 anchorYearZero = (0, 1, 15) /\
  JSDate.daysInMonth 0 1 = 29 /\
  (JSDate.daysFromCivil 0 1 1 + 4) mod 7 = 2 /\
  option_map (@List.length DayCell.t)
    (calendarData utcPlus8 [] anchorYearZero Daily) = Some (4 + 28)%nat.
Proof. vm_compute. repeat split. Qed.

(* ================================================================== *)
(** ** Navigation *)
(* ================================================================== *)

Section NavigationFacts.

Import JSDate JSDateFacts LocalTimeFacts.

Variable tz : Z.

Lemma localFields_civil d :
  localFields tz d = civilFromDays (Day (LocalTime tz d)).
Proof.
  unfold localFields, getFullYear, getMonth, getDate,
    YearFromTime, MonthFromTime, DateFromTime.
  now destruct (civilFromDays _) as [[y m] dd].
Qed.

Lemma localFields_valid d y m dd :
  localFields tz d = (y, m, dd) -> validCivil y m dd = true.
Proof.
  rewrite localFields_civil. intros E. now apply civilFromDays_spec in E.
Qed.

(** [setMonth] lands on the requested month, with the same day of month,
    when that month has such a day. *)
Lemma localFields_setMonth d month y m dd :
  localFields tz d = (y, m, dd) ->
  dd <= daysInMonth (y + month / 12) (month mod 12) ->
  localFields tz (setMonth tz d month) = (y + month / 12, month mod 12, dd).
Proof.
  intros E Hd.
  pose proof (localFields_valid _ _ _ _ E) as Hv.
  apply validCivil_bounds in Hv as (_ & Hdd & _).
  rewrite localFields_civil. unfold setMonth.
  rewrite LocalTime_UTC, Day_MakeDate by apply TimeWithinDay_bounds.
  rewrite localFields_civil in E.
  unfold YearFromTime, DateFromTime. rewrite E. cbn [fst snd].
  unfold MakeDay. rewrite <- daysFromCivil_day.
  apply civilFromDays_daysFromCivil.
  pose proof (Z.mod_pos_bound month 12 ltac:(lia)).
  apply validCivil_intro; lia.
Qed.

(** Otherwise it runs over into the month after the requested one. *)
Lemma localFields_setMonth_overflow d month y m dd :
  localFields tz d = (y, m, dd) ->
  daysInMonth (y + month / 12) (month mod 12) < dd ->
  let y1 := y + month / 12 in
  let m1 := month mod 12 in
  localFields tz (setMonth tz d month)
  = (y1 + (m1 + 1) / 12, (m1 + 1) mod 12, dd - daysInMonth y1 m1).
Proof.
  intros E Hd y1 m1.
  pose proof (localFields_valid _ _ _ _ E) as Hv.
  apply validCivil_bounds in Hv as (_ & Hdd & H31).
  rewrite localFields_civil. unfold setMonth.
  rewrite LocalTime_UTC, Day_MakeDate by apply TimeWithinDay_bounds.
  rewrite localFields_civil in E.
  unfold YearFromTime, DateFromTime. rewrite E. cbn [fst snd].
  unfold MakeDay. fold y1 m1. fold y1 m1 in Hd.
  pose proof (Z.mod_pos_bound month 12 ltac:(lia)) as Hm1. fold m1 in Hm1.
  clearbody y1 m1.
  pose proof (daysFromCivil_next_month y1 m1 Hm1) as Hn.
  rewrite (daysFromCivil_day y1 m1 (daysInMonth y1 m1)) in Hn.
  pose proof (Z.mod_pos_bound (m1 + 1) 12 ltac:(lia)) as Hm2.
  pose proof (daysInMonth_min y1 m1) as Hmin1.
  pose proof (daysInMonth_min (y1 + (m1 + 1) / 12) ((m1 + 1) mod 12)) as Hmin2.
  remember (y1 + (m1 + 1) / 12) as y2. remember ((m1 + 1) mod 12) as m2.
  replace (daysFromCivil y1 m1 1 + dd - 1)
    with (daysFromCivil y2 m2 1 + (dd - daysInMonth y1 m1) - 1) by lia.
  rewrite <- daysFromCivil_day.
  apply civilFromDays_daysFromCivil.
  apply validCivil_intro; lia.
Qed.

(** [setFullYear] always lands in the requested year: the only day that
    can be missing there is 29 February, which becomes 1 March. *)
Lemma getFullYear_setFullYear d year :
  getFullYear tz (setFullYear tz d year) = year.
Proof.
  destruct (localFields tz d) as [[y m] dd] eqn:E.
  pose proof (localFields_valid _ _ _ _ E) as Hv.
  apply validCivil_bounds in Hv as (Hm & Hdd & _).
  unfold getFullYear, YearFromTime, setFullYear.
  rewrite LocalTime_UTC, Day_MakeDate by apply TimeWithinDay_bounds.
  rewrite localFields_civil in E.
  unfold MonthFromTime, DateFromTime. rewrite E. cbn [fst snd].
  rewrite MakeDay_in_range by exact Hm.
  destruct (Z_le_gt_dec dd (daysInMonth year m)) as [Hle|Hgt].
  - rewrite civilFromDays_daysFromCivil; [reflexivity|].
    apply validCivil_intro; lia.
  - assert (Hfeb : m = 1 /\ dd = 29 /\ daysInMonth year m = 28).
    { revert Hdd Hgt. unfold daysInMonth.
      destruct (Z.eqb_spec m 1);
        [destruct (isLeapYear y), (isLeapYear year)|destruct (_ || _)];
        lia. }
    destruct Hfeb as (-> & -> & H28).
    pose proof (daysFromCivil_next_month year 1 ltac:(lia)) as Hn.
    rewrite H28 in Hn. change ((1 + 1) / 12) with 0 in Hn.
    change ((1 + 1) mod 12) with 2 in Hn. rewrite Z.add_0_r in Hn.
    rewrite (daysFromCivil_day year 1 28) in Hn.
    rewrite (daysFromCivil_day year 1 29).
    replace (daysFromCivil year 1 1 + 29 - 1) with (daysFromCivil year 2 1)
      by lia.
    rewrite civilFromDays_daysFromCivil; [reflexivity|].
    apply validCivil_intro; [lia|]. unfold daysInMonth. cbn. lia.
Qed.

(** What [navigateTime] does to the selection and to the anchor.  In the
    calendar view the selected day is cleared and, when the anchor's day
    of month is at most 28, the anchor moves to the same day of the
    neighbouring month; in the yearly view the selected day is kept and
    the anchor's year moves by one.  Nothing else changes. *)
Lemma navigateTime_daily direction s y m dd :
  viewMode s = Daily ->
  localFields tz (currentDate s) = (y, m, dd) ->
  dd <= 28 ->
  let step := match direction with Next => 1 | Prev => -1 end in
  let s' := navigateTime tz direction s in
  selectedDay s' = None /\
  localFields tz (currentDate s')
  = (y + (m + step) / 12, (m + step) mod 12, dd).
Proof.
  intros Hmode E Hdd step s'. subst s'. unfold navigateTime.
  rewrite Hmode. cbn [selectedDay currentDate setCurrentDate setSelectedDay].
  split; [reflexivity|].
  assert (Em : getMonth tz (currentDate s) = m).
  { unfold localFields in E. congruence. }
  rewrite Em. fold step.
  apply (localFields_setMonth _ (m + step) y m dd E).
  pose proof (daysInMonth_min (y + (m + step) / 12) ((m + step) mod 12)).
  lia.
Qed.

Lemma navigateTime_monthly direction s :
  viewMode s = Monthly ->
  let step := match direction with Next => 1 | Prev => -1 end in
  let s' := navigateTime tz direction s in
  selectedDay s' = selectedDay s /\
  getFullYear tz (currentDate s') = getFullYear tz (currentDate s) + step.
Proof.
  intros Hmode step s'. subst s'. unfold navigateTime. rewrite Hmode.
  cbn [selectedDay currentDate setCurrentDate].
  split; [reflexivity|]. apply getFullYear_setFullYear.
Qed.

Lemma navigateTime_frame direction s :
  let s' := navigateTime tz direction s in
  wallets s' = wallets s /\ activeWalletId s' = activeWalletId s /\
  viewMode s' = viewMode s.
Proof.
  cbv zeta. unfold navigateTime. destruct (viewMode s) eqn:E; cbn; auto.
Qed.

End NavigationFacts.

(** C7 (evaluation at the failing input).  With the calendar view anchored
    at noon of 31 January 2024 and day 10 selected, Navigate(next) clears
    the selection and leaves the anchor at 2 March 2024: [setMonth] asks
    for 31 February, which runs over into March, so the anchor moves by
    two months and February is skipped.  Likewise Navigate(prev) from
    31 March 2024 leaves the anchor in March, at 2 March.  By the
    specification each moves the anchor by exactly one month. *)
Theorem C7_navigate_from_day_31 :
  let january31 := JSDate.newDate_ymd utcPlus8 2024 0 31 + 43200000 in
  let march31 := JSDate.newDate_ymd utcPlus8 2024 2 31 + 43200000 in
  let s := sampleState [] None Daily january31 (Some 10) in
  let s' := navigateTime utcPlus8 Next s in
  let r := sampleState [] None Daily march31 (Some 10) in
  let r' := navigateTime utcPlus8 Prev r in
  JSDate.localFields utcPlus8 (currentDate s) = (2024, 0, 31) /\
  selectedDay s' = None /\
  JSDate.localFields utcPlus8 (currentDate s') = (2024, 2, 2) /\
  JSDate.localFields utcPlus8 (currentDate r) = (2024, 2, 31) /\
  selectedDay r' = None /\
  JSDate.localFields utcPlus8 (currentDate r') = (2024, 2, 2).
Proof. vm_compute. repeat split. Qed.

(* ================================================================== *)
(** ** Loading *)
(* ================================================================== *)

Lemma in_transactions_transaction t :
  in_transactions (transaction_to_json t) = Some false.
Proof. reflexivity. Qed.

Lemma in_transactions_object props :
  In "transactions"%string (map fst props) ->
  in_transactions (JObj props) = Some true.
Proof.
  intros H. cbn. f_equal. apply existsb_exists.
  apply in_map_iff in H as [kv [E Hin]].
  exists kv. split; [exact Hin|]. rewrite E. apply String.eqb_refl.
Qed.

(** C2.  The load effect always produces a wallet collection, whatever is
    stored.  A stored array whose first element is an object with a
    [transactions] property is returned as it is.  A stored legacy array of
    transactions [T] (empty or not) becomes exactly one wallet named
    "Main Wallet" whose transactions are the stored array itself.  An
    absent or empty stored string, a string [JSON.parse] rejects, a value
    that is not an array and an array whose first element is not an object
    (on which the [in] test throws) all give one empty wallet named
    "Main Wallet".  The result is never empty, and nothing is raised: the
    exceptions of the [try] block are caught. *)
Theorem C2_load_normalizes (uuid : string) (savedData : option string)
    (parsed : option json) :
  let ws := loadWallets uuid savedData parsed in
  let present :=
    match savedData with Some s => truthy s | None => false end in
  let emptyMain := wallet_to_json (WalletData.mk uuid "Main Wallet" []) in
  (forall first rest props,
     present = true -> parsed = Some (JArr (first :: rest)) ->
     first = JObj props -> In "transactions"%string (map fst props) ->
     ws = first :: rest)
  /\ (forall T,
        present = true -> parsed = Some (JArr (map transaction_to_json T)) ->
        ws = [wallet_to_json (WalletData.mk uuid "Main Wallet" T)])
  /\ (savedData = None \/ savedData = Some ""%string \/ parsed = None ->
      ws = [emptyMain])
  /\ (forall v, parsed = Some v -> (forall items, v <> JArr items) ->
      ws = [emptyMain])
  /\ (forall first rest,
        parsed = Some (JArr (first :: rest)) ->
        in_transactions first = None -> ws = [emptyMain])
  /\ (tryParse uuid parsed = None -> ws = [emptyMain])
  /\ ws <> [].
Proof.
  cbv zeta. unfold loadWallets.
  repeat split.
  - intros first rest props Hp -> -> Hin.
    destruct savedData as [s|]; [|discriminate]. rewrite Hp.
    cbn [tryParse]. now rewrite (in_transactions_object _ Hin).
  - intros T Hp ->.
    destruct savedData as [s|]; [|discriminate]. rewrite Hp.
    destruct T as [|t T]; reflexivity.
  - intros [-> | [-> | ->]]; [reflexivity | reflexivity |].
    destruct savedData as [s|]; [destruct (truthy s)|]; reflexivity.
  - intros v -> Hv.
    destruct savedData as [s|]; [destruct (truthy s)|]; try reflexivity.
    destruct v; try reflexivity. now destruct (Hv items).
  - intros first rest -> Hf.
    destruct savedData as [s|]; [destruct (truthy s)|]; try reflexivity.
    cbn [tryParse]. now rewrite Hf.
  - intros ->.
    destruct savedData as [s|]; [destruct (truthy s)|]; reflexivity.
  - destruct savedData as [s|]; [destruct (truthy s)|]; try discriminate.
    destruct (tryParse uuid parsed) as [[|w ws]|]; discriminate.
Qed.

(** C2 at stored data: a saved collection of one wallet, a legacy array of
    one transaction, an empty array, and a string that does not parse. *)
Lemma C2_load_examples :
  loadWallets "u" (Some storedWalletText)
    (Some (JArr [wallet_to_json mainWallet]))
  = [wallet_to_json mainWallet]
  /\ loadWallets "u" (Some storedLegacyText)
       (Some (JArr [transaction_to_json
                      (sampleTx "t1" 40 Expense "2024-03-10")]))
     = [wallet_to_json
          (WalletData.mk "u" "Main Wallet"
             [sampleTx "t1" 40 Expense "2024-03-10"])]
  /\ loadWallets "u" (Some "[]"%string) (Some (JArr []))
     = [wallet_to_json (WalletData.mk "u" "Main Wallet" [])]
  /\ loadWallets "u" (Some "{oops"%string) None
     = [wallet_to_json (WalletData.mk "u" "Main Wallet" [])].
Proof.
  pose proof (C2_load_normalizes "u" (Some storedWalletText)
                (Some (JArr [wallet_to_json mainWallet])))
    as (H1 & _).
  pose proof (C2_load_normalizes "u" (Some storedLegacyText)
                (Some (JArr (map transaction_to_json
                               [sampleTx "t1" 40 Expense "2024-03-10"]))))
    as (_ & H2 & _).
  pose proof (C2_load_normalizes "u" (Some "[]"%string)
                (Some (JArr (map transaction_to_json []))))
    as (_ & H3 & _).
  pose proof (C2_load_normalizes "u" (Some "{oops"%string) None)
    as (_ & _ & H4 & _).
  split; [|split; [|split]].
  - eapply H1; [reflexivity | reflexivity | reflexivity |]. cbn. tauto.
  - apply H2; reflexivity.
  - apply H3; reflexivity.
  - apply H4. right. right. reflexivity.
Defined.

(* ================================================================== *)
(** ** Wallets *)
(* ================================================================== *)

Section WalletFacts.

Lemma id_eq_true a b : id_eq a b = true <-> a = Some b.
Proof.
  destruct a as [x|]; cbn; [rewrite String.eqb_eq|]; split; congruence.
Qed.

Lemma id_eq_false a b : id_eq a b = false <-> a <> Some b.
Proof.
  rewrite <- id_eq_true. destruct (id_eq a b); split; congruence.
Qed.

Lemma truthy_true s : truthy s = true <-> s <> ""%string.
Proof.
  unfold truthy. rewrite negb_true_iff. apply String.eqb_neq.
Qed.

Lemma truthy_false s : truthy s = false <-> s = ""%string.
Proof.
  unfold truthy. rewrite negb_false_iff. apply String.eqb_eq.
Qed.

(** Wallets with distinct identifiers are told apart by them. *)
Lemma NoDup_ids_inj (l : list WalletData.t) a b :
  NoDup (map WalletData.id l) -> In a l -> In b l ->
  WalletData.id a = WalletData.id b -> a = b.
Proof.
  induction l as [|x l IH]; intros Hnd Ha Hb E; [contradiction|].
  cbn in Hnd. inversion Hnd as [|? ? Hx Hl]; subst.
  destruct Ha as [->|Ha], Hb as [->|Hb]; auto.
  - exfalso. apply Hx. rewrite E. now apply in_map.
  - exfalso. apply Hx. rewrite <- E. now apply in_map.
Qed.

Lemma NoDup_ids_filter (p : WalletData.t -> bool) l :
  NoDup (map WalletData.id l) -> NoDup (map WalletData.id (filter p l)).
Proof.
  induction l as [|x l IH]; intros Hnd; [constructor|].
  cbn in Hnd. inversion Hnd as [|? ? Hx Hl]; subst.
  cbn. destruct (p x); [|auto]. cbn. constructor; [|auto].
  intros Hin. apply Hx. apply in_map_iff in Hin as [w [E Hw]].
  apply filter_In in Hw as [Hw _]. rewrite <- E. now apply in_map.
Qed.

(** Removing the wallets with one identifier from two or more wallets
    with distinct identifiers leaves at least one. *)
Lemma filter_other_ids_nonempty l walletId :
  NoDup (map WalletData.id l) -> (2 <= List.length l)%nat ->
  exists w0 rest,
    filter (fun w => negb (String.eqb (WalletData.id w) walletId)) l
    = w0 :: rest.
Proof.
  intros Hnd Hlen.
  destruct l as [|a [|b l]]; cbn in Hlen; try lia.
  cbn [filter].
  destruct (String.eqb_spec (WalletData.id a) walletId) as [Ea|Ea];
    cbn [negb]; [|eauto].
  destruct (String.eqb_spec (WalletData.id b) walletId) as [Eb|Eb];
    cbn [negb]; [|eauto].
  exfalso. cbn in Hnd. inversion Hnd as [|? ? Hx _]; subst.
  apply Hx. left. congruence.
Qed.

(** The transaction handlers rewrite wallets one by one and keep their
    identifiers and names. *)
Lemma submitToWallet_id s p w :
  WalletData.id (submitToWallet s p w) = WalletData.id w.
Proof. unfold submitToWallet. now destruct (id_eq _ _). Qed.

Lemma deleteFromWallet_id s id w :
  WalletData.id (deleteFromWallet s id w) = WalletData.id w.
Proof. unfold deleteFromWallet. now destruct (id_eq _ _). Qed.

Lemma submitToWallet_other s p w :
  id_eq (activeWalletId s) (WalletData.id w) = false ->
  submitToWallet s p w = w.
Proof. intros H. unfold submitToWallet. now rewrite H. Qed.

Lemma deleteFromWallet_other s id w :
  id_eq (activeWalletId s) (WalletData.id w) = false ->
  deleteFromWallet s id w = w.
Proof. intros H. unfold deleteFromWallet. now rewrite H. Qed.

Lemma handleSubmit_wallets uuid amountValue today s :
  wallets (handleSubmit uuid amountValue today s) = wallets s \/
  wallets (handleSubmit uuid amountValue today s)
  = map (submitToWallet s (payload uuid amountValue s)) (wallets s).
Proof.
  unfold handleSubmit. destruct (_ || _); [now left|right].
  now destruct (truthy_opt (editingId s)).
Qed.

Lemma handleSubmit_activeWalletId uuid amountValue today s :
  activeWalletId (handleSubmit uuid amountValue today s) = activeWalletId s.
Proof.
  unfold handleSubmit. destruct (_ || _); [reflexivity|].
  now destruct (truthy_opt (editingId s)).
Qed.

Lemma handleDelete_wallets id confirmed s :
  wallets (handleDelete id confirmed s)
  = if confirmed then map (deleteFromWallet s id) (wallets s) else wallets s.
Proof. unfold handleDelete. now destruct confirmed. Qed.

Lemma walletInvariant_map (f : WalletData.t -> WalletData.t) s s' :
  (forall w, WalletData.id (f w) = WalletData.id w) ->
  wallets s' = map f (wallets s) ->
  activeWalletId s' = activeWalletId s ->
  walletInvariant s -> walletInvariant s'.
Proof.
  intros Hf Hw Ha [Hnd [w [Hin Hact]]]. unfold walletInvariant, walletIds.
  rewrite Hw, Ha, map_map.
  rewrite (map_ext _ _ Hf). split; [exact Hnd|].
  exists (f w). split; [now apply in_map|]. now rewrite Hf.
Qed.

Lemma walletInvariant_same s s' :
  wallets s' = wallets s -> activeWalletId s' = activeWalletId s ->
  walletInvariant s -> walletInvariant s'.
Proof.
  intros Hw Ha. unfold walletInvariant, walletIds. now rewrite Hw, Ha.
Qed.

Lemma walletInvariant_mounted w0 rest savedTheme now today :
  NoDup (map WalletData.id (w0 :: rest)) ->
  walletInvariant (mountedState w0 rest savedTheme now today).
Proof.
  intros Hnd. split; [exact Hnd|].
  exists w0. split; [now left | reflexivity].
Qed.

Lemma walletInvariant_create uuid s :
  ~ In uuid (walletIds s) ->
  walletInvariant s -> walletInvariant (handleCreateWallet uuid s).
Proof.
  intros Hfresh Hinv. unfold handleCreateWallet.
  destruct (negb (truthy (trim (newWalletName s)))); [exact Hinv|].
  destruct Hinv as [Hnd _]. unfold walletInvariant, walletIds in *.
  cbn [wallets activeWalletId setIsCreatingWallet setNewWalletName
         setActiveWalletId setWallets WalletData.id].
  rewrite map_app. cbn [map WalletData.id]. split.
  - apply NoDup_app; [exact Hnd | repeat constructor; auto |].
    intros x Hx [<-|[]]. exact (Hfresh Hx).
  - eexists. split; [apply in_or_app; right; now left | reflexivity].
Qed.

Lemma walletInvariant_select id s :
  In id (walletIds s) ->
  walletInvariant s -> walletInvariant (setActiveWalletId (Some id) s).
Proof.
  intros Hin [Hnd _]. split; [exact Hnd|].
  apply in_map_iff in Hin as [w [E Hw]].
  exists w. split; [exact Hw|]. cbn. now rewrite E.
Qed.

Lemma walletInvariant_delete walletId confirmed s s' :
  stateOf (handleDeleteWallet walletId confirmed s) = Some s' ->
  walletInvariant s -> walletInvariant s'.
Proof.
  unfold handleDeleteWallet. intros H Hinv.
  destruct (List.length (wallets s) <=? 1)%nat;
    [cbn in H; congruence|].
  destruct confirmed; [|cbn in H; congruence].
  destruct Hinv as [Hnd [w [Hin Hact]]].
  pose proof (NoDup_ids_filter
                (fun w => negb (String.eqb (WalletData.id w) walletId))
                _ Hnd) as Hnd'.
  destruct (id_eq (activeWalletId s) walletId) eqn:Eact.
  - destruct (filter _ (wallets s)) as [|w0 rest] eqn:Ef;
      [discriminate|].
    cbn in H. injection H as <-. split; [exact Hnd'|].
    exists w0. split; [now left | reflexivity].
  - cbn in H. injection H as <-. split; [exact Hnd'|].
    exists w. split; [|exact Hact].
    cbn [wallets setWallets]. apply filter_In. split; [exact Hin|].
    apply negb_true_iff, String.eqb_neq. intros E.
    apply id_eq_false in Eact. congruence.
Qed.

Lemma perform_invariant tz a s s' :
  allowed a s ->
  stateOf (perform tz a s) = Some s' ->
  walletInvariant s -> walletInvariant s'.
Proof.
  intros Hal H Hinv.
  destruct a; cbn [perform stateOf] in H;
    try (injection H as <-);
    try (apply (walletInvariant_same s); [reflexivity | reflexivity | exact Hinv]).
  - now apply walletInvariant_create.
  - now apply walletInvariant_select.
  - eapply walletInvariant_delete; eauto.
  - destruct (handleSubmit_wallets uuid amountValue today s) as [E|E].
    + apply (walletInvariant_same s);
        [exact E | apply handleSubmit_activeWalletId | exact Hinv].
    + eapply (walletInvariant_map _ s);
        [apply submitToWallet_id | exact E
        | apply handleSubmit_activeWalletId | exact Hinv].
  - destruct confirmed.
    + eapply (walletInvariant_map _ s);
        [apply (deleteFromWallet_id s id) | reflexivity | reflexivity
        | exact Hinv].
    + exact Hinv.
  - apply (walletInvariant_same s); [| | exact Hinv];
      apply navigateTime_frame.
  - apply (walletInvariant_same s); [| | exact Hinv];
      unfold handleDayClick; now destruct (num_eq _ _).
Qed.

Lemma reachable_invariant tz s : reachable tz s -> walletInvariant s.
Proof.
  induction 1 as [uuid savedData parsed w0 rest savedTheme now today _ Hnd
                 | s a s' _ IH Hal Hstep].
  - now apply walletInvariant_mounted.
  - eapply perform_invariant; eauto.
Qed.

(** From a state of the application no handler throws: when the active
    wallet is deleted there is always a wallet left to make active. *)
Lemma perform_returns tz a s :
  reachable tz s -> exists s', stateOf (perform tz a s) = Some s'.
Proof.
  intros Hr. destruct (reachable_invariant tz s Hr) as [Hnd _].
  destruct a; cbn [perform stateOf]; eauto.
  unfold handleDeleteWallet.
  destruct (Nat.leb_spec (List.length (wallets s)) 1); cbn; eauto.
  destruct confirmed; cbn; eauto.
  destruct (id_eq (activeWalletId s) walletId); cbn; eauto.
  destruct (filter_other_ids_nonempty (wallets s) walletId Hnd ltac:(lia))
    as [w0 [rest E]].
  rewrite E. cbn. eauto.
Qed.
(** C1.  In every state of the application the wallet collection is not
    empty and the active identifier is that of a wallet of the
    collection.  Deleting a wallet when exactly one remains shows the
    notice and leaves the state as it was; deleting the active wallet
    (and confirming) when two or more remain removes it and makes the
    first wallet of what is left the active one. *)
Theorem C1_wallet_invariant (tz : Z) (s : State) :
  reachable tz s ->
  (wallets s <> [] /\
   exists w, In w (wallets s) /\ activeWalletId s = Some (WalletData.id w))
  /\ (forall walletId confirmed,
        List.length (wallets s) = 1%nat ->
        handleDeleteWallet walletId confirmed s
        = Alerted "You must have at least one wallet." s)
  /\ (forall walletId,
        activeWalletId s = Some walletId ->
        (2 <= List.length (wallets s))%nat ->
        exists w0 rest,
          filter (fun w => negb (String.eqb (WalletData.id w) walletId))
                 (wallets s) = w0 :: rest /\
          handleDeleteWallet walletId true s
          = Done (setActiveWalletId (Some (WalletData.id w0))
                    (setWallets (w0 :: rest) s))).
Proof.
  intros Hr. destruct (reachable_invariant tz s Hr) as [Hnd [w [Hin Hact]]].
  split; [|split].
  - split; [|eauto]. intros E. rewrite E in Hin. contradiction.
  - intros walletId confirmed Hlen. unfold handleDeleteWallet.
    now rewrite Hlen.
  - intros walletId Ha Hlen.
    destruct (filter_other_ids_nonempty _ walletId Hnd Hlen)
      as [w0 [rest Ef]].
    exists w0, rest. split; [exact Ef|].
    unfold handleDeleteWallet.
    destruct (Nat.leb_spec (List.length (wallets s)) 1); [lia|].
    rewrite (proj2 (id_eq_true _ _) Ha), Ef. reflexivity.
Qed.

End WalletFacts.

Lemma reachable_firstRun tz : reachable tz firstRun.
Proof.
  apply (reach_mount tz "w1" None None); [reflexivity|].
  repeat constructor. cbn. tauto.
Qed.

Lemma reachable_twoWallets tz : reachable tz twoWallets.
Proof.
  apply (reach_step tz _ (CreateWallet "w2") _
           (reach_step tz _ (TypeWalletName "Trip") _
              (reachable_firstRun tz) I eq_refl)); [|reflexivity].
  cbn. intros [H|[]]. discriminate.
Qed.

(** C1 at the state with the wallets "w1" and "w2", "w2" active. *)
Lemma C1_wallet_invariant_witness :
  reachable utcPlus8 twoWallets /\
  wallets twoWallets <> [] /\
  (exists w0 rest,
     filter (fun w => negb (String.eqb (WalletData.id w) "w2"))
            (wallets twoWallets) = w0 :: rest /\
     handleDeleteWallet "w2" true twoWallets
     = Done (setActiveWalletId (Some (WalletData.id w0))
               (setWallets (w0 :: rest) twoWallets))).
Proof.
  pose proof (C1_wallet_invariant utcPlus8 twoWallets
                (reachable_twoWallets utcPlus8)) as ((Hne & _) & _ & Hdel).
  split; [apply reachable_twoWallets|]. split; [exact Hne|].
  apply Hdel; [reflexivity | vm_compute; lia].
Defined.

(* ================================================================== *)
(** ** Text: white space and numbers *)
(* ================================================================== *)

Section TextFacts.

(** [trim] leaves nothing exactly of the blank strings. *)
Lemma trimStart_eq a r :
  trimStart (String a r)
  = if isWhiteSpace1 a then trimStart r
    else match r with
         | String b r2 =>
             if isWhiteSpace2 a b then trimStart r2
             else match r2 with
                  | String c r3 =>
                      if isWhiteSpace3 a b c then trimStart r3
                      else String a r
                  | EmptyString => String a r
                  end
         | EmptyString => String a r
         end.
Proof.
  destruct r as [|b [|c r3]]; cbn [trimStart];
    destruct (isWhiteSpace1 a); try reflexivity;
    destruct (isWhiteSpace2 a b); reflexivity.
Qed.

Lemma isBlank_eq a r :
  isBlank (String a r)
  = if isWhiteSpace1 a then isBlank r
    else match r with
         | String b r2 =>
             if isWhiteSpace2 a b then isBlank r2
             else match r2 with
                  | String c r3 =>
                      if isWhiteSpace3 a b c then isBlank r3 else false
                  | EmptyString => false
                  end
         | EmptyString => false
         end.
Proof.
  destruct r as [|b [|c r3]]; cbn [isBlank];
    destruct (isWhiteSpace1 a); try reflexivity;
    destruct (isWhiteSpace2 a b); reflexivity.
Qed.

Lemma trimStart_isBlank n : forall s,
  (String.length s <= n)%nat ->
  (trimStart s = ""%string <-> isBlank s = true) /\
  isBlank (trimStart s) = isBlank s.
Proof.
  induction n as [|n IH]; intros s Hn.
  - destruct s; [cbn; tauto | cbn in Hn; lia].
  - destruct s as [|a r]; [cbn; tauto|].
    cbn [String.length] in Hn.
    rewrite trimStart_eq, (isBlank_eq a r).
    destruct (isWhiteSpace1 a) eqn:E1; [apply IH; lia|].
    destruct r as [|b r2].
    + split; [split; discriminate|]. now rewrite isBlank_eq, E1.
    + cbn [String.length] in Hn.
      destruct (isWhiteSpace2 a b) eqn:E2; [apply IH; lia|].
      destruct r2 as [|c r3].
      * split; [split; discriminate|]. now rewrite isBlank_eq, E1, E2.
      * cbn [String.length] in Hn.
        destruct (isWhiteSpace3 a b c) eqn:E3; [apply IH; lia|].
        split; [split; discriminate|]. now rewrite isBlank_eq, E1, E2, E3.
Qed.

Lemma trimStart_empty s : trimStart s = ""%string <-> isBlank s = true.
Proof. exact (proj1 (trimStart_isBlank _ s (Nat.le_refl _))). Qed.

Lemma isBlank_trimStart s : isBlank (trimStart s) = isBlank s.
Proof. exact (proj2 (trimStart_isBlank _ s (Nat.le_refl _))). Qed.

Lemma trimEnd_empty s : trimEnd s = ""%string <-> isBlank s = true.
Proof.
  destruct s as [|a r]; [cbn; tauto|].
  cbn [trimEnd]. destruct (isBlank (String a r)); split;
    try reflexivity; discriminate.
Qed.

Lemma trim_empty s : truthy (trim s) = false <-> isBlank s = true.
Proof.
  rewrite <- (negb_involutive (truthy (trim s))).
  unfold truthy at 1. rewrite negb_involutive, negb_false_iff, String.eqb_eq.
  unfold trim. now rewrite trimEnd_empty, isBlank_trimStart.
Qed.

(** A string that begins with a sign, a point or a digit has no white
    space to skip. *)
Lemma trimStart_stays c r :
  (33 <= nat_of_ascii c < 128)%nat -> trimStart (String c r) = String c r.
Proof.
  intros H. rewrite trimStart_eq.
  assert (E1 : isWhiteSpace1 c = false).
  { unfold isWhiteSpace1. cbv zeta.
    destruct (Nat.leb_spec 9 (nat_of_ascii c)),
             (Nat.leb_spec (nat_of_ascii c) 13),
             (Nat.eqb_spec (nat_of_ascii c) 32); cbn; try reflexivity; lia. }
  assert (E2 : forall b, isWhiteSpace2 c b = false).
  { intros b. unfold isWhiteSpace2.
    destruct (Nat.eqb_spec (nat_of_ascii c) 194); [lia | reflexivity]. }
  assert (E3 : forall b d, isWhiteSpace3 c b d = false).
  { intros b d. unfold isWhiteSpace3. cbv zeta.
    destruct (Nat.eqb_spec (nat_of_ascii c) 225); [lia|].
    destruct (Nat.eqb_spec (nat_of_ascii c) 226); [lia|].
    destruct (Nat.eqb_spec (nat_of_ascii c) 227); [lia|].
    destruct (Nat.eqb_spec (nat_of_ascii c) 239); [lia|]. reflexivity. }
  rewrite E1. destruct r as [|b [|d r3]]; rewrite ?E2, ?E3; reflexivity.
Qed.

Lemma digit_code c d :
  JSDate.digit c = Some d -> (48 <= nat_of_ascii c <= 57)%nat.
Proof.
  unfold JSDate.digit. cbv zeta.
  destruct (Z.leb_spec 48 (Z.of_nat (nat_of_ascii c))),
           (Z.leb_spec (Z.of_nat (nat_of_ascii c)) 57); cbn;
    try discriminate. lia.
Qed.

(** How many digits [readDigits] reads, and what it leaves, do not depend
    on the number read so far. *)
Lemma readDigits_count s : forall acc count acc' count',
  snd (fst (readDigits s acc count)) - count
  = snd (fst (readDigits s acc' count')) - count' /\
  snd (readDigits s acc count) = snd (readDigits s acc' count').
Proof.
  induction s as [|c r IH]; intros acc count acc' count'.
  - cbn. split; [lia | reflexivity].
  - cbn [readDigits]. destruct (JSDate.digit c) as [d|].
    + destruct (IH (10 * acc + d) (count + 1) (10 * acc' + d) (count' + 1))
        as [H1 H2].
      split; [lia | exact H2].
    + cbn. split; [lia | reflexivity].
Qed.

(** The body of [validFloatingPointNumber], after the sign. *)
Lemma readUnsigned_valid s :
  (let '(_, ni, s1) := readDigits s 0 0 in
   match s1 with
   | String c r =>
       if Ascii.eqb c "." then
         let '(_, nf, s2) := readDigits r 0 0 in
         (0 <? nf) && validExponentOrEnd s2
       else (0 <? ni) && validExponentOrEnd s1
   | EmptyString => 0 <? ni
   end) = true ->
  readUnsigned s <> None.
Proof.
  unfold readUnsigned.
  destruct (readDigits s 0 0) as [[i ni] s1].
  assert (Hend : forall (m nf : Z) (s2 : string),
            (ni =? 0) && (nf =? 0) = false ->
            (if (ni =? 0) && (nf =? 0) then None
             else match readExponent s2 with
                  | Some (e, rest) => Some (m, e - nf, rest)
                  | None => Some (m, - nf, s2)
                  end) <> None).
  { intros m nf s2 ->. destruct (readExponent s2) as [[e rest]|];
      discriminate. }
  destruct s1 as [|c r].
  - intros H. apply Hend. apply Z.ltb_lt in H.
    destruct (Z.eqb_spec ni 0); [lia | reflexivity].
  - destruct (Ascii.eqb c ".").
    + pose proof (readDigits_count r 0 0 i 0) as [Hc _].
      destruct (readDigits r 0 0) as [[x nf] s2].
      destruct (readDigits r i 0) as [[m nf'] r'].
      cbn [fst snd] in Hc. intros H.
      apply andb_true_iff in H as [H _]. apply Z.ltb_lt in H.
      assert (Hnf : 0 < nf') by lia.
      rewrite (proj2 (Z.ltb_lt 0 nf') Hnf), orb_true_r.
      apply Hend. destruct (Z.eqb_spec nf' 0); [lia|].
      apply andb_false_r.
    + intros H. apply andb_true_iff in H as [H _]. apply Z.ltb_lt in H.
      apply Hend. destruct (Z.eqb_spec ni 0); [lia | reflexivity].
Qed.

(** Rounding gives a number: [binary_normalize] and [SF2Prim] never make a
    NaN. *)
Lemma shr_1_nonneg mrs :
  0 <= SpecFloat.shr_m mrs -> 0 <= SpecFloat.shr_m (SpecFloat.shr_1 mrs).
Proof.
  destruct mrs as [m r s]. cbn.
  destruct m as [|[p|p|]|[p|p|]]; cbn; lia.
Qed.

Lemma iter_shr_1_nonneg p : forall mrs,
  0 <= SpecFloat.shr_m mrs ->
  0 <= SpecFloat.shr_m (SpecFloat.iter_pos SpecFloat.shr_1 p mrs).
Proof.
  induction p as [p IH|p IH|]; intros mrs H; cbn.
  - apply IH, IH. now apply shr_1_nonneg.
  - now apply IH, IH.
  - now apply shr_1_nonneg.
Qed.

Lemma shr_fexp_nonneg prec emax m e l :
  0 <= m ->
  0 <= SpecFloat.shr_m (fst (SpecFloat.shr_fexp prec emax m e l)).
Proof.
  intros H. unfold SpecFloat.shr_fexp, SpecFloat.shr.
  assert (H0 : 0 <= SpecFloat.shr_m (SpecFloat.shr_record_of_loc m l)).
  { destruct l as [|[]]; exact H. }
  destruct (_ - e); cbn [fst]; try exact H0.
  now apply iter_shr_1_nonneg.
Qed.

Lemma round_nearest_even_nonneg m l :
  0 <= m -> 0 <= SpecFloat.round_nearest_even m l.
Proof.
  intros H. unfold SpecFloat.round_nearest_even.
  destruct l as [|[]]; try lia. destruct (Z.even m); lia.
Qed.

Lemma binary_round_aux_number prec emax sx mx ex lx :
  0 <= mx ->
  SpecFloat.binary_round_aux prec emax sx mx ex lx <> SpecFloat.S754_nan.
Proof.
  intros H. unfold SpecFloat.binary_round_aux.
  pose proof (shr_fexp_nonneg prec emax mx ex lx H) as H1.
  destruct (SpecFloat.shr_fexp prec emax mx ex lx) as [mrs' e'].
  cbn [fst] in H1.
  pose proof (shr_fexp_nonneg prec emax _ e' SpecFloat.loc_Exact
                (round_nearest_even_nonneg _
                   (SpecFloat.loc_of_shr_record mrs') H1)) as H2.
  destruct (SpecFloat.shr_fexp prec emax _ e' SpecFloat.loc_Exact)
    as [mrs'' e''].
  cbn [fst] in H2.
  destruct (SpecFloat.shr_m mrs'') as [|m|m]; try discriminate.
  - destruct (_ <=? _); discriminate.
  - lia.
Qed.

Lemma binary_round_number prec emax sx mx ex :
  SpecFloat.binary_round prec emax sx mx ex <> SpecFloat.S754_nan.
Proof.
  unfold SpecFloat.binary_round.
  destruct (SpecFloat.shl_align _ _ _) as [mz ez].
  apply binary_round_aux_number. lia.
Qed.

Lemma binary_normalize_number prec emax m e szero :
  SpecFloat.binary_normalize prec emax m e szero <> SpecFloat.S754_nan.
Proof.
  unfold SpecFloat.binary_normalize.
  destruct m; try discriminate; apply binary_round_number.
Qed.

Lemma SF2Prim_number x :
  x <> SpecFloat.S754_nan ->
  FloatOps.Prim2SF (FloatOps.SF2Prim x) <> SpecFloat.S754_nan.
Proof.
  intros Hx. destruct x as [[|]|[|]| |s m e]; try (vm_compute; discriminate).
  - now contradiction Hx.
  - unfold FloatOps.SF2Prim. cbv zeta.
    assert (H : FloatOps.Prim2SF
                  (FloatOps.Z.ldexp
                     (PrimFloat.of_uint63 (Uint63Axioms.of_Z (Z.pos m))) e)
                <> SpecFloat.S754_nan).
    { unfold FloatOps.Z.ldexp. cbv zeta.
      rewrite FloatAxioms.ldshiftexp_spec, FloatAxioms.of_uint63_spec.
      unfold SpecFloat.SFldexp.
      pose proof (binary_normalize_number FloatOps.prec FloatOps.emax
                    (Uint63Axioms.to_Z (Uint63Axioms.of_Z (Z.pos m))) 0
                    false) as Hn.
      destruct (SpecFloat.binary_normalize _ _ _ _ _); try discriminate.
      - now contradiction Hn.
      - apply binary_round_number. }
    destruct s; [|exact H].
    rewrite FloatAxioms.opp_spec.
    destruct (FloatOps.Prim2SF _); try discriminate. now contradiction H.
Qed.

Lemma opp_number v :
  FloatOps.Prim2SF v <> SpecFloat.S754_nan ->
  FloatOps.Prim2SF (PrimFloat.opp v) <> SpecFloat.S754_nan.
Proof.
  intros H. rewrite FloatAxioms.opp_spec.
  destruct (FloatOps.Prim2SF v); try discriminate. now contradiction H.
Qed.

Lemma decimalToNumber_number negative m e :
  FloatOps.Prim2SF (decimalToNumber negative m e) <> SpecFloat.S754_nan.
Proof.
  unfold decimalToNumber. cbv zeta.
  assert (H : forall x y,
            FloatOps.Prim2SF
              (FloatOps.SF2Prim
                 (SpecFloat.binary_normalize FloatOps.prec FloatOps.emax
                    x y false)) <> SpecFloat.S754_nan).
  { intros x y. apply SF2Prim_number, binary_normalize_number. }
  destruct (0 <=? e), negative; try apply opp_number; apply H.
Qed.

(** A number that is not below 0 is 0 or more. *)
Lemma number_not_below_zero v :
  FloatOps.Prim2SF v <> SpecFloat.S754_nan ->
  PrimFloat.ltb v 0 = false -> PrimFloat.leb 0 v = true.
Proof.
  intros Hn. rewrite FloatAxioms.ltb_spec, FloatAxioms.leb_spec.
  replace (FloatOps.Prim2SF 0) with (SpecFloat.S754_zero false)
    by (vm_compute; reflexivity).
  unfold SpecFloat.SFltb, SpecFloat.SFleb.
  destruct (FloatOps.Prim2SF v) as [s|s| |s m e]; cbn;
    try (destruct s; cbn; congruence).
  now contradiction Hn.
Qed.

(** [parseFloat] reads a number in every valid floating-point number. *)
Lemma parseFloat_number text :
  validFloatingPointNumber text = true ->
  FloatOps.Prim2SF (parseFloat text) <> SpecFloat.S754_nan.
Proof.
  intros Hv.
  assert (Hread : forall (negative : bool) (s : string),
            readUnsigned s <> None ->
            FloatOps.Prim2SF
              (if String.prefix "Infinity" s
               then if negative then PrimFloat.neg_infinity
                    else PrimFloat.infinity
               else match readUnsigned s with
                    | Some (m, e, _) => decimalToNumber negative m e
                    | None => PrimFloat.nan
                    end) <> SpecFloat.S754_nan).
  { intros negative s Hs. destruct (String.prefix "Infinity" s).
    - destruct negative; vm_compute; discriminate.
    - destruct (readUnsigned s) as [[[m e] rest]|]; [|now contradiction Hs].
      apply decimalToNumber_number. }
  unfold validFloatingPointNumber in Hv. unfold parseFloat.
  destruct text as [|c r]; [discriminate Hv|].
  destruct (Ascii.eqb c "-") eqn:Em.
  - apply Ascii.eqb_eq in Em. subst c.
    rewrite trimStart_stays by (cbn; lia).
    apply (Hread true r). now apply readUnsigned_valid.
  - assert (Hc : (48 <= nat_of_ascii c <= 57)%nat \/ c = "."%char).
    { cbn [readDigits] in Hv.
      destruct (JSDate.digit c) as [d|] eqn:Ed;
        [left; exact (digit_code c d Ed)|].
      right. destruct (Ascii.eqb c ".") eqn:Ep;
        [now apply Ascii.eqb_eq in Ep | discriminate Hv]. }
    assert (Hp : Ascii.eqb c "+" = false).
    { apply Ascii.eqb_neq. intros ->. destruct Hc as [Hc|Hc];
        [cbn in Hc; lia | discriminate Hc]. }
    rewrite trimStart_stays
      by (destruct Hc as [Hc| ->]; [lia | cbn; lia]).
    unfold readSign. rewrite Em, Hp.
    apply (Hread false (String c r)). now apply readUnsigned_valid.
Qed.

End TextFacts.

(* ================================================================== *)
(** ** Transactions *)
(* ================================================================== *)

Section TransactionFacts.

Lemma handleSubmit_rejected uuid amountValue today s :
  rejected s -> handleSubmit uuid amountValue today s = s.
Proof.
  intros H. unfold handleSubmit.
  assert (E : negb (truthy (description s)) || negb (truthy (amount s))
              || negb (truthy (date s))
              || negb (truthy_opt (activeWalletId s)) = true).
  { destruct H as [H|[H|[H|H]]].
    - apply truthy_false in H. rewrite H. reflexivity.
    - apply truthy_false in H. rewrite H. apply orb_true_iff. left.
      apply orb_true_iff. left. apply orb_true_r.
    - apply truthy_false in H. rewrite H. apply orb_true_iff. left.
      apply orb_true_r.
    - rewrite H. apply orb_true_r. }
  now rewrite E.
Qed.

Lemma handleSubmit_accepted uuid amountValue today s :
  accepted s ->
  wallets (handleSubmit uuid amountValue today s)
  = map (submitToWallet s (payload uuid amountValue s)) (wallets s).
Proof.
  intros (Hd & Ha & Hdt & Hw). unfold handleSubmit.
  apply truthy_true in Hd, Ha, Hdt. rewrite Hd, Ha, Hdt, Hw.
  cbn [negb orb]. now destruct (truthy_opt (editingId s)).
Qed.

Lemma rejected_or_accepted s : rejected s \/ accepted s.
Proof.
  unfold rejected, accepted.
  destruct (String.eqb_spec (description s) ""%string); [tauto|].
  destruct (String.eqb_spec (amount s) ""%string); [tauto|].
  destruct (String.eqb_spec (date s) ""%string); [tauto|].
  destruct (truthy_opt (activeWalletId s)); tauto.
Qed.

(** What the amount field holds is the amount text or nothing. *)
Lemma numberFieldValue_cases text :
  (numberFieldValue text = text /\ validFloatingPointNumber text = true) \/
  (numberFieldValue text = ""%string /\
   validFloatingPointNumber text = false).
Proof.
  unfold numberFieldValue. destruct (validFloatingPointNumber text); tauto.
Qed.

Lemma validFloatingPointNumber_nonempty text :
  validFloatingPointNumber text = true -> text <> ""%string.
Proof. intros H ->. discriminate. Qed.

(** The submissions the browser lets through. *)
Lemma suffersFromConstraint_false otherInvalid s :
  suffersFromConstraint otherInvalid s = false <->
  description s <> ""%string /\
  validFloatingPointNumber (amount s) = true /\
  PrimFloat.ltb (parseFloat (amount s)) 0 = false /\
  date s <> ""%string /\ otherInvalid = false.
Proof.
  unfold suffersFromConstraint.
  rewrite !orb_false_iff, !negb_false_iff, !truthy_true.
  destruct (numberFieldValue_cases (amount s)) as [(E & Hv)|(E & Hn)];
    rewrite E.
  - pose proof (validFloatingPointNumber_nonempty _ Hv). tauto.
  - split; [tauto|]. intros (_ & Hv & _). congruence.
Qed.

(** C8.  A submission of the transaction form (add or edit) with an empty
    description, with an amount text that is missing or is not a number,
    or with a missing date is a no-op: the state after it is the state
    before, so no transaction, and no part of one, is created.  So is a
    submission whose amount reads as a number below 0.  The handler's own
    guard returns at once on an empty description, amount text or date;
    that the amount text is a number, and not one below 0, is what the
    amount field, a number field with minimum 0, lets through to the
    handler.  Whenever a submission changes the state, the transaction
    written has the description, type, date and category of the form, a
    description and a date that are not empty, and as amount the number
    [parseFloat] reads in the amount text, which is a valid number text;
    that amount is a number, 0 or more. *)
Theorem C8_invalid_submission_rejected (otherInvalid : bool)
    (uuid today : string) (s : State) :
  let s' := submitForm otherInvalid uuid today s in
  let value := parseFloat (amount s) in
  let p := payload uuid value s in
  (description s = ""%string \/ amount s = ""%string \/
   validFloatingPointNumber (amount s) = false \/ date s = ""%string ->
   s' = s) /\
  (PrimFloat.ltb value 0 = true -> s' = s) /\
  (forall amountValue,
     rejected s -> handleSubmit uuid amountValue today s = s) /\
  (s' <> s ->
   wallets s' = map (submitToWallet s p) (wallets s) /\
   p = Transaction.mk (Transaction.id p) (description s) value (type s)
         (date s) (category s) /\
   description s <> ""%string /\ date s <> ""%string /\
   validFloatingPointNumber (amount s) = true /\
   PrimFloat.leb 0 value = true).
Proof.
  cbv zeta. unfold submitForm.
  destruct (suffersFromConstraint otherInvalid s) eqn:E.
  - split; [reflexivity|]. split; [reflexivity|].
    split; [intros v; apply handleSubmit_rejected|].
    intros H. now contradiction H.
  - apply suffersFromConstraint_false in E as (Hd & Hv & Hn & Hdt & _).
    pose proof (validFloatingPointNumber_nonempty _ Hv) as Ha.
    split; [intros [H|[H|[H|H]]]; congruence|].
    split; [congruence|].
    split; [intros v; apply handleSubmit_rejected|].
    intros Hch.
    destruct (rejected_or_accepted s) as [Hr|Hacc].
    + contradiction Hch. now apply handleSubmit_rejected.
    + split; [now apply handleSubmit_accepted|].
      repeat split; try assumption.
      apply number_not_below_zero; [|exact Hn].
      now apply parseFloat_number.
Qed.

(** C8 at four submissions: the amount texts "abc" and "-5" and an empty
    description, which change nothing, and a complete form with the amount
    text "12.5". *)
Lemma C8_invalid_submission_rejected_witness :
  let blank := sampleState [mainWallet] (Some "w1"%string) Daily 0 None in
  let letters := fillForm "Lunch" "abc" "2024-03-10" blank in
  let negative := fillForm "Refund" "-5" "2024-03-10" blank in
  let filled := fillForm "Lunch" "12.5" "2024-03-10" blank in
  submitForm false "t9" "2024-03-11" letters = letters /\
  submitForm false "t9" "2024-03-11" negative = negative /\
  submitForm false "t9" "2024-03-11" blank = blank /\
  wallets (submitForm false "t9" "2024-03-11" filled)
  = [WalletData.mk "w1" "Main Wallet"
       [Transaction.mk "t9" "Lunch" 12.5 Expense "2024-03-10" "General"]].
Proof.
  cbv zeta. split; [|split; [|split]].
  - refine (proj1 (C8_invalid_submission_rejected false "t9" "2024-03-11"
                     _) _).
    right. right. left. reflexivity.
  - refine (proj1 (proj2 (C8_invalid_submission_rejected false "t9"
                            "2024-03-11" _)) _).
    reflexivity.
  - refine (proj1 (C8_invalid_submission_rejected false "t9" "2024-03-11"
                     _) _).
    left. reflexivity.
  - destruct (C8_invalid_submission_rejected false "t9" "2024-03-11"
                (fillForm "Lunch" "12.5" "2024-03-10"
                   (sampleState [mainWallet] (Some "w1"%string)
                      Daily 0 None))) as (_ & _ & _ & H).
    destruct H as [H _]; [|rewrite H; reflexivity].
    intros E. apply (f_equal description) in E. vm_compute in E.
    discriminate E.
Defined.

End TransactionFacts.

Section TransactionFrame.

Lemma nth_error_map_same {A} (f : A -> A) l i x :
  nth_error l i = Some x -> f x = x -> nth_error (map f l) i = Some x.
Proof.
  intros H E. rewrite nth_error_map, H. cbn. now rewrite E.
Qed.

Lemma map_same {A} (f : A -> A) l :
  (forall x, In x l -> f x = x) -> map f l = l.
Proof.
  intros H. rewrite <- (map_id l) at 2. now apply map_ext_in.
Qed.

Lemma filter_all {A} (p : A -> bool) l :
  (forall x, In x l -> p x = true) -> filter p l = l.
Proof.
  induction l as [|x l IH]; intros H; [reflexivity|].
  cbn. rewrite (H x (or_introl eq_refl)). f_equal.
  apply IH. intros y Hy. apply H. now right.
Qed.

(** In edit mode the transaction built carries the edited identifier. *)
Lemma payload_id_editing uuid amountValue s eid :
  editingId s = Some eid -> eid <> ""%string ->
  Transaction.id (payload uuid amountValue s) = eid.
Proof.
  intros E Hne. unfold payload. cbn [Transaction.id]. rewrite E.
  now rewrite (proj2 (truthy_true eid) Hne).
Qed.

(** Replacing by identifier keeps the list of identifiers as it is. *)
Lemma replace_keeps_ids eid p l :
  Transaction.id p = eid ->
  map Transaction.id
    (map (fun t => if String.eqb (Transaction.id t) eid then p else t) l)
  = map Transaction.id l.
Proof.
  intros Hp. rewrite map_map. apply map_ext. intros t.
  destruct (String.eqb_spec (Transaction.id t) eid); congruence.
Qed.

Lemma submitToWallet_editing s p w eid :
  editingId s = Some eid -> eid <> ""%string ->
  id_eq (activeWalletId s) (WalletData.id w) = true ->
  submitToWallet s p w
  = WalletData.mk (WalletData.id w) (WalletData.name w)
      (map (fun t => if String.eqb (Transaction.id t) eid then p else t)
           (WalletData.transactions w)).
Proof.
  intros E Hne Hact. unfold submitToWallet. rewrite Hact, E.
  cbn [truthy_opt id_eq]. rewrite (proj2 (truthy_true eid) Hne).
  f_equal. apply map_ext. intros t. now rewrite String.eqb_sym.
Qed.

(** C9.  [handleSubmit] (adding, or updating when [editingId] is set) and
    [handleDelete] leave every wallet whose identifier is not the active
    one exactly as it was, at its place in the collection.  An update
    builds its transaction with the identifier being edited, whatever
    fresh identifier the platform would have offered; in each wallet
    carrying the active identifier, the entries with that identifier are
    replaced where they stand, so the collection keeps its length and its
    sequence of identifiers: nothing is duplicated. *)
Theorem C9_mutations_frame (s : State) :
  (forall uuid amountValue today i w,
     nth_error (wallets s) i = Some w ->
     id_eq (activeWalletId s) (WalletData.id w) = false ->
     nth_error (wallets (handleSubmit uuid amountValue today s)) i = Some w)
  /\ (forall id confirmed i w,
        nth_error (wallets s) i = Some w ->
        id_eq (activeWalletId s) (WalletData.id w) = false ->
        nth_error (wallets (handleDelete id confirmed s)) i = Some w)
  /\ (forall uuid amountValue today eid,
        editingId s = Some eid -> eid <> ""%string -> accepted s ->
        let p := payload uuid amountValue s in
        let replace := fun t =>
                         if String.eqb (Transaction.id t) eid then p else t in
        Transaction.id p = eid /\
        (forall i w,
           nth_error (wallets s) i = Some w ->
           id_eq (activeWalletId s) (WalletData.id w) = true ->
           nth_error (wallets (handleSubmit uuid amountValue today s)) i
           = Some (WalletData.mk (WalletData.id w) (WalletData.name w)
                     (map replace (WalletData.transactions w))) /\
           List.length (map replace (WalletData.transactions w))
           = List.length (WalletData.transactions w) /\
           map Transaction.id (map replace (WalletData.transactions w))
           = map Transaction.id (WalletData.transactions w))).
Proof.
  split; [|split].
  - intros uuid amountValue today i w Hi Hother.
    destruct (handleSubmit_wallets uuid amountValue today s) as [E|E];
      rewrite E; [exact Hi|].
    apply nth_error_map_same; [exact Hi|].
    now apply submitToWallet_other.
  - intros id confirmed i w Hi Hother.
    rewrite handleDelete_wallets. destruct confirmed; [|exact Hi].
    apply nth_error_map_same; [exact Hi|].
    now apply deleteFromWallet_other.
  - intros uuid amountValue today eid He Hne Hacc p replace.
    pose proof (payload_id_editing uuid amountValue s eid He Hne) as Hp.
    split; [exact Hp|].
    intros i w Hi Hact. split; [|split].
    + rewrite (handleSubmit_accepted _ _ _ _ Hacc), nth_error_map, Hi.
      cbn [option_map]. f_equal.
      now apply submitToWallet_editing.
    + apply length_map.
    + now apply replace_keeps_ids.
Qed.

(** C9 at the state where "w2" is active and its transaction "t1" is being
    edited, the amount typed being 45: wallet "w1" is untouched and "t1"
    is replaced in "w2". *)
Lemma C9_mutations_frame_witness :
  let s := setAmount "45" editingT1 in
  nth_error (wallets (handleSubmit "u" 45 "2024-03-12" s)) 0
  = Some mainWallet /\
  nth_error (wallets (handleDelete "t1" true s)) 0 = Some mainWallet /\
  nth_error (wallets (handleSubmit "u" 45 "2024-03-12" s)) 1
  = Some (WalletData.mk "w2" "Trip"
            [sampleTx "t1" 45 Expense "2024-03-10";
             sampleTx "t2" 100 Income "2024-03-11"]).
Proof.
  cbv zeta.
  pose proof (C9_mutations_frame (setAmount "45" editingT1))
    as (Hsub & Hdel & Hupd).
  split; [|split].
  - apply Hsub; reflexivity.
  - apply Hdel; reflexivity.
  - destruct (Hupd "u"%string 45%float "2024-03-12"%string "t1"%string)
      as [_ H]; [reflexivity | discriminate | repeat split; discriminate |].
    destruct (H 1%nat tripWallet) as [E _]; [reflexivity | reflexivity |].
    exact E.
Defined.

(** An identifier that matches nothing: the map replaces nothing and the
    filter removes nothing, so both handlers give back the wallets they
    were given. *)
Lemma unmatched_id_by_wallet (s : State) (id : string) :
  (forall w t,
     In w (wallets s) ->
     id_eq (activeWalletId s) (WalletData.id w) = true ->
     In t (WalletData.transactions w) -> Transaction.id t <> id) ->
  (forall confirmed, wallets (handleDelete id confirmed s) = wallets s)
  /\ (forall uuid amountValue today,
        editingId s = Some id -> id <> ""%string ->
        wallets (handleSubmit uuid amountValue today s) = wallets s).
Proof.
  intros Hno. split.
  - intros confirmed. rewrite handleDelete_wallets.
    destruct confirmed; [|reflexivity].
    apply map_same. intros w Hw. unfold deleteFromWallet.
    destruct (id_eq (activeWalletId s) (WalletData.id w)) eqn:Hact;
      [|reflexivity].
    destruct w as [wid wname txs]. cbn [WalletData.id WalletData.name
                                          WalletData.transactions] in *.
    f_equal. apply filter_all. intros t Ht.
    apply negb_true_iff, String.eqb_neq. exact (Hno _ t Hw Hact Ht).
  - intros uuid amountValue today He Hne.
    destruct (handleSubmit_wallets uuid amountValue today s) as [E|E];
      rewrite E; [reflexivity|].
    apply map_same. intros w Hw.
    destruct (id_eq (activeWalletId s) (WalletData.id w)) eqn:Hact;
      [|now apply submitToWallet_other].
    rewrite (submitToWallet_editing s _ w id He Hne Hact).
    destruct w as [wid wname txs]. cbn [WalletData.id WalletData.name
                                          WalletData.transactions] in *.
    f_equal. apply map_same. intros t Ht.
    destruct (String.eqb_spec (Transaction.id t) id) as [Eq|]; [|reflexivity].
    now destruct (Hno _ t Hw Hact Ht).
Qed.

(** With distinct wallet identifiers, the wallets carrying the active
    identifier are the one wallet [activeWallet] finds, and their
    transactions are the derived [transactions]. *)
Lemma activeWallet_unique s w :
  NoDup (walletIds s) -> In w (wallets s) ->
  id_eq (activeWalletId s) (WalletData.id w) = true ->
  activeWallet s = Some w.
Proof.
  intros Hnd Hw Hact. unfold activeWallet.
  destruct (find _ (wallets s)) as [a|] eqn:Ef.
  - apply find_some in Ef as [Ha Eact]. f_equal.
    apply (NoDup_ids_inj (wallets s)); auto.
    apply id_eq_true in Hact, Eact. congruence.
  - apply (find_none _ _ Ef) in Hw. congruence.
Qed.

(** C10.  For every wallet collection and active wallet identifier: when
    no transaction of the active wallet (the wallets carrying the active
    identifier, which the handlers rewrite) has the given identifier,
    deleting that identifier (confirmed or not) and submitting an update
    of it return a wallet collection equal to the one they were given:
    the map replaces nothing and the filter removes nothing. *)
Theorem C10_unmatched_id (s : State) (id : string) :
  (forall w t,
     In w (wallets s) ->
     id_eq (activeWalletId s) (WalletData.id w) = true ->
     In t (WalletData.transactions w) -> Transaction.id t <> id) ->
  (forall confirmed, wallets (handleDelete id confirmed s) = wallets s)
  /\ (forall uuid amountValue today,
        editingId s = Some id -> id <> ""%string ->
        wallets (handleSubmit uuid amountValue today s) = wallets s).
Proof. exact (unmatched_id_by_wallet s id). Qed.

(** The same on the derived values of the component: with distinct wallet
    identifiers, it is enough that no transaction of [transactions] (those
    of the wallet [activeWallet] finds) has the given identifier. *)
Lemma unmatched_id_in_transactions (s : State) (id : string) :
  NoDup (walletIds s) ->
  (forall t, In t (transactions s) -> Transaction.id t <> id) ->
  (forall confirmed, wallets (handleDelete id confirmed s) = wallets s)
  /\ (forall uuid amountValue today,
        editingId s = Some id -> id <> ""%string ->
        wallets (handleSubmit uuid amountValue today s) = wallets s).
Proof.
  intros Hnd Hno. apply unmatched_id_by_wallet.
  intros w t Hw Hact Ht. apply Hno.
  unfold transactions. now rewrite (activeWallet_unique s w Hnd Hw Hact).
Qed.


(** C10 at the state where "w2" is active, for the identifier "t7" that
    none of its transactions has. *)
Lemma C10_unmatched_id_witness :
  wallets (handleDelete "t7" true tripActive) = wallets tripActive /\
  wallets (handleSubmit "u" 45 "2024-03-12"
             (fillForm "Lunch" "45" "2024-03-10"
                (setEditingId (Some "t7"%string) tripActive)))
  = wallets tripActive.
Proof.
  assert (Hno : forall w t,
            In w [mainWallet; tripWallet] ->
            id_eq (Some "w2"%string) (WalletData.id w) = true ->
            In t (WalletData.transactions w) ->
            Transaction.id t <> "t7"%string).
  { intros w t [<-|[<-|[]]] Hact; [discriminate|].
    cbn. intros [<-|[<-|[]]]; discriminate. }
  split.
  - apply (C10_unmatched_id tripActive "t7" Hno).
  - apply (C10_unmatched_id
             (fillForm "Lunch" "45" "2024-03-10"
                (setEditingId (Some "t7"%string) tripActive)) "t7" Hno);
      [reflexivity | discriminate].
Defined.

End TransactionFrame.

(* ================================================================== *)
(** ** The history list *)
(* ================================================================== *)

Section HistoryList.

Import JSDate JSDateFacts LocalTimeFacts.

Lemma insertByDate_perm x l : Permutation (insertByDate x l) (x :: l).
Proof.
  induction l as [|y r IH]; cbn; [reflexivity|].
  destruct (newestFirst x y <=? 0); [reflexivity|].
  rewrite IH. apply perm_swap.
Qed.

Lemma sortedForDisplay_perm l : Permutation (sortedForDisplay l) l.
Proof.
  induction l as [|x l IH]; cbn; [reflexivity|].
  rewrite insertByDate_perm. now constructor.
Qed.

(** The comparator puts one element after another only when both dates
    parse and the first is strictly older. *)
Lemma newestFirst_pos a b :
  0 < newestFirst a b ->
  exists ta tb, timeOf a = Some ta /\ timeOf b = Some tb /\ ta < tb.
Proof.
  unfold newestFirst.
  destruct (timeOf b) as [tb|], (timeOf a) as [ta|]; try lia.
  intros H. exists ta, tb. repeat split. lia.
Qed.

(** Insertion keeps the order among the transactions of one date. *)
Lemma insertByDate_stable k x l :
  filter (fun t => num_eq (timeOf t) k) (insertByDate x l)
  = filter (fun t => num_eq (timeOf t) k) (x :: l).
Proof.
  induction l as [|y r IH]; [reflexivity|].
  cbn [insertByDate].
  destruct (Z.leb_spec (newestFirst x y) 0) as [Hle|Hgt]; [reflexivity|].
  apply newestFirst_pos in Hgt as (ta & tb & Ea & Eb & Hlt).
  cbn [filter] in *. rewrite IH, Ea, Eb. cbn [num_eq].
  destruct (Z.eqb_spec ta k), (Z.eqb_spec tb k); try reflexivity. lia.
Qed.

Lemma insertByDate_sorted x l :
  (exists tx, timeOf x = Some tx) ->
  Forall (fun t => exists tt, timeOf t = Some tt) l ->
  StronglySorted notOlder l ->
  StronglySorted notOlder (insertByDate x l).
Proof.
  intros [tx Ex] Hv Hs.
  induction Hs as [|y r Hs IH Hy]; cbn.
  - repeat constructor.
  - inversion Hv as [|? ? [ty Ey] Hv']; subst.
    unfold newestFirst at 1. rewrite Ey, Ex.
    destruct (Z.leb_spec (ty - tx) 0) as [Hle|Hgt].
    + constructor; [now constructor|].
      constructor.
      * exists tx, ty. repeat split; auto. lia.
      * rewrite Forall_forall in Hy |- *. intros z Hz.
        destruct (Hy z Hz) as (ty' & tz & Ey' & Ez & Hle').
        exists tx, tz. repeat split; auto.
        assert (ty' = ty) by congruence. lia.
    + constructor; [now apply IH|].
      rewrite Forall_forall in Hy |- *. intros z Hz.
      apply (Permutation_in _ (insertByDate_perm x r)) in Hz.
      destruct Hz as [<-|Hz]; [|now apply Hy].
      exists ty, tx. repeat split; auto. lia.
Qed.

Lemma sortedForDisplay_sorted l :
  Forall (fun t => exists tt, timeOf t = Some tt) l ->
  StronglySorted notOlder (sortedForDisplay l).
Proof.
  induction 1 as [|x l Hx Hl IH]; cbn; [constructor|].
  apply insertByDate_sorted; auto.
  rewrite Forall_forall in Hl |- *. intros z Hz. apply Hl.
  now apply (Permutation_in _ (sortedForDisplay_perm l)).
Qed.

Lemma sortedForDisplay_stable k l :
  filter (fun t => num_eq (timeOf t) k) (sortedForDisplay l)
  = filter (fun t => num_eq (timeOf t) k) l.
Proof.
  induction l as [|x l IH]; [reflexivity|].
  cbn [sortedForDisplay fold_right]. rewrite insertByDate_stable.
  cbn [filter]. fold (sortedForDisplay l). now rewrite IH.
Qed.

(** Whatever passes the period filter has a date that parses. *)
Lemma displayed_dates_parse tz l cur mode selected t :
  In t (displayList tz (filteredTransactions tz l cur mode) selected mode) ->
  exists tt, timeOf t = Some tt.
Proof.
  intros H.
  assert (Hf : In t (filteredTransactions tz l cur mode)).
  { unfold displayList in H. destruct mode, selected; auto.
    now apply filter_In in H. }
  apply filteredTransactions_In in Hf as (_ & Hy & _).
  unfold yearOf in Hy. unfold timeOf.
  destruct (newDate_string (Transaction.date t)); [eauto|discriminate].
Qed.

(** X1.  The history list shows the transactions of [displayList], all of
    them and no other, newest date first, and transactions of one date in
    the order they have in [displayList]; the order does not depend on
    the time zone. *)
Theorem X1_history_newest_first (tz : Z) (l : list Transaction.t)
    (cur : Z) (mode : ViewMode) (selected : option Z) :
  let shown := displayList tz (filteredTransactions tz l cur mode)
                 selected mode in
  Permutation (sortedForDisplay shown) shown /\
  StronglySorted notOlder (sortedForDisplay shown) /\
  (forall k, filter (fun t => num_eq (timeOf t) k) (sortedForDisplay shown)
             = filter (fun t => num_eq (timeOf t) k) shown).
Proof.
  cbv zeta. split; [apply sortedForDisplay_perm|]. split.
  - apply sortedForDisplay_sorted. apply Forall_forall. intros t Ht.
    now apply (displayed_dates_parse tz l cur mode selected).
  - intros k. apply sortedForDisplay_stable.
Qed.

End HistoryList.

(* ================================================================== *)
(** ** The calendar grid and today *)
(* ================================================================== *)

Section GridFacts.

Import JSDate JSDateFacts LocalTimeFacts.

Variable tz : Z.

Lemma filter_eq_countFrom k n : forall lo,
  filter (fun d => k =? d) (countFrom lo n)
  = if (lo <=? k) && (k <? lo + Z.of_nat n) then [k] else [].
Proof.
  induction n as [|n IH]; intros lo.
  - cbn [countFrom filter].
    destruct (Z.leb_spec lo k), (Z.ltb_spec k (lo + Z.of_nat 0));
      cbn; try reflexivity; lia.
  - cbn [countFrom filter]. rewrite IH.
    destruct (Z.eqb_spec k lo) as [->|Hne].
    + destruct (Z.leb_spec (lo + 1) lo); [lia|]. cbn [andb].
      destruct (Z.leb_spec lo lo); [|lia].
      destruct (Z.ltb_spec lo (lo + Z.of_nat (S n))); [reflexivity|lia].
    + destruct (Z.leb_spec (lo + 1) k), (Z.leb_spec lo k),
        (Z.ltb_spec k (lo + 1 + Z.of_nat n)),
        (Z.ltb_spec k (lo + Z.of_nat (S n))); cbn; try reflexivity; lia.
Qed.

Lemma countFrom_ge n : forall lo d, In d (countFrom lo n) -> lo <= d.
Proof.
  induction n as [|n IH]; intros lo d; cbn; [tauto|].
  intros [<-|H]; [lia|]. apply IH in H. lia.
Qed.

(** The day of month of a date lies within its month. *)
Lemma getDate_range d :
  1 <= getDate tz d <= daysInMonth (getFullYear tz d) (getMonth tz d).
Proof.
  pose proof (localFields_valid tz d _ _ _ eq_refl) as Hv.
  apply validCivil_bounds in Hv. lia.
Qed.

Lemma weekday_range z : 0 <= (z + 4) mod 7 <= 6.
Proof. pose proof (Z.mod_pos_bound (z + 4) 7). lia. Qed.

(** X2.  In the calendar view, for an anchor date in a year outside
    0..99: the grid has [w] blank cells, [w] (at most 6) being the weekday
    index of the first day of the anchor month, followed by one cell for
    each day 1..N of that month in order, so between 28 and 37 cells in
    all; no cell is drawn as today unless today falls in the anchor month,
    and then exactly one is, the cell of today's day of month. *)
Theorem X2_grid_and_today (l : list Transaction.t) (now cur : Z) :
  let y := getFullYear tz cur in
  let m := getMonth tz cur in
  let w := Z.to_nat ((daysFromCivil y m 1 + 4) mod 7) in
  let N := Z.to_nat (daysInMonth y m) in
  ~ (0 <= y <= 99) ->
  exists cells,
    calendarData tz l cur Daily = Some cells /\
    cells = repeat (DayCell.mk None 0 0) w
            ++ map (dayCell tz l) (countFrom 1 N) /\
    (w <= 6)%nat /\ (28 <= N <= 31)%nat /\
    (28 <= List.length cells <= 37)%nat /\
    filter (cellIsToday tz now cur) cells
    = if (getMonth tz now =? m) && (getFullYear tz now =? y)
      then [dayCell tz l (getDate tz now)] else [].
Proof.
  intros y m w N Hy.
  destruct (calendarData_spec tz l cur Hy) as [_ E]. fold y m in E.
  eexists. split; [exact E|]. fold w N.
  assert (Hw : (w <= 6)%nat).
  { subst w. pose proof (weekday_range (daysFromCivil y m 1)). lia. }
  assert (HN : (28 <= N <= 31)%nat).
  { subst N. pose proof (daysInMonth_min y m). lia. }
  split; [reflexivity|]. split; [exact Hw|]. split; [exact HN|]. split.
  - rewrite length_app, repeat_length, length_map, countFrom_length. lia.
  - rewrite filter_app.
    assert (Hb : filter (cellIsToday tz now cur)
                   (repeat (DayCell.mk None 0 0) w) = []).
    { induction w as [|n IH]; [reflexivity|]. cbn. apply IH. lia. }
    rewrite Hb. cbn [app].
    assert (Hmap : forall ds,
              Forall (fun d => 1 <= d) ds ->
              filter (cellIsToday tz now cur) (map (dayCell tz l) ds)
              = map (dayCell tz l) (filter (isToday tz now cur) ds)).
    { induction 1 as [|d ds Hd _ IH]; [reflexivity|].
      cbn [map filter]. unfold cellIsToday at 1. cbn [dayCell DayCell.day].
      destruct (Z.eqb_spec d 0); [lia|].
      destruct (isToday tz now cur d); cbn [map]; now rewrite IH. }
    rewrite Hmap.
    2:{ apply Forall_forall. intros d Hd. now apply countFrom_ge in Hd. }
    unfold isToday. fold y m.
    destruct ((getMonth tz now =? m) && (getFullYear tz now =? y)) eqn:Esame.
    + rewrite (filter_ext _ (fun d => getDate tz now =? d)).
      2:{ intros d. rewrite <- andb_assoc, Esame. apply andb_true_r. }
      rewrite filter_eq_countFrom.
      apply andb_true_iff in Esame as [Em Ey].
      apply Z.eqb_eq in Em, Ey.
      pose proof (getDate_range now) as Hd. rewrite Em, Ey in Hd.
      pose proof (daysInMonth_min y m).
      destruct (Z.leb_spec 1 (getDate tz now)); [|lia].
      destruct (Z.ltb_spec (getDate tz now) (1 + Z.of_nat N));
        [reflexivity|subst N; lia].
    + rewrite (filter_ext _ (fun _ => false)).
      2:{ intros d. rewrite <- andb_assoc, Esame. apply andb_false_r. }
      clear. induction (countFrom 1 N) as [|d ds IH]; cbn; auto.
Qed.

End GridFacts.

Lemma march15_fields : JSDate.localFields utcPlus8 march15 = (2024, 2, 15).
Proof. vm_compute. reflexivity. Qed.

(** X2 at 15 March 2024, today being that day: 5 blank cells, 31 days,
    and the cell of day 15 drawn as today. *)
Lemma X2_grid_and_today_witness :
  exists cells,
    calendarData utcPlus8 [] march15 Daily = Some cells /\
    List.length cells = 36%nat /\
    filter (cellIsToday utcPlus8 march15 march15) cells
    = [dayCell utcPlus8 [] 15].
Proof.
  destruct (X2_grid_and_today utcPlus8 [] march15 march15)
    as (cells & E & Ec & _ & _ & _ & Et).
  - assert (Ey : JSDate.getFullYear utcPlus8 march15 = 2024)
      by (vm_compute; reflexivity).
    rewrite Ey. lia.
  - exists cells. split; [exact E|]. split.
    + rewrite Ec. vm_compute. reflexivity.
    + rewrite Et. vm_compute. reflexivity.
Defined.

(* ================================================================== *)
(** ** The period filter and the aggregates, by time zone *)
(* ================================================================== *)

Section ByTimeZone.

Import JSDate JSDateFacts LocalTimeFacts.

Variable tz : Z.

Lemma filter_twice {A} (f g : A -> bool) l :
  filter f (filter g l) = filter (fun x => g x && f x) l.
Proof.
  induction l as [|x l IH]; [reflexivity|]. cbn.
  destruct (g x); cbn; [destruct (f x)|]; now rewrite IH.
Qed.

(** X3.  At or east of Greenwich (offset from 0 to less than 24 hours),
    for transactions whose dates are of the date-only form, the period
    filter selects by the date written in the transaction: the calendar
    view keeps the transactions dated in the anchor's year and month, the
    yearly view those dated in its year, and with a day selected the list
    keeps those dated on that day of the month. *)
Theorem X3_filter_by_calendar_date (l : list Transaction.t) (cur : Z)
    (selected : option Z) :
  0 <= tz < msPerDay ->
  (forall t, In t l -> Calendar.wellFormed t) ->
  let y := getFullYear tz cur in
  let m := getMonth tz cur in
  filteredTransactions tz l cur Daily
  = filter (fun t => Calendar.inYear y t && Calendar.inMonth m t) l /\
  filteredTransactions tz l cur Monthly = filter (Calendar.inYear y) l /\
  displayList tz (filteredTransactions tz l cur Daily) selected Daily
  = match selected with
    | Some d =>
        filter (fun t => Calendar.inYear y t && Calendar.inMonth m t
                         && Calendar.onDay d t) l
    | None => filter (fun t => Calendar.inYear y t && Calendar.inMonth m t) l
    end /\
  displayList tz (filteredTransactions tz l cur Monthly) selected Monthly
  = filter (Calendar.inYear y) l.
Proof.
  intros Htz _ y m.
  destruct (filteredTransactions_east tz l cur Htz) as [Ed Em].
  fold y m in Ed, Em.
  split; [exact Ed|]. split; [exact Em|]. split.
  - rewrite displayList_east by exact Htz. rewrite Ed.
    destruct selected as [d|]; [|reflexivity].
    apply filter_twice.
  - now rewrite displayList_east, Em by exact Htz.
Qed.


(** X4.  At or east of Greenwich, for transactions whose dates are of the
    date-only form, the aggregates are by the date written in the
    transaction: bucket [k] of the twelve-month series holds the sums of
    the income and of the expense amounts of the transactions dated in
    month [k] (0 = January), and the cell of day [i] of the grid the sums
    of those dated on day [i]. *)
Theorem X4_aggregates_by_calendar_date (l : list Transaction.t) :
  0 <= tz < msPerDay ->
  (forall t, In t l -> Calendar.wellFormed t) ->
  (forall k, (k < 12)%nat ->
     nth_error (monthlyChartData tz l Monthly) k
     = Some (MonthBucket.mk (nth k months ""%string)
               (sumAmounts
                  (filter (fun t => isIncome t
                                    && Calendar.inMonth (Z.of_nat k) t) l))
               (sumAmounts
                  (filter (fun t => isExpense t
                                    && Calendar.inMonth (Z.of_nat k) t) l))))
  /\ (forall i,
        dayCell tz l i
        = DayCell.mk (Some i)
            (sumAmounts (filter isIncome (filter (Calendar.onDay i) l)))
            (sumAmounts (filter isExpense (filter (Calendar.onDay i) l)))).
Proof.
  intros Htz _. split.
  - intros k Hk. now apply monthlyChartData_east.
  - intros i. now apply dayCell_east.
Qed.


End ByTimeZone.

(** X3 eight hours east of Greenwich, in March 2024 with day 10
    selected. *)
Lemma X3_filter_by_calendar_date_witness :
  let t1 := sampleTx "t1" 40 Expense "2024-03-01" in
  let t2 := sampleTx "t2" 25 Expense "2024-03-10" in
  let t3 := sampleTx "t3" 10 Income "2024-04-10" in
  filteredTransactions utcPlus8 [t1; t2; t3] march15 Daily = [t1; t2] /\
  displayList utcPlus8
    (filteredTransactions utcPlus8 [t1; t2; t3] march15 Daily)
    (Some 10) Daily = [t2].
Proof.
  cbv zeta.
  destruct (X3_filter_by_calendar_date utcPlus8
              [sampleTx "t1" 40 Expense "2024-03-01";
               sampleTx "t2" 25 Expense "2024-03-10";
               sampleTx "t3" 10 Income "2024-04-10"] march15 (Some 10))
    as (E1 & _ & E3 & _).
  - unfold utcPlus8, JSDate.msPerDay. lia.
  - intros t [<-|[<-|[<-|[]]]]; discriminate.
  - split; [rewrite E1 | rewrite E3]; vm_compute; reflexivity.
Defined.

(** X4 eight hours east of Greenwich: an income of 100 dated 2024-03-01 is
    in the March bucket and in the cell of day 1. *)
Lemma X4_aggregates_by_calendar_date_witness :
  let t := sampleTx "t1" 100 Income "2024-03-01" in
  nth_error (monthlyChartData utcPlus8 [t] Monthly) 2
  = Some (MonthBucket.mk "Mar" 100 0) /\
  dayCell utcPlus8 [t] 1 = DayCell.mk (Some 1) 100 0.
Proof.
  cbv zeta.
  destruct (X4_aggregates_by_calendar_date utcPlus8
              [sampleTx "t1" 100 Income "2024-03-01"]) as [Hs Hc].
  - unfold utcPlus8, JSDate.msPerDay. lia.
  - intros t [<-|[]]. discriminate.
  - split.
    + rewrite (Hs 2%nat) by lia. vm_compute. reflexivity.
    + rewrite Hc. vm_compute. reflexivity.
Defined.

(* ================================================================== *)
(** ** What every time zone keeps *)
(* ================================================================== *)

Section AnyTimeZone.

Import JSDate JSDateFacts LocalTimeFacts.

Variable tz : Z.

Lemma num_eq_true a b : num_eq a b = true <-> a = Some b.
Proof.
  destruct a as [x|]; cbn; [rewrite Z.eqb_eq|]; split; congruence.
Qed.

(** The local reading of a date that parses is a day that exists. *)
Lemma fields_of_parsed t tv :
  newDate_string (Transaction.date t) = Some tv ->
  yearOf tz t = Some (getFullYear tz tv) /\
  monthOf tz t = Some (getMonth tz tv) /\
  dayOf tz t = Some (getDate tz tv).
Proof. intros E. unfold yearOf, monthOf, dayOf. now rewrite E. Qed.

Lemma filter_blank_cells (d : Z) (n : nat) :
  filter (fun cell => num_eq (DayCell.day cell) d)
         (repeat (DayCell.mk None 0 0) n) = [].
Proof. induction n as [|n IH]; [reflexivity | exact IH]. Qed.

Lemma filter_day_cells (txs : list Transaction.t) (d : Z) (ks : list Z) :
  filter (fun cell => num_eq (DayCell.day cell) d) (map (dayCell tz txs) ks)
  = map (dayCell tz txs) (filter (fun k => d =? k) ks).
Proof.
  induction ks as [|k ks IH]; [reflexivity|].
  cbn [map filter DayCell.day dayCell num_eq]. rewrite (Z.eqb_sym k d).
  destruct (d =? k); cbn [map]; now rewrite IH.
Qed.

(** X5.  For transactions whose dates are of the date-only form, in a
    time zone with any fixed offset, and an anchor year outside 0..99,
    the filter and the aggregates agree with each other.  The calendar
    view's set is the yearly view's set narrowed to the anchor's month.
    Every transaction of the calendar view's set is read as a day [d] of
    the anchor's month; the grid has exactly one cell for that day, and
    the transaction is among those the cell sums.  Every transaction of
    the yearly view's set is read as a month [k] among 0..11, and it is
    among those the bucket at position [k] of the series sums. *)
Theorem X5_filter_and_aggregates_agree (l : list Transaction.t) (cur : Z) :
  let y := getFullYear tz cur in
  let m := getMonth tz cur in
  let daily := filteredTransactions tz l cur Daily in
  let yearly := filteredTransactions tz l cur Monthly in
  (forall t, In t l -> Calendar.wellFormed t) ->
  ~ (0 <= y <= 99) ->
  daily = filter (fun t => num_eq (monthOf tz t) m) yearly /\
  (exists cells,
     calendarData tz daily cur Daily = Some cells /\
     forall t, In t daily ->
       exists d,
         dayOf tz t = Some d /\ 1 <= d <= daysInMonth y m /\
         filter (fun cell => num_eq (DayCell.day cell) d) cells
         = [dayCell tz daily d] /\
         In t (filter (fun x => num_eq (dayOf tz x) d) daily)) /\
  (forall t, In t yearly ->
     exists k,
       (k < 12)%nat /\ monthOf tz t = Some (Z.of_nat k) /\
       nth_error (monthlyChartData tz yearly Monthly) k
       = Some (MonthBucket.mk (nth k months ""%string)
                 (sumAmounts
                    (filter (fun x => isIncome x && feeds tz k x) yearly))
                 (sumAmounts
                    (filter (fun x => isExpense x && feeds tz k x) yearly)))
       /\ feeds tz k t = true).
Proof.
  intros y m daily yearly _ Hy. split; [|split].
  - unfold daily, yearly, filteredTransactions. fold y m.
    now rewrite filter_twice.
  - destruct (calendarData_spec tz daily cur Hy) as [_ E]. fold y m in E.
    eexists. split; [exact E|].
    intros t Ht.
    pose proof Ht as Ht'.
    apply filteredTransactions_In in Ht' as (_ & Hyr & Hm).
    specialize (Hm eq_refl). fold y in Hyr. fold m in Hm.
    destruct (newDate_string (Transaction.date t)) as [tv|] eqn:Ep;
      [|unfold yearOf in Hyr; rewrite Ep in Hyr; discriminate].
    destruct (fields_of_parsed t tv Ep) as (Ey & Em & Ed).
    assert (Hd : 1 <= getDate tz tv <= daysInMonth y m).
    { pose proof (getDate_range tz tv) as Hr.
      assert (Hy' : getFullYear tz tv = y) by congruence.
      assert (Hm' : getMonth tz tv = m) by congruence.
      now rewrite Hy', Hm' in Hr. }
    exists (getDate tz tv). split; [exact Ed|]. split; [exact Hd|]. split.
    + rewrite filter_app, filter_blank_cells.
      change (fun i : Z =>
                {| DayCell.day := Some i;
                   DayCell.income :=
                     sumAmounts
                       (filter isIncome
                          (filter (fun t0 => num_eq (dayOf tz t0) i) daily));
                   DayCell.expense :=
                     sumAmounts
                       (filter isExpense
                          (filter (fun t0 => num_eq (dayOf tz t0) i) daily))
                |}) with (dayCell tz daily).
      rewrite filter_day_cells, filter_eq_countFrom.
      destruct (Z.leb_spec 1 (getDate tz tv)); [|lia].
      destruct (Z.ltb_spec (getDate tz tv)
                  (1 + Z.of_nat (Z.to_nat (daysInMonth y m)))); [|lia].
      reflexivity.
    + apply filter_In. split; [exact Ht|]. now apply num_eq_true.
  - intros t Ht. pose proof Ht as Ht'.
    apply filteredTransactions_In in Ht' as (_ & Hyr & _).
    destruct (newDate_string (Transaction.date t)) as [tv|] eqn:Ep;
      [|unfold yearOf in Hyr; rewrite Ep in Hyr; discriminate].
    destruct (fields_of_parsed t tv Ep) as (_ & Em & _).
    pose proof (getMonth_range tz tv) as Hr.
    exists (Z.to_nat (getMonth tz tv)).
    assert (Hk : (Z.to_nat (getMonth tz tv) < 12)%nat) by lia.
    split; [exact Hk|].
    rewrite Z2Nat.id by lia. split; [exact Em|]. split.
    + now apply monthlyChartData_spec.
    + unfold feeds. rewrite Z2Nat.id by lia. now apply num_eq_true.
Qed.

(** X6.  West of Greenwich (offset from minus 24 hours to less than 0)
    a transaction is read as the day before the date written in it: the
    same month and the day before when the date is not the first of its
    month, and the last day of the month before when it is. *)
Theorem X6_west_reads_the_day_before (t : Transaction.t) (y m d : Z) :
  - msPerDay <= tz < 0 ->
  Calendar.dateOf t = Some (y, m, d) ->
  let py := y + (m - 1) / 12 in
  let pm := (m - 1) mod 12 in
  (yearOf tz t, monthOf tz t, dayOf tz t)
  = if 2 <=? d then (Some y, Some m, Some (d - 1))
    else (Some py, Some pm, Some (daysInMonth py pm)).
Proof.
  intros Htz E py pm.
  destruct (fields_west tz t y m d Htz E) as (Ey & Em & Ed).
  rewrite Ey, Em, Ed. clear Ey Em Ed.
  pose proof (parseISODate_valid _ _ _ _ E) as Hv.
  apply validCivil_bounds in Hv as (Hm & Hd & _).
  destruct (Z.leb_spec 2 d) as [H2|H1].
  - replace (daysFromCivil y m d - 1) with (daysFromCivil y m (d - 1))
      by (rewrite (daysFromCivil_day y m d),
            (daysFromCivil_day y m (d - 1)); lia).
    rewrite civilFromDays_daysFromCivil; [reflexivity|].
    apply validCivil_intro; lia.
  - assert (d = 1) by lia. subst d.
    assert (Hpm : 0 <= pm < 12) by (apply Z.mod_pos_bound; lia).
    pose proof (daysFromCivil_next_month py pm Hpm) as Hn.
    assert (Hback : py + (pm + 1) / 12 = y /\ (pm + 1) mod 12 = m).
    { subst py pm. clear - Hm. Z.div_mod_to_equations. lia. }
    destruct Hback as [Eb1 Eb2]. rewrite Eb1, Eb2 in Hn.
    replace (daysFromCivil y m 1 - 1)
      with (daysFromCivil py pm (daysInMonth py pm)) by lia.
    rewrite civilFromDays_daysFromCivil; [reflexivity|].
    pose proof (daysInMonth_min py pm). apply validCivil_intro; lia.
Qed.

End AnyTimeZone.

(** X5 eight hours east of Greenwich, in March 2024: an income dated
    2024-03-01. *)
Lemma X5_filter_and_aggregates_agree_witness :
  filteredTransactions utcPlus8 [sampleTx "t1" 100 Income "2024-03-01"]
    march15 Daily
  = filter (fun t => num_eq (monthOf utcPlus8 t)
                            (JSDate.getMonth utcPlus8 march15))
      (filteredTransactions utcPlus8
         [sampleTx "t1" 100 Income "2024-03-01"] march15 Monthly).
Proof.
  refine (proj1 (X5_filter_and_aggregates_agree utcPlus8
                   [sampleTx "t1" 100 Income "2024-03-01"] march15 _ _)).
  - intros t [<-|[]]. discriminate.
  - assert (Ey : JSDate.getFullYear utcPlus8 march15 = 2024)
      by (vm_compute; reflexivity).
    rewrite Ey. lia.
Defined.

(** X6 five hours west of Greenwich: 2024-03-01 is read as 29 February
    and 2024-03-10 as 9 March. *)
Lemma X6_west_reads_the_day_before_witness :
  let t1 := sampleTx "t1" 40 Expense "2024-03-01" in
  let t2 := sampleTx "t2" 25 Expense "2024-03-10" in
  (yearOf utcMinus5 t1, monthOf utcMinus5 t1, dayOf utcMinus5 t1)
  = (Some 2024, Some 1, Some 29) /\
  (yearOf utcMinus5 t2, monthOf utcMinus5 t2, dayOf utcMinus5 t2)
  = (Some 2024, Some 2, Some 9).
Proof.
  cbv zeta. split.
  - rewrite (X6_west_reads_the_day_before utcMinus5 _ 2024 2 1);
      [reflexivity | unfold utcMinus5, JSDate.msPerDay; lia | reflexivity].
  - rewrite (X6_west_reads_the_day_before utcMinus5 _ 2024 2 10);
      [reflexivity | unfold utcMinus5, JSDate.msPerDay; lia | reflexivity].
Defined.

(* ================================================================== *)
(** ** Navigation, there and back *)
(* ================================================================== *)

Section NavigationRoundTrip.

Import JSDate JSDateFacts LocalTimeFacts.

Variable tz : Z.

(** A local time is its day and its time within the day. *)
Lemma LocalTime_split d y m dd :
  localFields tz d = (y, m, dd) ->
  LocalTime tz d
  = MakeDate (daysFromCivil y m dd) (TimeWithinDay (LocalTime tz d)).
Proof.
  rewrite localFields_civil. intros E.
  apply civilFromDays_spec in E as [_ E]. rewrite E.
  unfold MakeDate, Day, TimeWithinDay, msPerDay.
  pose proof (Z.div_mod (LocalTime tz d) 86400000 ltac:(lia)). lia.
Qed.

Lemma TimeWithinDay_MakeDate day time :
  0 <= time < msPerDay -> TimeWithinDay (MakeDate day time) = time.
Proof.
  intros H. unfold TimeWithinDay, MakeDate.
  rewrite Z.add_comm, Z.mod_add by (unfold msPerDay; lia).
  now apply Z.mod_small.
Qed.

(** [setMonth] and [setFullYear] keep the time of day. *)
Lemma LocalTime_setMonth d month :
  LocalTime tz (setMonth tz d month)
  = MakeDate (MakeDay (getFullYear tz d) month (getDate tz d))
             (TimeWithinDay (LocalTime tz d)).
Proof. unfold setMonth. now rewrite LocalTime_UTC. Qed.

Lemma LocalTime_setFullYear d year :
  LocalTime tz (setFullYear tz d year)
  = MakeDate (MakeDay year (getMonth tz d) (getDate tz d))
             (TimeWithinDay (LocalTime tz d)).
Proof. unfold setFullYear. now rewrite LocalTime_UTC. Qed.

Lemma LocalTime_inj a b : LocalTime tz a = LocalTime tz b -> a = b.
Proof. unfold LocalTime. lia. Qed.

(** Setting the month to a value that names the date's own month (after
    carrying into the year) changes nothing. *)
Lemma setMonth_same d month y m dd :
  localFields tz d = (y, m, dd) ->
  y + month / 12 = y -> month mod 12 = m ->
  setMonth tz d month = d.
Proof.
  intros E Hy Hm. apply LocalTime_inj.
  rewrite LocalTime_setMonth, (LocalTime_split d y m dd E).
  rewrite TimeWithinDay_MakeDate by apply TimeWithinDay_bounds.
  assert (Ey : getFullYear tz d = y) by (unfold localFields in E; congruence).
  assert (Ed : getDate tz d = dd) by (unfold localFields in E; congruence).
  rewrite Ey, Ed. unfold MakeDay. rewrite Hy, Hm.
  now rewrite <- daysFromCivil_day.
Qed.

Lemma setFullYear_same d y m dd :
  localFields tz d = (y, m, dd) -> setFullYear tz d y = d.
Proof.
  intros E. apply LocalTime_inj.
  rewrite LocalTime_setFullYear, (LocalTime_split d y m dd E).
  rewrite TimeWithinDay_MakeDate by apply TimeWithinDay_bounds.
  assert (Em : getMonth tz d = m) by (unfold localFields in E; congruence).
  assert (Ed : getDate tz d = dd) by (unfold localFields in E; congruence).
  rewrite Em, Ed.
  pose proof (localFields_valid tz d _ _ _ E) as Hv.
  apply validCivil_bounds in Hv as (Hm & _).
  now rewrite MakeDay_in_range.
Qed.

(** Two [setMonth] in a row are one, when the first lands on a day that
    exists. *)
Lemma setMonth_setMonth d month month' y m dd :
  localFields tz d = (y, m, dd) ->
  dd <= daysInMonth (y + month / 12) (month mod 12) ->
  setMonth tz (setMonth tz d month) month'
  = setMonth tz d (12 * (month / 12) + month').
Proof.
  intros E Hd. apply LocalTime_inj.
  pose proof (localFields_setMonth tz d month y m dd E Hd) as E1.
  rewrite !LocalTime_setMonth.
  rewrite TimeWithinDay_MakeDate by apply TimeWithinDay_bounds.
  assert (Ey1 : getFullYear tz (setMonth tz d month) = y + month / 12)
    by (unfold localFields in E1; congruence).
  assert (Ed1 : getDate tz (setMonth tz d month) = dd)
    by (unfold localFields in E1; congruence).
  assert (Ey : getFullYear tz d = y) by (unfold localFields in E; congruence).
  assert (Ed : getDate tz d = dd) by (unfold localFields in E; congruence).
  rewrite Ey1, Ed1, Ey, Ed. unfold MakeDay.
  replace ((12 * (month / 12) + month') / 12) with (month / 12 + month' / 12)
    by (clear; Z.div_mod_to_equations; lia).
  replace ((12 * (month / 12) + month') mod 12) with (month' mod 12)
    by (clear; Z.div_mod_to_equations; lia).
  now rewrite Z.add_assoc.
Qed.

(** X7.  In a time zone with a fixed offset from UTC (one without
    daylight-saving changes, where no local time is skipped or repeated),
    in the calendar view, with the anchor on a day of month up to 28:
    Navigate clears the selected day and moves the anchor to the same day
    and time of day of the next (or previous) month, carrying into the
    year at December and January; next followed by prev, and prev followed
    by next, give back the anchor date exactly.  Wallets, active wallet
    and view mode are not touched. *)
Theorem X7_navigate_month (direction : Direction) (s : State) (y m dd : Z) :
  viewMode s = Daily ->
  localFields tz (currentDate s) = (y, m, dd) ->
  dd <= 28 ->
  let step := match direction with Next => 1 | Prev => -1 end in
  let back := match direction with Next => Prev | Prev => Next end in
  let s' := navigateTime tz direction s in
  selectedDay s' = None /\
  localFields tz (currentDate s')
  = (y + (m + step) / 12, (m + step) mod 12, dd) /\
  TimeWithinDay (LocalTime tz (currentDate s'))
  = TimeWithinDay (LocalTime tz (currentDate s)) /\
  currentDate (navigateTime tz back s') = currentDate s /\
  wallets s' = wallets s /\ activeWalletId s' = activeWalletId s /\
  viewMode s' = viewMode s.
Proof.
  intros Hmode E Hdd step back s'.
  destruct (navigateTime_daily tz direction s y m dd Hmode E Hdd)
    as [Hsel Hf]. fold step s' in Hsel, Hf.
  destruct (navigateTime_frame tz direction s) as (Hw & Ha & Hv).
  fold s' in Hw, Ha, Hv.
  pose proof (localFields_valid tz _ _ _ _ E) as Hval.
  apply validCivil_bounds in Hval as (Hm & _).
  assert (Em : getMonth tz (currentDate s) = m)
    by (unfold localFields in E; congruence).
  repeat split; auto.
  - subst s'. unfold navigateTime. rewrite Hmode. cbn [currentDate
      setCurrentDate]. rewrite LocalTime_setMonth.
    apply TimeWithinDay_MakeDate, TimeWithinDay_bounds.
  - assert (Em' : getMonth tz (currentDate s') = (m + step) mod 12)
      by (unfold localFields in Hf; congruence).
    unfold navigateTime at 1. rewrite Hv, Hmode.
    cbn [currentDate setCurrentDate setSelectedDay]. rewrite Em'.
    subst s'. unfold navigateTime. rewrite Hmode.
    cbn [currentDate setCurrentDate setSelectedDay]. rewrite Em.
    fold step.
    assert (Hfit : dd <= daysInMonth (y + (m + step) / 12)
                                     ((m + step) mod 12)).
    { pose proof (daysInMonth_min (y + (m + step) / 12)
                    ((m + step) mod 12)). lia. }
    rewrite (setMonth_setMonth _ (m + step) _ y m dd E Hfit).
    apply (setMonth_same _ _ y m dd E).
    + subst step back. destruct direction; clear - Hm;
        Z.div_mod_to_equations; lia.
    + subst step back. destruct direction; clear - Hm;
        Z.div_mod_to_equations; lia.
Qed.

(** X8.  In a time zone with a fixed offset from UTC (one without
    daylight-saving changes, where no local time is skipped or repeated),
    in the yearly view: Navigate keeps the selected day and moves the
    anchor to the next (or previous) year; when the anchor is on a day of
    month up to 28 it keeps month and day, and next followed by prev, or
    prev followed by next, gives back the anchor date exactly.  Wallets,
    active wallet and view mode are not touched. *)
Theorem X8_navigate_year (direction : Direction) (s : State) (y m dd : Z) :
  viewMode s = Monthly ->
  localFields tz (currentDate s) = (y, m, dd) ->
  let step := match direction with Next => 1 | Prev => -1 end in
  let back := match direction with Next => Prev | Prev => Next end in
  let s' := navigateTime tz direction s in
  selectedDay s' = selectedDay s /\
  getFullYear tz (currentDate s') = y + step /\
  (dd <= 28 ->
   localFields tz (currentDate s') = (y + step, m, dd) /\
   currentDate (navigateTime tz back s') = currentDate s) /\
  wallets s' = wallets s /\ activeWalletId s' = activeWalletId s /\
  viewMode s' = viewMode s.
Proof.
  intros Hmode E step back s'.
  destruct (navigateTime_monthly tz direction s Hmode) as [Hsel Hy].
  fold step s' in Hsel, Hy.
  destruct (navigateTime_frame tz direction s) as (Hw & Ha & Hv).
  fold s' in Hw, Ha, Hv.
  assert (Ey : getFullYear tz (currentDate s) = y)
    by (unfold localFields in E; congruence).
  assert (Em : getMonth tz (currentDate s) = m)
    by (unfold localFields in E; congruence).
  assert (Ed : getDate tz (currentDate s) = dd)
    by (unfold localFields in E; congruence).
  pose proof (localFields_valid tz _ _ _ _ E) as Hval.
  apply validCivil_bounds in Hval as (Hm & Hdd & _).
  rewrite Ey in Hy.
  split; [exact Hsel|]. split; [exact Hy|]. split; [|auto].
  intros H28.
  assert (Ecur : currentDate s'
                 = setFullYear tz (currentDate s) (y + step)).
  { subst s'. unfold navigateTime. rewrite Hmode.
    cbn [currentDate setCurrentDate]. now rewrite Ey. }
  assert (Hloc : LocalTime tz (currentDate s')
                 = MakeDate (daysFromCivil (y + step) m dd)
                     (TimeWithinDay (LocalTime tz (currentDate s)))).
  { rewrite Ecur, LocalTime_setFullYear, Em, Ed.
    now rewrite MakeDay_in_range. }
  assert (Hf : localFields tz (currentDate s') = (y + step, m, dd)).
  { rewrite localFields_civil, Hloc.
    rewrite Day_MakeDate by apply TimeWithinDay_bounds.
    apply civilFromDays_daysFromCivil.
    pose proof (daysInMonth_min (y + step) m). apply validCivil_intro; lia. }
  split; [exact Hf|].
  unfold navigateTime. rewrite Hv, Hmode. cbn [currentDate setCurrentDate].
  assert (Ey' : getFullYear tz (currentDate s') = y + step)
    by (unfold localFields in Hf; congruence).
  rewrite Ey'.
  replace (y + step + match back with Next => 1 | Prev => -1 end) with y
    by (subst step back; destruct direction; lia).
  apply LocalTime_inj.
  rewrite LocalTime_setFullYear.
  assert (Em' : getMonth tz (currentDate s') = m)
    by (unfold localFields in Hf; congruence).
  assert (Ed' : getDate tz (currentDate s') = dd)
    by (unfold localFields in Hf; congruence).
  rewrite Em', Ed', Hloc.
  rewrite TimeWithinDay_MakeDate by apply TimeWithinDay_bounds.
  rewrite MakeDay_in_range by exact Hm.
  symmetry. now apply LocalTime_split.
Qed.

End NavigationRoundTrip.

(** X7 at 15 March 2024 with day 10 selected: next leads to 15 April with
    nothing selected, and prev from there back to the anchor. *)
Lemma X7_navigate_month_witness :
  let s := sampleState [] None Daily march15 (Some 10) in
  let s' := navigateTime utcPlus8 Next s in
  selectedDay s' = None /\
  JSDate.localFields utcPlus8 (currentDate s') = (2024, 3, 15) /\
  currentDate (navigateTime utcPlus8 Prev s') = march15.
Proof.
  cbv zeta.
  destruct (X7_navigate_month utcPlus8 Next
              (sampleState [] None Daily march15 (Some 10)) 2024 2 15)
    as (H1 & H2 & _ & H4 & _);
    [reflexivity | apply march15_fields | lia |].
  split; [exact H1|]. split; [exact H2 | exact H4].
Defined.

(** X8 at 15 March 2024 in the yearly view, day 10 still selected: prev
    leads to 15 March 2023, and next from there back to the anchor. *)
Lemma X8_navigate_year_witness :
  let s := sampleState [] None Monthly march15 (Some 10) in
  let s' := navigateTime utcPlus8 Prev s in
  selectedDay s' = Some 10 /\
  JSDate.localFields utcPlus8 (currentDate s') = (2023, 2, 15) /\
  currentDate (navigateTime utcPlus8 Next s') = march15.
Proof.
  cbv zeta.
  destruct (X8_navigate_year utcPlus8 Prev
              (sampleState [] None Monthly march15 (Some 10)) 2024 2 15)
    as (H1 & _ & H3 & _); [reflexivity | apply march15_fields |].
  destruct (H3 ltac:(lia)) as [Hf Hb].
  split; [exact H1|]. split; [exact Hf | exact Hb].
Defined.

(* ================================================================== *)
(** ** Wallets: creating and deleting *)
(* ================================================================== *)

Section WalletManager.

(** The active wallet after a handler that rewrites the wallets one by
    one, keeping their identifiers. *)
Lemma find_map_same_id (f : WalletData.t -> WalletData.t) a ws :
  (forall w, WalletData.id (f w) = WalletData.id w) ->
  find (fun w => id_eq a (WalletData.id w)) (map f ws)
  = option_map f (find (fun w => id_eq a (WalletData.id w)) ws).
Proof.
  intros Hf. induction ws as [|w ws IH]; [reflexivity|].
  cbn. rewrite Hf. destruct (id_eq a (WalletData.id w)); [reflexivity|].
  exact IH.
Qed.

Lemma find_app_fresh a ws w :
  ~ In a (map WalletData.id ws) ->
  find (fun x => id_eq (Some a) (WalletData.id x)) (ws ++ [w])
  = if String.eqb a (WalletData.id w) then Some w else None.
Proof.
  induction ws as [|x ws IH]; intros Hn; cbn.
  - reflexivity.
  - destruct (String.eqb_spec a (WalletData.id x)) as [->|Hne].
    + exfalso. apply Hn. now left.
    + apply IH. intros H. apply Hn. now right.
Qed.

(** X9.  In every state of the application the wallets carry distinct
    identifiers, the active identifier is that of a wallet [activeWallet]
    finds in the collection, and no handler throws: every action returns
    a state. *)
Theorem X9_distinct_ids_and_no_throw (tz : Z) (s : State) :
  reachable tz s ->
  NoDup (walletIds s) /\
  (exists w, activeWallet s = Some w /\ In w (wallets s) /\
             activeWalletId s = Some (WalletData.id w)) /\
  (forall a, exists s', stateOf (perform tz a s) = Some s').
Proof.
  intros Hr.
  destruct (reachable_invariant tz s Hr) as [Hnd [w [Hin Hact]]].
  split; [exact Hnd|]. split.
  - exists w. split; [|auto].
    apply activeWallet_unique; auto. now apply id_eq_true.
  - intros a. now apply perform_returns.
Qed.

(** X10.  Creating a wallet with a blank name (empty, or made only of the
    white space [trim] strips, that of Unicode included) does nothing.
    With any other name, a wallet with that name as typed,
    the fresh identifier and no transactions is added after the existing
    wallets, which stay as they are; it becomes the active wallet, so the
    transactions in view are none; the name field is emptied and the
    creation row closed. *)
Theorem X10_create_wallet (uuid : string) (s : State) :
  let s' := handleCreateWallet uuid s in
  (isBlank (newWalletName s) = true -> s' = s) /\
  (isBlank (newWalletName s) = false ->
   wallets s' = wallets s ++ [WalletData.mk uuid (newWalletName s) []] /\
   activeWalletId s' = Some uuid /\
   newWalletName s' = ""%string /\ isCreatingWallet s' = false /\
   (~ In uuid (walletIds s) ->
    activeWallet s' = Some (WalletData.mk uuid (newWalletName s) []) /\
    transactions s' = [])).
Proof.
  cbv zeta. unfold handleCreateWallet. split.
  - intros Hb. apply trim_empty in Hb. now rewrite Hb.
  - intros Hb.
    assert (Ht : truthy (trim (newWalletName s)) = true).
    { destruct (truthy (trim (newWalletName s))) eqn:E; [reflexivity|].
      apply trim_empty in E. congruence. }
    rewrite Ht. cbn [negb]. repeat split.
    + unfold activeWallet.
      cbn [wallets activeWalletId setIsCreatingWallet setNewWalletName
             setActiveWalletId setWallets WalletData.id].
      rewrite (find_app_fresh uuid _ _ H). cbn [WalletData.id].
      now rewrite String.eqb_refl.
    + unfold transactions, activeWallet.
      cbn [wallets activeWalletId setIsCreatingWallet setNewWalletName
             setActiveWalletId setWallets WalletData.id].
      rewrite (find_app_fresh uuid _ _ H). cbn [WalletData.id].
      now rewrite String.eqb_refl.
Qed.

Lemma filter_other_ids_length ws walletId :
  NoDup (map WalletData.id ws) -> In walletId (map WalletData.id ws) ->
  S (List.length
       (filter (fun w => negb (String.eqb (WalletData.id w) walletId)) ws))
  = List.length ws.
Proof.
  induction ws as [|w ws IH]; intros Hnd Hin; [contradiction|].
  cbn in Hnd. inversion Hnd as [|? ? Hw Hnd']; subst. cbn [filter].
  destruct (String.eqb_spec (WalletData.id w) walletId) as [E|Hne];
    cbn [negb List.length].
  - f_equal. f_equal. apply filter_all. intros x Hx.
    apply negb_true_iff, String.eqb_neq. intros Ex.
    apply Hw. rewrite E, <- Ex. now apply in_map.
  - f_equal. apply IH; [exact Hnd'|].
    destruct Hin as [Hin|Hin]; [contradiction|exact Hin].
Qed.

(** X11.  Deleting the active wallet from a state of the application that
    has two wallets or more: when the user declines, nothing changes;
    when the user confirms, exactly that wallet goes, the others stay as
    they are and in their order, no wallet carries the deleted identifier
    any more and the first wallet left is active. *)
Theorem X11_delete_active_wallet (tz : Z) (s : State) (walletId : string) :
  reachable tz s ->
  activeWalletId s = Some walletId ->
  (2 <= List.length (wallets s))%nat ->
  handleDeleteWallet walletId false s = Done s /\
  exists s',
    handleDeleteWallet walletId true s = Done s' /\
    wallets s'
    = filter (fun w => negb (String.eqb (WalletData.id w) walletId))
             (wallets s) /\
    S (List.length (wallets s')) = List.length (wallets s) /\
    ~ In walletId (walletIds s') /\
    (forall w, In w (wallets s) -> WalletData.id w <> walletId ->
               In w (wallets s')) /\
    activeWalletId s' = option_map WalletData.id (hd_error (wallets s')).
Proof.
  intros Hr Hact Hlen.
  destruct (reachable_invariant tz s Hr) as [Hnd [w [Hin Hact']]].
  assert (Hid : In walletId (walletIds s)).
  { unfold walletIds. replace walletId with (WalletData.id w) by congruence.
    now apply in_map. }
  unfold handleDeleteWallet.
  destruct (Nat.leb_spec (List.length (wallets s)) 1); [lia|].
  split; [reflexivity|].
  rewrite (proj2 (id_eq_true _ _) Hact).
  destruct (filter_other_ids_nonempty _ walletId Hnd Hlen)
    as [w0 [rest Ef]].
  rewrite Ef. eexists. split; [reflexivity|].
  cbn [wallets activeWalletId setActiveWalletId setWallets].
  split; [reflexivity|]. split; [|split; [|split]].
  - rewrite <- Ef. now apply filter_other_ids_length.
  - unfold walletIds. cbn [wallets setActiveWalletId setWallets].
    rewrite <- Ef. intros Hi. apply in_map_iff in Hi as [x [Ex Hx]].
    apply filter_In in Hx as [_ Hx].
    apply negb_true_iff, String.eqb_neq in Hx. contradiction.
  - intros x Hx Hne. rewrite <- Ef. apply filter_In. split; [exact Hx|].
    now apply negb_true_iff, String.eqb_neq.
  - reflexivity.
Qed.

End WalletManager.

(** X9 and X11 at the state with the wallets "w1" and "w2", "w2"
    active. *)
Lemma X9_distinct_ids_and_no_throw_witness :
  NoDup (walletIds twoWallets) /\
  exists s', stateOf (perform utcPlus8 (DeleteWallet "w2" true) twoWallets)
             = Some s'.
Proof.
  destruct (X9_distinct_ids_and_no_throw utcPlus8 twoWallets
              (reachable_twoWallets utcPlus8)) as (H1 & _ & H3).
  split; [exact H1 | apply H3].
Defined.

Lemma X11_delete_active_wallet_witness :
  exists s',
    handleDeleteWallet "w2" true twoWallets = Done s' /\
    wallets s' = [mainWallet] /\ activeWalletId s' = Some "w1"%string.
Proof.
  destruct (X11_delete_active_wallet utcPlus8 twoWallets "w2"
              (reachable_twoWallets utcPlus8) eq_refl)
    as (_ & s' & E & Ew & _ & _ & _ & Ea).
  - vm_compute. lia.
  - exists s'. split; [exact E|]. split; [exact Ew|].
    rewrite Ea, Ew. reflexivity.
Defined.

(** X10 at the first run: a name of three spaces, a name of one
    ideographic space, then the name "Trip". *)
Lemma X10_create_wallet_witness :
  handleCreateWallet "w2" (setNewWalletName "   " firstRun)
  = setNewWalletName "   " firstRun /\
  handleCreateWallet "w2" (setNewWalletName ideographicSpace firstRun)
  = setNewWalletName ideographicSpace firstRun /\
  wallets (handleCreateWallet "w2" (setNewWalletName "Trip" firstRun))
  = [mainWallet; WalletData.mk "w2" "Trip" []] /\
  transactions (handleCreateWallet "w2" (setNewWalletName "Trip" firstRun))
  = [].
Proof.
  destruct (X10_create_wallet "w2" (setNewWalletName "   " firstRun))
    as [Hb _].
  destruct (X10_create_wallet "w2"
              (setNewWalletName ideographicSpace firstRun)) as [Hi _].
  destruct (X10_create_wallet "w2" (setNewWalletName "Trip" firstRun))
    as [_ Hn].
  split; [apply Hb; reflexivity|].
  split; [apply Hi; reflexivity|].
  destruct (Hn eq_refl) as (Hw & _ & _ & _ & Hf).
  split; [exact Hw|]. apply Hf. cbn. intros [H|[]]. discriminate.
Defined.

(* ================================================================== *)
(** ** The transactions of the wallet in view *)
(* ================================================================== *)

Section TransactionsInView.

Lemma activeWallet_map (f : WalletData.t -> WalletData.t) s s' :
  (forall w, WalletData.id (f w) = WalletData.id w) ->
  wallets s' = map f (wallets s) ->
  activeWalletId s' = activeWalletId s ->
  activeWallet s' = option_map f (activeWallet s).
Proof.
  intros Hf Hw Ha. unfold activeWallet. rewrite Hw, Ha.
  now apply find_map_same_id.
Qed.

Lemma activeWallet_Some s w :
  activeWallet s = Some w ->
  In w (wallets s) /\ id_eq (activeWalletId s) (WalletData.id w) = true.
Proof. intros H. now apply find_some in H. Qed.

(** What an accepted submission leaves in the form and in the view. *)
Lemma handleSubmit_form uuid amountValue today s :
  accepted s ->
  let s' := handleSubmit uuid amountValue today s in
  description s' = ""%string /\ amount s' = ""%string /\ date s' = today /\
  category s' = "General"%string /\ type s' = Expense /\
  editingId s' = (if truthy_opt (editingId s) then None else editingId s) /\
  activeWalletId s' = activeWalletId s /\
  viewMode s' = viewMode s /\ currentDate s' = currentDate s /\
  selectedDay s' = selectedDay s.
Proof.
  intros (Hd & Ha & Hdt & Hw). cbv zeta. unfold handleSubmit.
  apply truthy_true in Hd, Ha, Hdt. rewrite Hd, Ha, Hdt, Hw.
  cbn [negb orb]. destruct (truthy_opt (editingId s)); repeat split.
Qed.

Lemma transactions_handleSubmit uuid amountValue today s :
  accepted s ->
  transactions (handleSubmit uuid amountValue today s)
  = match activeWallet s with
    | Some w =>
        WalletData.transactions
          (submitToWallet s (payload uuid amountValue s) w)
    | None => []
    end.
Proof.
  intros Hacc. unfold transactions.
  rewrite (activeWallet_map (submitToWallet s (payload uuid amountValue s))
             s _ (submitToWallet_id s _)
             (handleSubmit_accepted _ _ _ _ Hacc)
             (handleSubmit_activeWalletId _ _ _ _)).
  now destruct (activeWallet s).
Qed.

Lemma payload_adding uuid amountValue s :
  truthy_opt (editingId s) = false ->
  payload uuid amountValue s
  = Transaction.mk uuid (description s) amountValue (type s) (date s)
      (category s).
Proof.
  unfold payload, truthy_opt. destruct (editingId s) as [e|]; [|reflexivity].
  now intros ->.
Qed.

Lemma stats_snoc l p :
  stats (l ++ [p])
  = let st := stats l in
    match Transaction.type p with
    | Income =>
        let income := PrimFloat.add (Stats.income st) (Transaction.amount p) in
        Stats.mk income (Stats.expense st)
          (PrimFloat.sub income (Stats.expense st))
    | Expense =>
        let expense :=
          PrimFloat.add (Stats.expense st) (Transaction.amount p) in
        Stats.mk (Stats.income st) expense
          (PrimFloat.sub (Stats.income st) expense)
    end.
Proof.
  unfold stats. rewrite fold_left_app.
  destruct (fold_left _ l _) as [i e]. cbn.
  now destruct (Transaction.type p).
Qed.

(** X12.  Adding a transaction (a submission that passes the guard while
    nothing is being edited, a wallet being in view): the new transaction,
    carrying the fresh identifier and the values of the form, comes last
    in the transactions of the wallet in view, after the ones it had.  If
    its date falls in the period shown, it comes last in the filtered
    list and the totals are the old ones with its amount added to the
    income or to the expense; if not, the filtered list is as before.
    The form is emptied: no description, no amount, today's date, the
    category General and the type expense. *)
Theorem X12_add_transaction (tz : Z) (uuid : string) (amountValue : float)
    (today : string) (s : State) (w : WalletData.t) :
  accepted s -> truthy_opt (editingId s) = false ->
  activeWallet s = Some w ->
  let s' := handleSubmit uuid amountValue today s in
  let p := Transaction.mk uuid (description s) amountValue (type s) (date s)
             (category s) in
  let shown x :=
    filteredTransactions tz (transactions x) (currentDate x) (viewMode x) in
  let inPeriod :=
    filteredTransactions tz [p] (currentDate s) (viewMode s) in
  transactions s' = transactions s ++ [p] /\
  shown s' = shown s ++ inPeriod /\
  (inPeriod = [p] \/ inPeriod = []) /\
  (inPeriod = [p] ->
   stats (shown s')
   = match type s with
     | Income =>
         let income := PrimFloat.add (Stats.income (stats (shown s)))
                                     amountValue in
         Stats.mk income (Stats.expense (stats (shown s)))
           (PrimFloat.sub income (Stats.expense (stats (shown s))))
     | Expense =>
         let expense := PrimFloat.add (Stats.expense (stats (shown s)))
                                      amountValue in
         Stats.mk (Stats.income (stats (shown s))) expense
           (PrimFloat.sub (Stats.income (stats (shown s))) expense)
     end) /\
  description s' = ""%string /\ amount s' = ""%string /\ date s' = today /\
  category s' = "General"%string /\ type s' = Expense.
Proof.
  intros Hacc Hadd Hw. cbv zeta.
  pose proof (handleSubmit_form uuid amountValue today s Hacc) as Hf.
  cbv zeta in Hf.
  destruct Hf as (F1 & F2 & F3 & F4 & F5 & _ & _ & F8 & F9 & _).
  assert (Et : transactions (handleSubmit uuid amountValue today s)
               = transactions s ++
                 [Transaction.mk uuid (description s) amountValue (type s)
                    (date s) (category s)]).
  { rewrite (transactions_handleSubmit _ _ _ _ Hacc).
    unfold transactions. rewrite Hw.
    destruct (activeWallet_Some s w Hw) as [_ Hact].
    unfold submitToWallet. rewrite Hact, Hadd.
    now rewrite (payload_adding _ _ _ Hadd). }
  assert (Es : filteredTransactions tz
                 (transactions (handleSubmit uuid amountValue today s))
                 (currentDate (handleSubmit uuid amountValue today s))
                 (viewMode (handleSubmit uuid amountValue today s))
               = filteredTransactions tz (transactions s) (currentDate s)
                   (viewMode s) ++
                 filteredTransactions tz
                   [Transaction.mk uuid (description s) amountValue (type s)
                      (date s) (category s)] (currentDate s) (viewMode s)).
  { rewrite Et, F8, F9. unfold filteredTransactions. apply filter_app. }
  split; [exact Et|]. split; [exact Es|]. split.
  { unfold filteredTransactions. cbn [filter].
    match goal with |- context [if ?b then _ else _] => destruct b end;
      [now left | now right]. }
  split.
  { intros Hin. rewrite Es, Hin, stats_snoc. cbn [Transaction.type
      Transaction.amount]. reflexivity. }
  repeat split; assumption.
Qed.

(** X13.  Opening a transaction for editing and saving it with the form
    untouched writes back, over every entry of the wallet in view that
    carries its identifier, the transaction with the number [parseFloat]
    reads in the amount text as its amount.  When that number is the
    transaction's amount (as it is for the text [toString] gives for an
    amount, except that -0 is written "0" and read back as 0) and the
    transaction is the only one with its identifier there, the
    transactions are exactly as before.  Either way the form leaves edit
    mode.  Cancelling instead changes no wallet and leaves edit mode too,
    with description and amount emptied and the category General, but the
    date and the type of the form stay those of the transaction that was
    opened. *)
Theorem X13_edit_save_or_cancel (uuid today amountText : string)
    (t : Transaction.t) (s : State) :
  Transaction.id t <> ""%string ->
  Transaction.description t <> ""%string ->
  Transaction.date t <> ""%string ->
  amountText <> ""%string ->
  truthy_opt (activeWalletId s) = true ->
  let s1 := handleEdit t amountText s in
  let s2 := handleSubmit uuid (parseFloat amountText) today s1 in
  let s3 := cancelEdit s1 in
  let written :=
    Transaction.mk (Transaction.id t) (Transaction.description t)
      (parseFloat amountText) (Transaction.type t) (Transaction.date t)
      (Transaction.category t) in
  transactions s2
  = map (fun x => if String.eqb (Transaction.id x) (Transaction.id t)
                  then written else x) (transactions s) /\
  (parseFloat amountText = Transaction.amount t ->
   (forall x, In x (transactions s) ->
      Transaction.id x = Transaction.id t -> x = t) ->
   transactions s2 = transactions s) /\
  editingId s1 = Some (Transaction.id t) /\
  editingId s2 = None /\ date s2 = today /\ type s2 = Expense /\
  wallets s3 = wallets s /\ editingId s3 = None /\
  description s3 = ""%string /\ amount s3 = ""%string /\
  category s3 = "General"%string /\
  date s3 = Transaction.date t /\ type s3 = Transaction.type t.
Proof.
  intros Hid Hd Hdt Ha Hw. cbv zeta.
  assert (Hacc : accepted (handleEdit t amountText s)).
  { unfold accepted. cbn. auto. }
  assert (Hed : editingId (handleEdit t amountText s)
                = Some (Transaction.id t)) by reflexivity.
  assert (Et : transactions
                 (handleSubmit uuid (parseFloat amountText) today
                    (handleEdit t amountText s))
               = map (fun x => if String.eqb (Transaction.id x)
                                             (Transaction.id t)
                               then Transaction.mk (Transaction.id t)
                                      (Transaction.description t)
                                      (parseFloat amountText)
                                      (Transaction.type t)
                                      (Transaction.date t)
                                      (Transaction.category t)
                               else x) (transactions s)).
  { rewrite (transactions_handleSubmit _ _ _ _ Hacc).
    change (activeWallet (handleEdit t amountText s)) with (activeWallet s).
    unfold transactions. destruct (activeWallet s) as [w|] eqn:Ew;
      [|reflexivity].
    destruct (activeWallet_Some s w Ew) as [_ Hact].
    rewrite (submitToWallet_editing _ _ w _ Hed Hid Hact).
    cbn [WalletData.transactions]. apply map_ext. intros x.
    destruct (String.eqb _ _); [|reflexivity].
    unfold payload. rewrite Hed, (proj2 (truthy_true _) Hid).
    reflexivity. }
  pose proof (handleSubmit_form uuid (parseFloat amountText) today _ Hacc)
    as Hf.
  cbv zeta in Hf. destruct Hf as (_ & _ & F3 & _ & F5 & F6 & _).
  split; [exact Et|]. split.
  { intros Hv Hu. rewrite Et, Hv. apply map_same. intros x Hx.
    destruct (String.eqb_spec (Transaction.id x) (Transaction.id t));
      [|reflexivity].
    rewrite (Hu x Hx e). now destruct t. }
  split; [reflexivity|]. split.
  { rewrite F6, Hed. cbn [truthy_opt].
    now rewrite (proj2 (truthy_true _) Hid). }
  repeat split; assumption.
Qed.

Lemma deleteFromWallet_twice s s' id w :
  activeWalletId s' = activeWalletId s ->
  deleteFromWallet s' id (deleteFromWallet s id w) = deleteFromWallet s id w.
Proof.
  intros Ha. unfold deleteFromWallet. rewrite Ha.
  destruct (id_eq (activeWalletId s) (WalletData.id w)) eqn:E.
  - cbn [WalletData.id WalletData.name WalletData.transactions].
    rewrite E. f_equal. rewrite filter_twice. apply filter_ext.
    intros x. now destruct (negb _).
  - now rewrite E.
Qed.

(** X14.  Deleting a transaction, once the user has confirmed: the
    transactions of the wallet in view are the former ones without those
    carrying the identifier, the others staying in their order; no
    transaction in view carries the identifier any more; deleting the same
    identifier again changes nothing.  When the user declines, the state
    is unchanged. *)
Theorem X14_delete_transaction (id : string) (s : State) :
  let s' := handleDelete id true s in
  transactions s'
  = filter (fun t => negb (String.eqb (Transaction.id t) id))
           (transactions s) /\
  ~ In id (map Transaction.id (transactions s')) /\
  (forall t, In t (transactions s) -> Transaction.id t <> id ->
             In t (transactions s')) /\
  (List.length (transactions s') <= List.length (transactions s))%nat /\
  handleDelete id true s' = s' /\
  handleDelete id false s = s.
Proof.
  cbv zeta.
  assert (Et : transactions (handleDelete id true s)
               = filter (fun t => negb (String.eqb (Transaction.id t) id))
                        (transactions s)).
  { unfold transactions.
    rewrite (activeWallet_map (deleteFromWallet s id) s
               (handleDelete id true s)
               (deleteFromWallet_id s id) eq_refl eq_refl).
    destruct (activeWallet s) as [w|] eqn:Ew; [|reflexivity].
    destruct (activeWallet_Some s w Ew) as [_ Hact].
    cbn [option_map]. unfold deleteFromWallet. now rewrite Hact. }
  split; [exact Et|]. split; [|split; [|split; [|split]]].
  - rewrite Et. intros Hi. apply in_map_iff in Hi as [x [Ex Hx]].
    apply filter_In in Hx as [_ Hx].
    apply negb_true_iff, String.eqb_neq in Hx. contradiction.
  - intros t Ht Hne. rewrite Et. apply filter_In. split; [exact Ht|].
    now apply negb_true_iff, String.eqb_neq.
  - rewrite Et. apply filter_length_le.
  - unfold handleDelete.
    cbn [wallets setWallets]. unfold setWallets at 1.
    cbn [wallets activeWalletId isCreatingWallet newWalletName darkMode
           viewMode currentDate selectedDay description amount type date
           category editingId setWallets].
    rewrite map_map.
    rewrite (map_ext _ (deleteFromWallet s id)); [reflexivity|].
    intros w. now apply deleteFromWallet_twice.
  - reflexivity.
Qed.

(** X15.  An edit does not follow the user to another wallet.  When a
    transaction is opened for editing, another wallet (holding no
    transaction with that identifier) is then selected, the form is
    changed and submitted, no wallet changes: the transaction that was
    opened keeps its old values, nothing is added to the wallet now in
    view, and the form leaves edit mode with its fields emptied, so the
    values typed are lost without a message. *)
Theorem X15_edit_lost_on_wallet_switch (uuid today amountText : string)
    (amountValue : float) (t : Transaction.t) (other : string)
    (d a dt : string) (s : State) :
  Transaction.id t <> ""%string -> other <> ""%string ->
  d <> ""%string -> a <> ""%string -> dt <> ""%string ->
  (forall w x, In w (wallets s) -> WalletData.id w = other ->
               In x (WalletData.transactions w) ->
               Transaction.id x <> Transaction.id t) ->
  let s1 := handleEdit t amountText s in
  let s2 := fillForm d a dt (setActiveWalletId (Some other) s1) in
  let s3 := handleSubmit uuid amountValue today s2 in
  wallets s3 = wallets s /\ editingId s3 = None /\
  activeWalletId s3 = Some other /\
  description s3 = ""%string /\ amount s3 = ""%string /\ date s3 = today.
Proof.
  intros Hid Ho Hd Ha Hdt Hfree. cbv zeta.
  set (s2 := fillForm d a dt
               (setActiveWalletId (Some other) (handleEdit t amountText s))).
  assert (Hacc : accepted s2).
  { unfold accepted. cbn. repeat split; try assumption.
    now apply truthy_true. }
  pose proof (handleSubmit_form uuid amountValue today s2 Hacc) as Hf.
  cbv zeta in Hf. destruct Hf as (F1 & F2 & F3 & _ & _ & F6 & F7 & _).
  split.
  { destruct (unmatched_id_by_wallet s2 (Transaction.id t)) as [_ Hs].
    - intros w x Hw Hact Hx. apply id_eq_true in Hact.
      cbn in Hact. injection Hact as Hact.
      exact (Hfree w x Hw (eq_sym Hact) Hx).
    - now rewrite (Hs uuid amountValue today eq_refl Hid). }
  split.
  { rewrite F6. cbn. now rewrite (proj2 (truthy_true _) Hid). }
  repeat split; assumption.
Qed.

End TransactionsInView.

(** X12 at the Trip wallet: a dinner of 25 dated 12 March 2024, while
    March 2024 is shown (UTC+8). *)
Lemma X12_add_transaction_witness :
  let s := setCurrentDate march15
             (fillForm "Dinner" "25" "2024-03-12" tripActive) in
  transactions (handleSubmit "t3" 25 "2024-03-15" s)
  = transactions s ++
    [Transaction.mk "t3" "Dinner" 25 Expense "2024-03-12" "General"].
Proof.
  cbv zeta.
  refine (proj1 (X12_add_transaction utcPlus8 "t3" 25 "2024-03-15"
                   (setCurrentDate march15
                      (fillForm "Dinner" "25" "2024-03-12" tripActive))
                   tripWallet _ eq_refl eq_refl)).
  unfold accepted. cbn. repeat split; discriminate.
Defined.

(** X13 at the Trip wallet: the transaction "t1" opened, then saved. *)
Lemma X13_edit_save_or_cancel_witness :
  transactions
    (handleSubmit "u" (parseFloat "40") "2024-03-15"
       (handleEdit (sampleTx "t1" 40 Expense "2024-03-10") "40" tripActive))
  = transactions tripActive.
Proof.
  destruct (X13_edit_save_or_cancel "u" "2024-03-15" "40"
              (sampleTx "t1" 40 Expense "2024-03-10") tripActive)
    as (_ & H & _); try (cbn; discriminate); [reflexivity|].
  apply H; [vm_compute; reflexivity|].
  intros x [<-|[<-|[]]]; [reflexivity | discriminate].
Defined.

(** X15: "t1" of the Trip wallet opened, the Main Wallet selected, the
    form changed and submitted. *)
Lemma X15_edit_lost_on_wallet_switch_witness :
  wallets
    (handleSubmit "u" 55 "2024-03-15"
       (fillForm "Taxi" "55" "2024-03-12"
          (setActiveWalletId (Some "w1"%string)
             (handleEdit (sampleTx "t1" 40 Expense "2024-03-10") "40"
                tripActive))))
  = [mainWallet; tripWallet].
Proof.
  refine (proj1 (X15_edit_lost_on_wallet_switch "u" "2024-03-15" "40" 55
                   (sampleTx "t1" 40 Expense "2024-03-10") "w1"
                   "Taxi" "55" "2024-03-12" tripActive _ _ _ _ _ _));
    try (cbn; discriminate).
  intros w x [<-|[<-|[]]] Hw Hx; [contradiction | discriminate].
Defined.

(* ================================================================== *)
(** ** Transaction identifiers *)
(* ================================================================== *)

Section TransactionIdentifiers.

Lemma NoDup_app_parts {A} (l1 l2 : list A) :
  NoDup (l1 ++ l2) ->
  NoDup l1 /\ NoDup l2 /\ (forall a, In a l1 -> ~ In a l2).
Proof.
  intros H. split; [exact (NoDup_app_remove_r _ _ H)|].
  split; [exact (NoDup_app_remove_l _ _ H)|].
  induction l1 as [|x l1 IH]; [contradiction|].
  cbn in H. inversion H as [|? ? Hx Hnd]; subst.
  intros a [<-|Ha] Hin.
  - apply Hx. apply in_or_app. now right.
  - exact (IH Hnd a Ha Hin).
Qed.

Lemma NoDup_app_shrink {A} (l1 l2 k1 k2 : list A) :
  NoDup (l1 ++ l2) -> NoDup k1 -> NoDup k2 -> incl k1 l1 -> incl k2 l2 ->
  NoDup (k1 ++ k2).
Proof.
  intros H H1 H2 I1 I2.
  destruct (NoDup_app_parts _ _ H) as (_ & _ & Hd).
  apply NoDup_app; [exact H1 | exact H2 |].
  intros a Ha Hb. exact (Hd a (I1 a Ha) (I2 a Hb)).
Qed.

Lemma incl_flat_map_map {A B} (g : A -> list B) (f : A -> A) ws :
  (forall w, incl (g (f w)) (g w)) ->
  incl (flat_map g (map f ws)) (flat_map g ws).
Proof.
  intros Hf. induction ws as [|w ws IH]; [apply incl_refl|].
  cbn. apply incl_app_app; [apply Hf | exact IH].
Qed.

(** Rewriting the wallets one by one so that each keeps a part of its
    identifiers keeps the identifiers distinct. *)
Lemma NoDup_flat_map_map {A B} (g : A -> list B) (f : A -> A) ws :
  (forall w, incl (g (f w)) (g w)) ->
  (forall w, NoDup (g w) -> NoDup (g (f w))) ->
  NoDup (flat_map g ws) -> NoDup (flat_map g (map f ws)).
Proof.
  intros Hi Hn. induction ws as [|w ws IH]; intros H; [exact H|].
  cbn in *. destruct (NoDup_app_parts _ _ H) as (H1 & H2 & _).
  apply (NoDup_app_shrink _ _ _ _ H); auto.
  now apply incl_flat_map_map.
Qed.

Lemma incl_flat_map_filter {A B} (g : A -> list B) (p : A -> bool) ws :
  incl (flat_map g (filter p ws)) (flat_map g ws).
Proof.
  induction ws as [|w ws IH]; [apply incl_refl|].
  cbn. destruct (p w); cbn.
  - apply incl_app_app; [apply incl_refl | exact IH].
  - now apply incl_appr.
Qed.

Lemma NoDup_flat_map_filter {A B} (g : A -> list B) (p : A -> bool) ws :
  NoDup (flat_map g ws) -> NoDup (flat_map g (filter p ws)).
Proof.
  induction ws as [|w ws IH]; intros H; [exact H|].
  cbn in *. destruct (NoDup_app_parts _ _ H) as (H1 & H2 & _).
  destruct (p w); cbn; [|auto].
  apply (NoDup_app_shrink _ _ _ _ H); auto.
  - apply incl_refl.
  - apply incl_flat_map_filter.
Qed.

Lemma map_id_filter (p : string -> bool) (l : list Transaction.t) :
  map Transaction.id (filter (fun t => p (Transaction.id t)) l)
  = filter p (map Transaction.id l).
Proof.
  induction l as [|t l IH]; [reflexivity|].
  cbn. destruct (p (Transaction.id t)); cbn; now rewrite IH.
Qed.

(** Adding to the wallets with the active identifier, when at most one
    wallet carries it: the new identifier joins the others once. *)
Lemma ids_after_add s p ws :
  truthy_opt (editingId s) = false ->
  NoDup (map WalletData.id ws) ->
  exists extra,
    (extra = [] \/ extra = [Transaction.id p]) /\
    Permutation (flat_map idsOf (map (submitToWallet s p) ws))
                (extra ++ flat_map idsOf ws).
Proof.
  intros Hadd. induction ws as [|w ws IH]; intros Hnd.
  - exists []. split; [now left | constructor].
  - cbn in Hnd. inversion Hnd as [|? ? Hw Hnd']; subst.
    destruct (id_eq (activeWalletId s) (WalletData.id w)) eqn:E.
    + exists [Transaction.id p]. split; [now right|].
      cbn [map flat_map].
      rewrite (map_same (submitToWallet s p) ws).
      * unfold submitToWallet at 1. rewrite E, Hadd. unfold idsOf at 1 3.
        cbn [WalletData.transactions]. rewrite map_app. cbn [map].
        rewrite <- app_assoc.
        apply Permutation_sym.
        apply (Permutation_middle
                 (map Transaction.id (WalletData.transactions w))
                 (flat_map idsOf ws) (Transaction.id p)).
      * intros x Hx. apply submitToWallet_other. apply id_eq_false.
        intros Ex. apply id_eq_true in E. apply Hw.
        replace (WalletData.id w) with (WalletData.id x) by congruence.
        now apply in_map.
    + destruct (IH Hnd') as [extra [He Hp]]. exists extra.
      split; [exact He|]. cbn [map flat_map].
      rewrite (submitToWallet_other _ _ _ E).
      rewrite Hp. rewrite !app_assoc. apply Permutation_app_tail.
      apply Permutation_app_comm.
Qed.

Lemma ids_after_update s p ws eid :
  editingId s = Some eid -> eid <> ""%string -> Transaction.id p = eid ->
  flat_map idsOf (map (submitToWallet s p) ws) = flat_map idsOf ws.
Proof.
  intros He Hne Hp. induction ws as [|w ws IH]; [reflexivity|].
  cbn [map flat_map]. rewrite IH. f_equal.
  destruct (id_eq (activeWalletId s) (WalletData.id w)) eqn:E.
  - rewrite (submitToWallet_editing _ _ _ _ He Hne E). unfold idsOf.
    cbn [WalletData.transactions]. now apply replace_keeps_ids.
  - now rewrite (submitToWallet_other _ _ _ E).
Qed.

Lemma truthy_opt_cases o :
  truthy_opt o = false \/ exists e, o = Some e /\ e <> ""%string.
Proof.
  destruct o as [e|]; [|now left]. cbn.
  destruct (truthy e) eqn:E; [right | now left].
  exists e. split; [reflexivity | now apply truthy_true].
Qed.

(** X16.  The identifiers of the transactions stay distinct, across all
    wallets, under every action: given wallets with distinct identifiers
    and transactions with distinct identifiers, and given that the
    identifier the platform offers for a submission is not that of a
    stored transaction, the state an action leads to has transactions
    with distinct identifiers again.  An update never brings in the
    offered identifier, and deleting a wallet or a transaction only
    removes identifiers. *)
Theorem X16_transaction_ids_distinct (tz : Z) (a : Action) (s s' : State) :
  NoDup (walletIds s) ->
  NoDup (transactionIds s) ->
  (forall uuid amountValue today,
     a = Submit uuid amountValue today -> ~ In uuid (transactionIds s)) ->
  stateOf (perform tz a s) = Some s' ->
  NoDup (transactionIds s') /\ incl (transactionIds s')
    (match a with
     | Submit uuid _ _ => uuid :: transactionIds s
     | _ => transactionIds s
     end).
Proof.
  intros Hw Ht Hfresh Hs.
  assert (Hsame : forall x, wallets x = wallets s ->
                  NoDup (transactionIds x) /\
                  incl (transactionIds x) (transactionIds s)).
  { intros x Ex. unfold transactionIds. rewrite Ex.
    split; [exact Ht | apply incl_refl]. }
  destruct a; cbn in Hs; try (injection Hs as <-; now apply Hsame).
  - (* CreateWallet *)
    injection Hs as <-. unfold handleCreateWallet.
    destruct (negb _); [now apply Hsame|].
    unfold transactionIds.
    cbn [wallets setIsCreatingWallet setNewWalletName setActiveWalletId
           setWallets].
    rewrite flat_map_app. cbn. rewrite !app_nil_r.
    split; [exact Ht | apply incl_refl].
  - (* DeleteWallet *)
    unfold handleDeleteWallet in Hs.
    destruct (_ <=? _)%nat; [injection Hs as <-; now apply Hsame|].
    destruct confirmed; [|injection Hs as <-; now apply Hsame].
    assert (Hf : forall x,
               wallets x
               = filter (fun w => negb (String.eqb (WalletData.id w)
                                                   walletId)) (wallets s) ->
               NoDup (transactionIds x) /\
               incl (transactionIds x) (transactionIds s)).
    { intros x Ex. unfold transactionIds. rewrite Ex. split.
      - now apply NoDup_flat_map_filter.
      - apply incl_flat_map_filter. }
    destruct (id_eq _ _).
    + destruct (filter _ _) eqn:Ef; [discriminate|].
      injection Hs as <-. apply Hf. reflexivity.
    + injection Hs as <-. now apply Hf.
  - (* Submit *)
    injection Hs as <-.
    destruct (rejected_or_accepted s) as [Hr|Hacc].
    { rewrite (handleSubmit_rejected _ _ _ _ Hr).
      split; [exact Ht | now apply incl_tl, incl_refl]. }
    unfold transactionIds at 1 2.
    rewrite (handleSubmit_accepted _ _ _ _ Hacc).
    destruct (truthy_opt_cases (editingId s)) as [Hadd|[eid [He Hne]]].
    + destruct (ids_after_add s (payload uuid amountValue s) (wallets s)
                  Hadd Hw) as [extra [Hx Hp]].
      rewrite (payload_adding _ _ _ Hadd) in Hp, Hx. cbn in Hx.
      rewrite (payload_adding _ _ _ Hadd).
      assert (Hn : NoDup (extra ++ transactionIds s)).
      { destruct Hx as [->| ->]; [exact Ht|]. cbn. constructor; [|exact Ht].
        exact (Hfresh _ _ _ eq_refl). }
      split.
      * apply (Permutation_NoDup (Permutation_sym Hp)). exact Hn.
      * intros x Hin. apply (Permutation_in _ Hp) in Hin.
        apply in_app_or in Hin as [Hin|Hin]; [|now right].
        destruct Hx as [->| ->]; [contradiction|].
        destruct Hin as [<-|[]]. now left.
    + rewrite (ids_after_update _ _ _ eid He Hne
                 (payload_id_editing _ _ _ _ He Hne)).
      split; [exact Ht | now apply incl_tl, incl_refl].
  - (* DeleteRecord *)
    injection Hs as <-. unfold transactionIds at 1 2.
    rewrite handleDelete_wallets.
    destruct confirmed; [|split; [exact Ht | apply incl_refl]].
    assert (Hi : forall w,
               incl (idsOf (deleteFromWallet s id w)) (idsOf w)).
    { intros w. unfold deleteFromWallet, idsOf.
      destruct (id_eq _ _); [|apply incl_refl].
      cbn [WalletData.transactions]. intros x Hx.
      apply in_map_iff in Hx as [y [Ey Hy]]. apply filter_In in Hy as [Hy _].
      subst x. now apply in_map. }
    split.
    + apply NoDup_flat_map_map; [exact Hi | | exact Ht].
      intros w Hn. unfold deleteFromWallet. unfold idsOf in *.
      destruct (id_eq _ _); [|exact Hn].
      cbn [WalletData.transactions].
      rewrite (map_id_filter (fun i => negb (String.eqb i id))).
      now apply NoDup_filter.
    + now apply incl_flat_map_map.
  - (* Navigate *)
    injection Hs as <-. apply Hsame. unfold navigateTime.
    now destruct (viewMode s).
  - (* ClickDay *)
    injection Hs as <-. apply Hsame. unfold handleDayClick.
    now destruct (num_eq _ _).
Qed.

End TransactionIdentifiers.

(** X16 at the Trip wallet: a third transaction is added. *)
Lemma X16_transaction_ids_distinct_witness :
  NoDup (transactionIds
           (handleSubmit "t3" 25 "2024-03-15"
              (fillForm "Dinner" "25" "2024-03-12" tripActive))).
Proof.
  refine (proj1 (X16_transaction_ids_distinct utcPlus8
                   (Submit "t3" 25 "2024-03-15")
                   (fillForm "Dinner" "25" "2024-03-12" tripActive) _
                   _ _ _ eq_refl)).
  - cbn. repeat constructor; cbn; intuition discriminate.
  - cbn. repeat constructor; cbn; intuition discriminate.
  - intros uuid amountValue today E. injection E as <- _ _.
    cbn. intuition discriminate.
Defined.

(* ================================================================== *)
(** ** Saving and loading again *)
(* ================================================================== *)

Section Persistence.

Lemma storedNumber_storable x :
  storedNumber x = JNum x <-> storable x = true.
Proof.
  unfold storedNumber, storable.
  destruct (PrimFloat.classify x) eqn:E; split; intros H;
    try reflexivity; try discriminate.
  injection H as <-. vm_compute in E. discriminate.
Qed.

Lemma stored_transaction_eq t :
  stored_transaction t = transaction_to_json t
  <-> storable (Transaction.amount t) = true.
Proof.
  rewrite <- storedNumber_storable.
  unfold stored_transaction, transaction_to_json. split.
  - intros H. now injection H.
  - now intros ->.
Qed.

Lemma map_eq_pointwise {A B} (f g : A -> B) l :
  map f l = map g l <-> (forall x, In x l -> f x = g x).
Proof.
  induction l as [|a l IH]; cbn.
  - split; [intros _ x [] | reflexivity].
  - split.
    + intros H. injection H as Ha Hl. intros x [<-|Hx]; [exact Ha|].
      now apply IH.
    + intros H. f_equal; [apply H; now left|].
      apply IH. intros x Hx. apply H. now right.
Qed.

Lemma stored_wallet_eq w :
  stored_wallet w = wallet_to_json w
  <-> (forall t, In t (WalletData.transactions w) ->
                 storable (Transaction.amount t) = true).
Proof.
  unfold stored_wallet, wallet_to_json, wallet_json. split.
  - intros H. injection H as H. rewrite map_eq_pointwise in H.
    intros t Ht. now apply stored_transaction_eq, H.
  - intros H.
    assert (E : map stored_transaction (WalletData.transactions w)
                = map transaction_to_json (WalletData.transactions w)).
    { apply map_eq_pointwise. intros t Ht.
      now apply stored_transaction_eq, H. }
    now rewrite E.
Qed.

Lemma stored_wallets_eq ws :
  map stored_wallet ws = map wallet_to_json ws
  <-> (forall w t, In w ws -> In t (WalletData.transactions w) ->
                   storable (Transaction.amount t) = true).
Proof.
  rewrite map_eq_pointwise. split.
  - intros H w t Hw. now apply stored_wallet_eq, H.
  - intros H w Hw. apply stored_wallet_eq. intros t. now apply H.
Qed.

Lemma loadWallets_saved uuid text w0 rest :
  text <> ""%string ->
  loadWallets uuid (Some text) (Some (JArr (map stored_wallet (w0 :: rest))))
  = map stored_wallet (w0 :: rest).
Proof.
  intros Ht. unfold loadWallets. rewrite (proj2 (truthy_true _) Ht).
  reflexivity.
Qed.

(** X17.  What the save effect stores is what the load effect brings
    back.  From a state of the application, the stored collection is
    taken as a wallet collection and returned whole: one entry for each
    wallet, in order.  It is the wallets themselves exactly when every
    amount is a finite number other than negative zero (an amount that is
    NaN or infinite comes back as [null]).  In that case the state after
    loading is a state of the application with the same wallets, and the
    first wallet, not the one that was in view, is the active one.  The
    theme comes back as [toggleTheme] left it. *)
Theorem X17_reload_after_save (tz : Z) (uuid text : string) (now : Z)
    (today : string) (s : State) :
  reachable tz s -> text <> ""%string ->
  exists w0 rest,
    wallets s = w0 :: rest /\
    loadWallets uuid (Some text) (Some (savedWallets s))
    = map stored_wallet (wallets s) /\
    (map stored_wallet (wallets s) = map wallet_to_json (wallets s)
     <-> (forall w t, In w (wallets s) ->
            In t (WalletData.transactions w) ->
            storable (Transaction.amount t) = true)) /\
    ((forall w t, In w (wallets s) ->
        In t (WalletData.transactions w) ->
        storable (Transaction.amount t) = true) ->
     forall savedTheme,
       let s' := mountedState w0 rest savedTheme now today in
       reachable tz s' /\ wallets s' = wallets s /\
       activeWalletId s' = Some (WalletData.id w0) /\
       transactions s' = WalletData.transactions w0) /\
    (forall s0,
       darkMode (mountedState w0 rest (Some (themeWritten s0)) now today)
       = darkMode (toggleTheme s0)).
Proof.
  intros Hr Ht.
  destruct (reachable_invariant tz s Hr) as [Hnd [w [Hin _]]].
  destruct (wallets s) as [|w0 rest] eqn:Ew; [contradiction|].
  exists w0, rest. split; [reflexivity|].
  assert (El : loadWallets uuid (Some text) (Some (savedWallets s))
               = map stored_wallet (w0 :: rest)).
  { unfold savedWallets. rewrite Ew. now apply loadWallets_saved. }
  split; [exact El|]. split; [apply stored_wallets_eq|]. split.
  - intros Hst savedTheme. cbv zeta. split; [|split; [|split]].
    + apply (reach_mount tz uuid (Some text) (Some (savedWallets s))).
      * rewrite El. now apply stored_wallets_eq.
      * unfold walletIds in Hnd. now rewrite Ew in Hnd.
    + reflexivity.
    + reflexivity.
    + unfold transactions, activeWallet. cbn [wallets activeWalletId
        mountedState find id_eq]. now rewrite String.eqb_refl.
  - intros s0. unfold themeWritten. cbn [darkMode mountedState toggleTheme
      setDarkMode]. now destruct (darkMode s0).
Qed.

End Persistence.

(** X17 at the state with the wallets "w1" and "w2". *)
Lemma X17_reload_after_save_witness :
  loadWallets "u" (Some storedWalletText) (Some (savedWallets twoWallets))
  = map stored_wallet (wallets twoWallets).
Proof.
  destruct (X17_reload_after_save utcPlus8 "u" storedWalletText 0
              "2024-03-15" twoWallets (reachable_twoWallets utcPlus8))
    as (w0 & rest & _ & H & _).
  - discriminate.
  - exact H.
Defined.

(* ================================================================== *)
(** ** The selected day *)
(* ================================================================== *)

Section SelectedDay.

Variable tz : Z.

Lemma In_countFrom n : forall lo d,
  In d (countFrom lo n) -> lo <= d < lo + Z.of_nat n.
Proof.
  induction n as [|n IH]; intros lo d; [intros []|].
  cbn [countFrom]. intros [<-|H]; [lia|]. apply IH in H. lia.
Qed.

Lemma days_of_blank_cells {A} (l : list A) :
  flat_map (fun cell => match DayCell.day cell with
                        | Some d => [d]
                        | None => []
                        end)
    (map (fun _ => DayCell.mk None 0%float 0%float) l) = [].
Proof. induction l as [|a l IH]; [reflexivity | exact IH]. Qed.

Lemma days_of_day_cells txs l :
  flat_map (fun cell => match DayCell.day cell with
                        | Some d => [d]
                        | None => []
                        end)
    (map (dayCell tz txs) l) = l.
Proof.
  induction l as [|a l IH]; [reflexivity|].
  cbn [map flat_map]. rewrite IH. reflexivity.
Qed.

(** The cells in view are those of the days 1..N of the anchor month, in
    the daily view, whatever the transactions are. *)
Lemma daysShown_eq s :
  daysShown tz s
  = match viewMode s with
    | Daily =>
        countFrom 1
          (Z.to_nat
             (JSDate.getDate tz
                (JSDate.newDate_ymd tz
                   (JSDate.getFullYear tz (currentDate s))
                   (JSDate.getMonth tz (currentDate s) + 1) 0)))
    | Monthly => []
    end.
Proof.
  unfold daysShown, calendarData. destruct (viewMode s); [|reflexivity].
  rewrite flat_map_app, days_of_blank_cells, days_of_day_cells.
  reflexivity.
Qed.

Lemma selection_frame s s' :
  selectedDay s' = selectedDay s -> viewMode s' = viewMode s ->
  currentDate s' = currentDate s ->
  selectionInView tz s -> selectionInView tz s'.
Proof.
  intros E1 E2 E3 H d Hd. rewrite daysShown_eq, E2, E3, <- daysShown_eq.
  apply H. now rewrite <- E1.
Qed.

Lemma selection_cleared s' :
  selectedDay s' = None -> selectionInView tz s'.
Proof. intros E d Hd. congruence. Qed.

Lemma selection_bounds s :
  selectionInView tz s ->
  forall d, selectedDay s = Some d -> viewMode s = Daily /\ 1 <= d <= 31.
Proof.
  intros H d Hd. apply H in Hd. rewrite daysShown_eq in Hd.
  destruct (viewMode s); [|contradiction]. split; [reflexivity|].
  apply In_countFrom in Hd.
  match type of Hd with
  | context [JSDate.getDate tz ?x] =>
      pose proof (getDate_range tz x) as Hg;
      pose proof (JSDateFacts.daysInMonth_min
                    (JSDate.getFullYear tz x) (JSDate.getMonth tz x))
  end.
  lia.
Qed.

(** X18.  A selected day is always a day of the calendar in view.  Given
    that a click on a day comes from a cell of the calendar in view, every
    action keeps this: the day selected, if any, is one of the days shown,
    so the view is the daily one and the day lies between 1 and 31.
    (Moving to another month clears the selection; moving to another year
    happens in the monthly view, where no day is selected.) *)
Theorem X18_selected_day_in_view (a : Action) (s s' : State) :
  selectionInView tz s ->
  (forall d, a = ClickDay d -> In d (daysShown tz s)) ->
  stateOf (perform tz a s) = Some s' ->
  selectionInView tz s' /\
  (forall d, selectedDay s' = Some d ->
     viewMode s' = Daily /\ 1 <= d <= 31).
Proof.
  intros Hinv Hclick Hs.
  assert (Hgoal : selectionInView tz s').
  { destruct a; cbn in Hs;
      try (injection Hs as <-;
           first [ now apply selection_cleared
                 | now apply (selection_frame s) ]).
    - (* CreateWallet *)
      injection Hs as <-. apply (selection_frame s); try exact Hinv;
        unfold handleCreateWallet; now destruct (negb _).
    - (* DeleteWallet *)
      unfold handleDeleteWallet in Hs.
      destruct (_ <=? _)%nat; [injection Hs as <-; exact Hinv|].
      destruct confirmed; [|injection Hs as <-; exact Hinv].
      destruct (id_eq _ _).
      + destruct (filter _ _); [discriminate|].
        injection Hs as <-. now apply (selection_frame s).
      + injection Hs as <-. now apply (selection_frame s).
    - (* Submit *)
      injection Hs as <-.
      destruct (rejected_or_accepted s) as [Hr|Hacc].
      + now rewrite (handleSubmit_rejected _ _ _ _ Hr).
      + pose proof (handleSubmit_form uuid amountValue today s Hacc) as Hf.
        cbv zeta in Hf.
        destruct Hf as (_ & _ & _ & _ & _ & _ & _ & F8 & F9 & F10).
        now apply (selection_frame s).
    - (* DeleteRecord *)
      injection Hs as <-. apply (selection_frame s); try exact Hinv;
        unfold handleDelete; now destruct confirmed.
    - (* Navigate *)
      injection Hs as <-. unfold navigateTime.
      destruct (viewMode s) eqn:Ev.
      + now apply selection_cleared.
      + apply selection_cleared. cbn [selectedDay setCurrentDate].
        destruct (selectedDay s) as [d|] eqn:Ed; [|reflexivity].
        destruct (selection_bounds s Hinv d Ed) as [Hd _]. congruence.
    - (* ClickDay *)
      injection Hs as <-. unfold handleDayClick.
      destruct (num_eq _ _); [now apply selection_cleared|].
      intros d Hd. cbn in Hd. injection Hd as <-.
      rewrite daysShown_eq. cbn [viewMode currentDate setSelectedDay].
      rewrite <- daysShown_eq. now apply Hclick. }
  split; [exact Hgoal | now apply selection_bounds].
Qed.

End SelectedDay.

(** X18 at March 2024 (UTC+8): day 10 is clicked. *)
Lemma X18_selected_day_in_view_witness :
  selectionInView utcPlus8
    (handleDayClick 10
       (sampleState [mainWallet] (Some "w1"%string) Daily march15 None)).
Proof.
  refine (proj1 (X18_selected_day_in_view utcPlus8 (ClickDay 10)
                   (sampleState [mainWallet] (Some "w1"%string) Daily
                      march15 None) _ _ _ eq_refl)).
  - intros x Hx. cbn [selectedDay sampleState] in Hx. discriminate Hx.
  - intros x Hx. injection Hx as <-. rewrite daysShown_eq.
    vm_compute. tauto.
Defined.

(* ================================================================== *)
(** ** The wallet in view behaves as the single-wallet version *)
(* ================================================================== *)

Section LegacyView.

Lemma legacyView_eq s s' T :
  transactions s' = T -> darkMode s' = darkMode s ->
  viewMode s' = viewMode s -> currentDate s' = currentDate s ->
  selectedDay s' = selectedDay s ->
  legacyView s'
  = Legacy.mkState T (darkMode s) (viewMode s) (currentDate s)
      (selectedDay s) (description s') (amount s') (type s') (date s')
      (category s') (editingId s').
Proof. intros <- E1 E2 E3 E4. unfold legacyView. congruence. Qed.

(** X19.  With a wallet in view (the active identifier is not empty and
    a wallet carries it), every handler acts on the transactions in view
    and on the form exactly as the handler of the single-wallet version
    acts on its list of transactions: the state seen through the wallet
    in view after the handler is the single-wallet handler's result on
    the state seen through the wallet in view before. *)
Theorem X19_wallet_in_view_as_legacy (tz : Z) (s : State) (w : WalletData.t) :
  activeWallet s = Some w -> truthy_opt (activeWalletId s) = true ->
  (forall uuid amountValue today,
     legacyView (handleSubmit uuid amountValue today s)
     = Legacy.handleSubmit uuid amountValue today (legacyView s)) /\
  (forall id confirmed,
     legacyView (handleDelete id confirmed s)
     = Legacy.handleDelete id confirmed (legacyView s)) /\
  (forall t amountText,
     legacyView (handleEdit t amountText s)
     = Legacy.handleEdit t amountText (legacyView s)) /\
  legacyView (cancelEdit s) = Legacy.cancelEdit (legacyView s) /\
  legacyView (toggleTheme s) = Legacy.toggleTheme (legacyView s) /\
  (forall direction,
     legacyView (navigateTime tz direction s)
     = Legacy.navigateTime tz direction (legacyView s)) /\
  (forall day,
     legacyView (handleDayClick day s)
     = Legacy.handleDayClick day (legacyView s)).
Proof.
  intros Hw Htr.
  destruct (activeWallet_Some s w Hw) as [_ Hact].
  split; [|split; [|split; [|split; [|split; [|split]]]]].
  - intros uuid amountValue today.
    destruct (rejected_or_accepted s) as [Hr|Hacc].
    + rewrite (handleSubmit_rejected _ _ _ _ Hr).
      unfold Legacy.handleSubmit.
      destruct Hr as [H|[H|[H|H]]]; [| | |congruence];
        apply truthy_false in H;
        cbn [legacyView Legacy.description Legacy.amount Legacy.date];
        rewrite H; cbn [negb orb]; rewrite ?orb_true_r; reflexivity.
    + pose proof (handleSubmit_form uuid amountValue today s Hacc) as Hf.
      cbv zeta in Hf.
      destruct Hf as (F1 & F2 & F3 & F4 & F5 & F6 & _ & F8 & F9 & F10).
      assert (Fd : darkMode (handleSubmit uuid amountValue today s)
                   = darkMode s).
      { destruct Hacc as (Hd & Ha & Hdt & Hx). unfold handleSubmit.
        apply truthy_true in Hd, Ha, Hdt. rewrite Hd, Ha, Hdt, Hx.
        cbn [negb orb]. now destruct (truthy_opt (editingId s)). }
      rewrite (legacyView_eq s _ _ (transactions_handleSubmit _ _ _ _ Hacc)
                 Fd F8 F9 F10).
      rewrite F1, F2, F3, F4, F5, F6, Hw.
      destruct Hacc as (Hd & Ha & Hdt & _). unfold Legacy.handleSubmit.
      apply truthy_true in Hd, Ha, Hdt.
      cbn [legacyView Legacy.description Legacy.amount Legacy.date
             Legacy.editingId Legacy.transactions].
      rewrite Hd, Ha, Hdt. cbn [negb orb].
      unfold submitToWallet. rewrite Hact.
      unfold transactions at 1 2. rewrite Hw.
      destruct (truthy_opt (editingId s)); reflexivity.
  - intros id confirmed. unfold handleDelete, Legacy.handleDelete.
    destruct confirmed; [|reflexivity].
    unfold legacyView at 1.
    pose proof (activeWallet_map (deleteFromWallet s id) s
                  (setWallets (map (deleteFromWallet s id) (wallets s)) s)
                  (deleteFromWallet_id s id) eq_refl eq_refl) as E.
    unfold transactions at 1. rewrite E, Hw. cbn [option_map].
    unfold deleteFromWallet at 1. rewrite Hact.
    cbn [WalletData.transactions legacyView Legacy.transactions].
    unfold transactions. rewrite Hw. reflexivity.
  - reflexivity.
  - reflexivity.
  - reflexivity.
  - intros direction. unfold navigateTime, Legacy.navigateTime.
    cbn [legacyView Legacy.viewMode]. now destruct (viewMode s).
  - intros day. unfold handleDayClick, Legacy.handleDayClick.
    cbn [legacyView Legacy.selectedDay]. now destruct (num_eq _ _).
Qed.

End LegacyView.

(** X19 at the Trip wallet: a dinner is added. *)
Lemma X19_wallet_in_view_as_legacy_witness :
  legacyView
    (handleSubmit "t3" 25 "2024-03-15"
       (fillForm "Dinner" "25" "2024-03-12" tripActive))
  = Legacy.handleSubmit "t3" 25 "2024-03-15"
      (legacyView (fillForm "Dinner" "25" "2024-03-12" tripActive)).
Proof.
  refine (proj1 (X19_wallet_in_view_as_legacy utcPlus8
                   (fillForm "Dinner" "25" "2024-03-12" tripActive)
                   tripWallet eq_refl eq_refl) "t3"%string 25%float
            "2024-03-15"%string).
Defined.

(* ================================================================== *)
(** ** Upgrading from the single-wallet version *)
(* ================================================================== *)

Section Upgrade.

Lemma stored_transactions_eq T :
  map stored_transaction T = map transaction_to_json T
  <-> (forall t, In t T -> storable (Transaction.amount t) = true).
Proof.
  rewrite map_eq_pointwise. split; intros H t Ht;
    now apply stored_transaction_eq, H.
Qed.

Lemma loadWallets_legacy uuid text T :
  text <> ""%string ->
  loadWallets uuid (Some text) (Some (JArr (map stored_transaction T)))
  = [wallet_json uuid "Main Wallet" (JArr (map stored_transaction T))].
Proof.
  intros Ht. unfold loadWallets. rewrite (proj2 (truthy_true _) Ht).
  now destruct T.
Qed.

(** X20.  What the single-wallet version stored is shown by the wallet
    version.  The list of transactions the single-wallet version saved,
    empty or not, with finite amounts other than negative zero, is read
    back by that version's own load effect as it was; the wallet
    version's load effect wraps it in one wallet named "Main Wallet"
    carrying the fresh identifier, and the state it leaves is a state of
    the application in which that wallet is in view with the same
    transactions in the same order. *)
Theorem X20_upgrade_keeps_transactions (tz : Z) (uuid text : string)
    (savedTheme : option string) (now : Z) (today : string)
    (old : Legacy.State) :
  text <> ""%string ->
  (forall t, In t (Legacy.transactions old) ->
             storable (Transaction.amount t) = true) ->
  let T := Legacy.transactions old in
  let main := WalletData.mk uuid "Main Wallet" T in
  let s := mountedState main [] savedTheme now today in
  Legacy.load (Some text) (Some (Legacy.savedTransactions old))
  = Legacy.LoadSet (JArr (map transaction_to_json T)) /\
  loadWallets uuid (Some text) (Some (Legacy.savedTransactions old))
  = [wallet_to_json main] /\
  reachable tz s /\ wallets s = [main] /\ activeWallet s = Some main /\
  transactions s = T /\
  Legacy.transactions (legacyView s) = Legacy.transactions old.
Proof.
  intros Ht Hst. cbv zeta.
  assert (Es : map stored_transaction (Legacy.transactions old)
               = map transaction_to_json (Legacy.transactions old))
    by now apply stored_transactions_eq.
  assert (El : loadWallets uuid (Some text)
                 (Some (Legacy.savedTransactions old))
               = [wallet_to_json
                    (WalletData.mk uuid "Main Wallet"
                       (Legacy.transactions old))]).
  { unfold Legacy.savedTransactions.
    rewrite (loadWallets_legacy _ _ _ Ht), Es. reflexivity. }
  assert (Ea : activeWallet
                 (mountedState
                    (WalletData.mk uuid "Main Wallet"
                       (Legacy.transactions old)) [] savedTheme now today)
               = Some (WalletData.mk uuid "Main Wallet"
                         (Legacy.transactions old))).
  { unfold activeWallet. cbn [wallets activeWalletId mountedState find id_eq
      WalletData.id]. now rewrite String.eqb_refl. }
  split.
  { unfold Legacy.load, Legacy.savedTransactions.
    now rewrite (proj2 (truthy_true _) Ht), Es. }
  split; [exact El|]. split.
  { apply (reach_mount tz uuid (Some text)
             (Some (Legacy.savedTransactions old))); [exact El|].
    repeat constructor. intros []. }
  split; [reflexivity|]. split; [exact Ea|].
  assert (Et : transactions
                 (mountedState
                    (WalletData.mk uuid "Main Wallet"
                       (Legacy.transactions old)) [] savedTheme now today)
               = Legacy.transactions old).
  { unfold transactions. now rewrite Ea. }
  split; [exact Et|]. exact Et.
Qed.

End Upgrade.

(** X20 for a single-wallet state holding the two transactions of the
    Trip wallet. *)
Lemma X20_upgrade_keeps_transactions_witness :
  transactions
    (mountedState
       (WalletData.mk "u" "Main Wallet" (WalletData.transactions tripWallet))
       [] None 0 "2024-03-15")
  = WalletData.transactions tripWallet.
Proof.
  refine (proj1 (proj2 (proj2 (proj2 (proj2 (proj2
            (X20_upgrade_keeps_transactions utcPlus8 "u" storedLegacyText
               None 0 "2024-03-15"
               (legacyView tripActive) _ _))))))).
  - discriminate.
  - intros t [<-|[<-|[]]]; reflexivity.
Defined.
